(** * Orangebeard Vitest reporter: a shallow embedding and its properties

    The development follows [src/reporter/OrangebeardVitestReporter.ts] and
    [src/reporter/utils.ts].  The reporter is a stateful object whose
    callbacks talk to a remote client; here its fields are a record, the
    callbacks are computations in a state-and-exception monad, and every
    call on the client (and every local diagnostic) is appended to a
    chronological trace.  Timestamps ([getTime()]) are wall-clock readings
    and are left out of the recorded payloads. *)

From Stdlib Require Import String Ascii List ZArith Lia Bool.
From stdpp Require Import base option strings gmap list pretty.
Import ListNotations.

Set Warnings "-register-all".
Local Open Scope string_scope.
Local Open Scope list_scope.

(** ** Outcomes of JavaScript evaluation *)

(** An evaluation either returns a value or throws; the thrown value is kept
    as its message. *)
Definition Exn := string.

Inductive Outcome (A : Type) : Type :=
| Returns (a : A)
| Throws (e : Exn).
Arguments Returns {A} a.
Arguments Throws {A} e.

Definition obind {A B} (o : Outcome A) (k : A -> Outcome B) : Outcome B :=
  match o with
  | Returns a => k a
  | Throws e => Throws e
  end.

Notation "'let!' x ':=' m 'in' k" := (obind m (fun x => k))
  (at level 10, x name, m at level 100, k at level 200).

(** [try { m } catch { h }] on pure evaluations. *)
Definition try_catch {A} (m : Outcome A) (h : Exn -> Outcome A) : Outcome A :=
  match m with
  | Returns a => Returns a
  | Throws e => h e
  end.

Fixpoint mapM_outcome {A B} (f : A -> Outcome B) (l : list A) : Outcome (list B) :=
  match l with
  | [] => Returns []
  | a :: l' =>
      let! b := f a in
      let! bs := mapM_outcome f l' in
      Returns (b :: bs)
  end.

(** ** String helpers (the methods of [String.prototype] the source uses) *)

Definition join (sep : string) (parts : list string) : string :=
  String.concat sep parts.

Definition startsWith (s p : string) : bool := String.prefix p s.

Fixpoint includes (s sub : string) : bool :=
  if String.prefix sub s then true
  else match s with
       | EmptyString => false
       | String _ s' => includes s' sub
       end.

Definition endsWith (s p : string) : bool :=
  String.prefix (String.rev p) (String.rev s).

Definition lower_ascii (c : ascii) : ascii :=
  let n := nat_of_ascii c in
  if (65 <=? n)%nat && (n <=? 90)%nat then ascii_of_nat (n + 32) else c.

(** [toLowerCase], on the ASCII letters.  Of the other characters only
    U+212A and U+0130 have a lower case that holds an ASCII letter, k and i;
    the text is searched for keywords that hold neither (see
    [determineTestType]), which is all the source does with it. *)
Fixpoint toLowerCase (s : string) : string :=
  match s with
  | EmptyString => EmptyString
  | String c s' => String (lower_ascii c) (toLowerCase s')
  end.

(** A string holds the UTF-8 encoding of the JavaScript string it stands
    for, one byte per [ascii]; the helpers below act on these bytes as the
    methods act on the text. *)

(** White space as [trim] sees it, in one byte: tab, line feed, vertical
    tab, form feed, carriage return and space. *)
Definition is_space (c : ascii) : bool :=
  let n := nat_of_ascii c in
  ((9 <=? n)%nat && (n <=? 13)%nat) || (n =? 32)%nat.

(** In two bytes: U+00A0, no-break space. *)
Definition is_space2 (a b : ascii) : bool :=
  (nat_of_ascii a =? 194)%nat && (nat_of_ascii b =? 160)%nat.

(** In three bytes: U+1680; U+2000 to U+200A, U+2028, U+2029 and U+202F;
    U+205F; U+3000; and U+FEFF, the byte order mark. *)
Definition is_space3 (a b c : ascii) : bool :=
  let x := nat_of_ascii a in
  let y := nat_of_ascii b in
  let z := nat_of_ascii c in
  ((x =? 225) && (y =? 154) && (z =? 128))%nat
  || ((x =? 226) && (y =? 128)
      && (((128 <=? z) && (z <=? 138)) || (z =? 168) || (z =? 169) || (z =? 175)))%nat
  || ((x =? 226) && (y =? 129) && (z =? 159))%nat
  || ((x =? 227) && (y =? 128) && (z =? 128))%nat
  || ((x =? 239) && (y =? 187) && (z =? 191))%nat.

(** Removes the white space [s] starts with.  With [backwards], [s] is read
    as a reversed string, the bytes of a character last to first. *)
Fixpoint strip_spaces (backwards : bool) (s : string) : string :=
  match s with
  | EmptyString => s
  | String a s1 =>
      if is_space a then strip_spaces backwards s1
      else
        match s1 with
        | EmptyString => s
        | String b s2 =>
            if (if backwards then is_space2 b a else is_space2 a b)
            then strip_spaces backwards s2
            else
              match s2 with
              | EmptyString => s
              | String c s3 =>
                  if (if backwards then is_space3 c b a else is_space3 a b c)
                  then strip_spaces backwards s3
                  else s
              end
        end
  end.

Definition trimStart (s : string) : string := strip_spaces false s.

Definition trimEnd (s : string) : string := String.rev (strip_spaces true (String.rev s)).

Definition trim (s : string) : string := trimEnd (trimStart s).

(** Truthiness of a string: only the empty string is falsy. *)
Definition truthy_string (s : string) : bool := negb (String.eqb s EmptyString).

(** Truthiness of [string | undefined]. *)
Definition truthy_opt (o : option string) : bool :=
  match o with
  | Some s => truthy_string s
  | None => false
  end.

(** [a ?? b] on optional values. *)
Definition nullish {A} (a : option A) (b : A) : A :=
  match a with
  | Some x => x
  | None => b
  end.

Definition nullish_opt {A} (a b : option A) : option A :=
  match a with
  | Some x => Some x
  | None => b
  end.

(** ** JavaScript values

    Values of type [any] / [unknown] (the coverage snapshot, an artifact,
    the content of a console log).  A number is an IEEE double; the source
    only ever observes three things of one, which is what a [Num] records:
    its truthiness, [n.toFixed(1)] and [String(n)].  A function value is a
    handle; what calling it does is given by the host (see [Host]). *)
Record Num := {
  num_truthy : bool;
  num_toFixed1 : string;
  num_toString : string;
}.

(** The literal [0]. *)
Definition num_zero : Num :=
  {| num_truthy := false; num_toFixed1 := "0.0"; num_toString := "0" |}.

Inductive Value :=
| VUndefined
| VNull
| VBool (b : bool)
| VNum (n : Num)
| VStr (s : string)
| VBigInt (z : Z)
| VArr (items : list Value)
| VObj (props : list (string * Value))
| VFun (handle : nat).

Definition truthy (v : Value) : bool :=
  match v with
  | VUndefined | VNull => false
  | VBool b => b
  | VNum n => num_truthy n
  | VStr s => truthy_string s
  | VBigInt z => negb (Z.eqb z 0)
  | VArr _ | VObj _ | VFun _ => true
  end.

Definition is_nullish (v : Value) : bool :=
  match v with
  | VUndefined | VNull => true
  | _ => false
  end.

(** [a ?? b] on values. *)
Definition vnullish (a b : Value) : Value := if is_nullish a then b else a.

Definition is_function (v : Value) : bool :=
  match v with
  | VFun _ => true
  | _ => false
  end.

Fixpoint assoc {A} (k : string) (l : list (string * A)) : option A :=
  match l with
  | [] => None
  | (k', v) :: l' => if String.eqb k k' then Some v else assoc k l'
  end.

(** ** The host: built-ins and user code the reporter calls into *)
Record Host := {
  (** [f.call(this, ...args)] for the function behind a handle *)
  call : nat -> Value -> list Value -> Outcome Value;
  (** a property read on a function object *)
  fun_prop : nat -> string -> Value;
  (** [String(v)] for an array, an object or a function (runs [toString]) *)
  object_to_string : Value -> Outcome string;
  (** [removeAnsi(v)] for an object or a function [v] that has a [split]
      method of its own (runs the method and iterates what it returns) *)
  removeAnsi_exotic : Value -> Outcome string;
  (** [JSON.stringify(v, null, indent)]; [None] is [undefined] *)
  JSON_stringify : Value -> option nat -> Outcome (option string);
  (** iterating [v.sort()] for a [v] that is not an array *)
  sort_exotic : Value -> Outcome (list Value);
  (** [path.relative(process.cwd(), p)] on a string [p] *)
  path_relative_cwd : string -> Outcome string;
  (** [fs.readFileSync(p, 'utf8')] *)
  readFileSync : string -> Outcome string;
}.

(** ** [utils.ts] *)

Inductive Status := PASSED | FAILED | SKIPPED | TIMED_OUT | STOPPED.
Inductive TestType := BEFORE | AFTER | TEST.
Inductive LogLevel := INFO | ERROR.
Inductive LogFormat := MARKDOWN | PLAIN_TEXT.

(** The own properties of the object literal [testStatusMap]. *)
Definition testStatusMap_own : list (string * Status) :=
  [("passed", PASSED); ("failed", FAILED); ("skipped", SKIPPED); ("pending", SKIPPED)].

(** [testStatusMap] is an object literal, so a property read that misses the
    own properties goes on to [Object.prototype]; these are its members, each
    a function (or, for [__proto__], the prototype object): all truthy. *)
Definition Object_prototype_members : list string :=
  ["constructor"; "hasOwnProperty"; "isPrototypeOf"; "propertyIsEnumerable";
   "toLocaleString"; "toString"; "valueOf"; "__proto__";
   "__defineGetter__"; "__defineSetter__"; "__lookupGetter__"; "__lookupSetter__"].

(** What the read [testStatusMap[key]] yields when it is not [undefined]. *)
Inductive StatusRead :=
| Mapped (s : Status)
| Inherited (member : string).

(** [testStatusMap[key]]; [None] is [undefined]. *)
Definition testStatusMap (key : string) : option StatusRead :=
  match assoc key testStatusMap_own with
  | Some s => Some (Mapped s)
  | None =>
      if existsb (String.eqb key) Object_prototype_members
      then Some (Inherited key) else None
  end.

(** *** ANSI sequences *)

Definition ESC : ascii := ascii_of_nat 27.
Definition CSI : string := String ESC (String "[" EmptyString).

Definition is_param_char (c : ascii) : bool :=
  let n := nat_of_ascii c in
  ((48 <=? n)%nat && (n <=? 57)%nat) || (n =? 59)%nat.

Definition is_final_char (c : ascii) : bool :=
  Ascii.eqb c "m" || Ascii.eqb c "G".

(** After [ESC \[]: the run [[0-9;]*] and the final [[mG]], if it is there. *)
Fixpoint match_params (s : string) : option string :=
  match s with
  | EmptyString => None
  | String c s' =>
      if is_param_char c then
        match match_params s' with
        | Some m => Some (String c m)
        | None => None
        end
      else if is_final_char c then Some (String c EmptyString)
      else None
  end.

(** A match of [/\u001b\[[0-9;]*[mG]/] at the start of [s]. *)
Definition match_ansi (s : string) : option string :=
  match s with
  | String e (String b s') =>
      if Ascii.eqb e ESC && Ascii.eqb b "[" then
        match match_params s' with
        | Some m => Some (CSI +:+ m)
        | None => None
        end
      else None
  | _ => None
  end.

(** [s.split(/(\u001b\[[0-9;]*[mG])/)]: text, match, text, ..., text.
    [cur] is the text gathered so far, [skip] counts the characters of a
    match still to pass over. *)
Fixpoint split_ansi_go (s cur : string) (skip : nat) : list string :=
  match s with
  | EmptyString => [cur]
  | String c s' =>
      match skip with
      | S k => split_ansi_go s' cur k
      | O =>
          match match_ansi s with
          | Some m => cur :: m :: split_ansi_go s' EmptyString (String.length m - 1)
          | None => split_ansi_go s' (cur +:+ String c EmptyString) 0
          end
      end
  end.

Definition split_ansi (s : string) : list string := split_ansi_go s EmptyString 0.

Definition removeAnsi (ansiString : string) : string :=
  fold_left
    (fun result part => if startsWith part CSI then result else result +:+ part)
    (split_ansi ansiString) EmptyString.

(** [s.split(sep)] for a one-character separator. *)
Fixpoint split_char_go (sep : ascii) (s cur : string) : list string :=
  match s with
  | EmptyString => [cur]
  | String c s' =>
      if Ascii.eqb c sep then cur :: split_char_go sep s' EmptyString
      else split_char_go sep s' (cur +:+ String c EmptyString)
  end.

Definition split_char (sep : ascii) (s : string) : list string :=
  split_char_go sep s EmptyString.

(** [part.slice(2, -1)] *)
Definition slice_2_m1 (s : string) : string :=
  String.substring 2 (String.length s - 3) s.

Record Style := { italic : option bool; code : option bool }.

(** The table [ansiCodes]; a code it does not list changes nothing. *)
Definition apply_code (st : Style) (c : string) : Style :=
  if String.eqb c "31" then {| italic := Some true; code := code st |}
  else if String.eqb c "32" then {| italic := Some true; code := code st |}
  else if String.eqb c "39" then {| italic := Some false; code := code st |}
  else if String.eqb c "2" then {| italic := italic st; code := Some true |}
  else if String.eqb c "22" then {| italic := italic st; code := Some false |}
  else st.

(** [s.replace(/\n/g, '  \n')] *)
Fixpoint break_lines (s : string) : string :=
  match s with
  | EmptyString => EmptyString
  | String c s' =>
      if Ascii.eqb c (ascii_of_nat 10)
      then String " " (String " " (String c (break_lines s')))
      else String c (break_lines s')
  end.

Definition ansiToMarkdown (ansiString : string) : string :=
  snd (fold_left
    (fun '(currentStyle, markdown) part =>
       if startsWith part CSI then
         (fold_left apply_code (split_char ";" (slice_2_m1 part)) currentStyle, markdown)
       else
         let formattedPart := break_lines part in
         let formattedPart :=
           if nullish (italic currentStyle) false then
             if endsWith formattedPart " "
             then "*" +:+ trim formattedPart +:+ "* "
             else "*" +:+ formattedPart +:+ "*"
           else formattedPart in
         (currentStyle, markdown +:+ formattedPart))
    (split_ansi ansiString)
    ({| italic := None; code := None |}, EmptyString)).

(** *** Source excerpts *)

(** [s.split(/\r?\n/)] *)
Fixpoint split_lines_go (s cur : string) : list string :=
  match s with
  | EmptyString => [cur]
  | String c s' =>
      if Ascii.eqb c (ascii_of_nat 10) then cur :: split_lines_go s' EmptyString
      else if Ascii.eqb c (ascii_of_nat 13) then
        match s' with
        | String c' s'' =>
            if Ascii.eqb c' (ascii_of_nat 10) then cur :: split_lines_go s'' EmptyString
            else split_lines_go s' (cur +:+ String c EmptyString)
        | EmptyString => split_lines_go s' (cur +:+ String c EmptyString)
        end
      else split_lines_go s' (cur +:+ String c EmptyString)
  end.

(** [lines.slice(start, end)] *)
Definition slice {A} (l : list A) (start stop : nat) : list A :=
  firstn (stop - start) (skipn start l).

Definition getCodeSnippet (h : Host) (filePath : string) (lineNumber : Z)
  : Outcome string :=
  if (lineNumber <? 1)%Z then Throws "Line number must be 1 or greater."
  else
    let! fileContent := readFileSync h filePath in
    let lines := split_lines_go fileContent EmptyString in
    let startLine := Z.to_nat (Z.max 0 (lineNumber - 2)) in
    let endLine := Z.to_nat (Z.min (Z.of_nat (length lines)) (lineNumber + 1)) in
    if (length lines <=? startLine)%nat then Throws "Line number is out of range."
    else
      let snippet := slice lines startLine endLine in
      let snippet :=
        match snippet with
        | first :: rest => if String.eqb (trim first) EmptyString then rest else snippet
        | [] => snippet
        end in
      Returns ("```js" +:+ String (ascii_of_nat 10) (join (String (ascii_of_nat 10) EmptyString) snippet)
               +:+ String (ascii_of_nat 10) "```").

(** *** Test-type classification *)

Definition determineTestType (parentTitlePath : string) : TestType :=
  let lower := toLowerCase parentTitlePath in
  if includes lower "beforeall" || includes lower "before all"
     || includes lower "beforeeach" || includes lower "before each"
     || includes lower "setup"
  then BEFORE
  else if includes lower "afterall" || includes lower "after all"
          || includes lower "aftereach" || includes lower "after each"
          || includes lower "teardown"
  then AFTER
  else TEST.

(** *** Reading and converting values *)

(** [String(v)] and the conversion a template literal applies. *)
Definition ToString (h : Host) (v : Value) : Outcome string :=
  match v with
  | VUndefined => Returns "undefined"
  | VNull => Returns "null"
  | VBool true => Returns "true"
  | VBool false => Returns "false"
  | VNum n => Returns (num_toString n)
  | VStr s => Returns s
  | VBigInt z => Returns (pretty z)
  | VArr _ | VObj _ | VFun _ => object_to_string h v
  end.

(** The property read [v.k], for the property names this program reads
    ([files], [data], [lines], [total], [path], [name], ...): none of them is
    a member of the prototype of a primitive or of an array, so only objects
    and functions can hold one; on [null] and [undefined] the read throws. *)
Definition get (h : Host) (v : Value) (k : string) : Outcome Value :=
  match v with
  | VUndefined | VNull => Throws ("Cannot read properties of undefined (reading '" +:+ k +:+ "')")
  | VObj props => Returns (nullish (assoc k props) VUndefined)
  | VFun f => Returns (fun_prop h f k)
  | _ => Returns VUndefined
  end.

(** [v?.k] *)
Definition opt_get (h : Host) (v : Value) (k : string) : Outcome Value :=
  if is_nullish v then Returns VUndefined else get h v k.

(** [f(...args)] with [this] bound to [self], for a value read as [f]. *)
Definition invoke (h : Host) (f self : Value) (args : list Value) : Outcome Value :=
  match f with
  | VFun id => call h id self args
  | _ => Throws "is not a function"
  end.

(** [removeAnsi(v)] for a [v] of any type, as the reporter calls it on the
    [stack] of an error.  The function starts with [v.split(...)]: a number,
    a boolean, a big integer and an array have no [split], nor has an object
    that does not define one, and the call is a [TypeError]. *)
Definition removeAnsi_value (h : Host) (ansiString : Value) : Outcome string :=
  match ansiString with
  | VStr s => Returns (removeAnsi s)
  | VUndefined | VNull => Throws "Cannot read properties of undefined (reading 'split')"
  | VObj _ | VFun _ =>
      let! split := get h ansiString "split" in
      if is_function split then removeAnsi_exotic h ansiString
      else Throws "ansiString.split is not a function"
  | _ => Throws "ansiString.split is not a function"
  end.

(** *** Console logs *)

Record UserConsoleLog := {
  taskId : option string;
  log_type : option string;
  content : Value;
}.

Record FormattedLog := {
  fl_message : string;
  fl_format : LogFormat;
  fl_level : LogLevel;
}.

Definition formatConsoleLog (h : Host) (log : UserConsoleLog) : Outcome FormattedLog :=
  let! text :=
    match content log with
    | VArr items =>
        let! strs := mapM_outcome
          (fun c => match c with
                    | VStr s => Returns (Some s)
                    | _ => JSON_stringify h c None
                    end) items in
        (* [join] renders an [undefined] element as the empty string *)
        Returns (join " " (map (fun o => nullish o EmptyString) strs))
    | c => ToString h c
    end in
  let clean := removeAnsi text in
  let type := nullish (log_type log) "stdout" in
  let level := if String.eqb type "stderr" then ERROR else INFO in
  let hasMarkdown := includes clean "```" || includes clean "*" in
  Returns {| fl_message := if hasMarkdown then clean else text;
             fl_format := if hasMarkdown then MARKDOWN else PLAIN_TEXT;
             fl_level := level |}.

(** *** The coverage table *)

Definition LF : string := String (ascii_of_nat 10) EmptyString.

Definition num_one : Num :=
  {| num_truthy := true; num_toFixed1 := "1.0"; num_toString := "1" |}.

Record TotalsLike := {
  total : Value;
  covered : Value;
  skipped : Value;
  pct : Value;
}.

Definition normalizeTotals (h : Host) (t : Value) : Outcome (option TotalsLike) :=
  if negb (truthy t) then Returns None
  else
    let! total := get h t "total" in
    let! covered := get h t "covered" in
    let! skipped := get h t "skipped" in
    let! pct := get h t "pct" in
    Returns (Some {| total := vnullish total (VNum num_zero);
                     covered := vnullish covered (VNum num_zero);
                     skipped := vnullish skipped (VNum num_zero);
                     pct := vnullish pct (VNum num_zero) |}).

(** [v.toFixed(1)]: the built-in on a number, an own method on an object,
    a [TypeError] on anything else. *)
Definition toFixed_1 (h : Host) (v : Value) : Outcome Value :=
  match v with
  | VNum n => Returns (VStr (num_toFixed1 n))
  | VObj _ | VFun _ =>
      let! f := get h v "toFixed" in
      invoke h f v [VNum num_one]
  | _ => Throws "t.pct.toFixed is not a function"
  end.

Definition formatTotalsCell (h : Host) (t : option TotalsLike) : Outcome string :=
  match t with
  | None => Returns "n/a"
  | Some t =>
      let! fixed := toFixed_1 h (pct t) in
      let! p := ToString h fixed in
      let! c := ToString h (covered t) in
      let! n := ToString h (total t) in
      Returns (p +:+ "% (" +:+ c +:+ "/" +:+ n +:+ ")")
  end.

Definition table_header : list string :=
  ["| File | Lines | Statements | Branches | Functions |";
   "| ---- | ----: | ---------: | -------: | --------: |"].

(** [(s && (s.data ?? (typeof s.toJSON === 'function' ? s.toJSON() : s))) ?? s] *)
Definition summary_data (h : Host) (s : Value) : Outcome Value :=
  let! inner :=
    if truthy s then
      let! d := get h s "data" in
      if is_nullish d then
        let! tj := get h s "toJSON" in
        if is_function tj then invoke h tj s [] else Returns s
      else Returns d
    else Returns s in
  Returns (vnullish inner s).

Record RowTotals := {
  lines : option TotalsLike;
  statements : option TotalsLike;
  branches : option TotalsLike;
  functions : option TotalsLike;
}.

(** The four totals of a row, from a summary object (or [undefined]). *)
Definition row_totals (h : Host) (summary : Value) : Outcome RowTotals :=
  let! l := opt_get h summary "lines" in
  let! lines := normalizeTotals h l in
  let! s := opt_get h summary "statements" in
  let! statements := normalizeTotals h s in
  let! b := opt_get h summary "branches" in
  let! branches := normalizeTotals h b in
  let! f := opt_get h summary "functions" in
  let! functions := normalizeTotals h f in
  Returns {| lines := lines; statements := statements;
             branches := branches; functions := functions |}.

(** [${cell(lines)} | ${cell(statements)} | ${cell(branches)} | ${cell(functions)}] *)
Definition row_cells (h : Host) (t : RowTotals) : Outcome string :=
  let! c1 := formatTotalsCell h (lines t) in
  let! c2 := formatTotalsCell h (statements t) in
  let! c3 := formatTotalsCell h (branches t) in
  let! c4 := formatTotalsCell h (functions t) in
  Returns (c1 +:+ " | " +:+ c2 +:+ " | " +:+ c3 +:+ " | " +:+ c4).

Definition is_undefined (v : Value) : bool :=
  match v with
  | VUndefined => true
  | _ => false
  end.

(** The UTF-16 code units of a string, which is how JavaScript holds and
    compares it: a character of one, two or three bytes is one unit, a
    character of four bytes is a pair of surrogates.  A byte that starts no
    well-formed character is kept as a unit of its own. *)
Fixpoint code_units (s : string) : list N :=
  match s with
  | EmptyString => []
  | String a s1 =>
      let x := N_of_ascii a in
      let malformed := x :: code_units s1 in
      if (x <? 128)%N then x :: code_units s1
      else
        match s1 with
        | EmptyString => malformed
        | String b s2 =>
            let y := (N_of_ascii b mod 64)%N in
            if ((192 <=? x) && (x <? 224))%N then ((x mod 32) * 64 + y)%N :: code_units s2
            else
              match s2 with
              | EmptyString => malformed
              | String c s3 =>
                  let z := (N_of_ascii c mod 64)%N in
                  if ((224 <=? x) && (x <? 240))%N
                  then ((x mod 16) * 4096 + y * 64 + z)%N :: code_units s3
                  else
                    match s3 with
                    | EmptyString => malformed
                    | String d s4 =>
                        let t := (N_of_ascii d mod 64)%N in
                        if (240 <=? x)%N then
                          let point := ((x mod 8) * 262144 + y * 4096 + z * 64 + t)%N in
                          (55296 + (point - 65536) / 1024)%N
                            :: (56320 + (point - 65536) mod 1024)%N :: code_units s4
                        else malformed
                    end
              end
        end
  end.

(** [x <= y] for sequences of code units, the first difference deciding. *)
Fixpoint units_leb (x y : list N) : bool :=
  match x, y with
  | [], _ => true
  | _ :: _, [] => false
  | a :: x', b :: y' =>
      if (a <? b)%N then true else if (b <? a)%N then false else units_leb x' y'
  end.

(** The default comparison of [Array.prototype.sort] on strings. *)
Definition sorts_before_or_equal (x y : string) : bool :=
  units_leb (code_units x) (code_units y).

(** Stable insertion by key, smaller keys first. *)
Fixpoint insert_by_key {A} (x : string * A) (l : list (string * A)) : list (string * A) :=
  match l with
  | [] => [x]
  | y :: l' =>
      if sorts_before_or_equal (fst x) (fst y) then x :: y :: l' else y :: insert_by_key x l'
  end.

(** [files.sort()] followed by the iteration of the result.  On an array the
    default comparison orders the elements by their string conversion and
    puts [undefined] last; it converts an element only when it has another
    one to compare it with. *)
Definition sort_files (h : Host) (files : Value) : Outcome (list Value) :=
  match files with
  | VArr items =>
      let defined := filter (fun v => negb (is_undefined v)) items in
      let rest := filter is_undefined items in
      if (length defined <? 2)%nat then Returns (defined ++ rest)
      else
        let! keys := mapM_outcome (ToString h) defined in
        Returns (map snd (fold_right insert_by_key [] (combine keys defined)) ++ rest)
  | VUndefined | VNull => Throws "Cannot read properties of undefined (reading 'sort')"
  | _ => sort_exotic h files
  end.

Definition file_row (h : Host) (anyCov file : Value) : Outcome string :=
  let! fcf := get h anyCov "fileCoverageFor" in
  let! fc := invoke h fcf anyCov [file] in
  let! ts := opt_get h fc "toSummary" in
  let! s := if is_function ts then invoke h ts fc [] else Returns VUndefined in
  let! data := summary_data h s in
  let! totals := row_totals h data in
  let! relPath :=
    try_catch
      (match file with
       | VStr f =>
           let! rel := path_relative_cwd h f in
           Returns (if truthy_string rel && negb (startsWith rel "..") then VStr rel else file)
       | _ => Throws "The 'to' argument must be of type string"
       end)
      (fun _ => Returns file) in
  let! name := ToString h relPath in
  let! cells := row_cells h totals in
  Returns ("`" +:+ name +:+ "` | " +:+ cells).

Definition all_files_row (h : Host) (summary : Value) : Outcome string :=
  let! totals := row_totals h summary in
  let! cells := row_cells h totals in
  Returns ("**All files** | " +:+ cells).

(** [json.replace(/\|/g, '\\|')]: a backslash before every vertical bar. *)
Fixpoint escape_pipes (s : string) : string :=
  match s with
  | EmptyString => EmptyString
  | String c s' =>
      if Ascii.eqb c "|" then String "\" (String "|" (escape_pipes s'))
      else String c (escape_pipes s')
  end.

(** The body of the first [try] block: [Some table] when it reaches one of
    its two [return]s, [None] when control leaves the block at its end. *)
Definition coverage_rows (h : Host) (coverage : Value) : Outcome (option string) :=
  let anyCov := coverage in
  let rows := table_header in
  let! isMap :=
    if truthy anyCov then
      let! f := get h anyCov "files" in
      if is_function f then
        let! g := get h anyCov "fileCoverageFor" in
        Returns (is_function g)
      else Returns false
    else Returns false in
  if isMap then
    let! gcs := get h anyCov "getCoverageSummary" in
    let! rows :=
      if is_function gcs then
        let! s := invoke h gcs anyCov [] in
        let! summary := summary_data h s in
        let! row := all_files_row h summary in
        Returns (rows ++ [row])
      else Returns rows in
    let! ff := get h anyCov "files" in
    let! files := invoke h ff anyCov [] in
    let! sorted := sort_files h files in
    let! fileRows := mapM_outcome (file_row h anyCov) sorted in
    Returns (Some (join LF (rows ++ fileRows)))
  else
    let! isSummary :=
      if truthy anyCov then
        let! l := get h anyCov "lines" in
        if truthy l then
          let! s := get h anyCov "statements" in
          if truthy s then
            let! b := get h anyCov "branches" in
            if truthy b then
              let! f := get h anyCov "functions" in
              Returns (truthy f)
            else Returns false
          else Returns false
        else Returns false
      else Returns false in
    if isSummary then
      let! row := all_files_row h anyCov in
      Returns (Some (join LF (rows ++ [row])))
    else Returns None.

Definition fallback_header : list string :=
  ["| Metric | Value |"; "| ------ | ----- |"].

Definition fallback_table (json : string) : string :=
  join LF (fallback_header ++ ["| Coverage JSON | ```json"; escape_pipes json; "``` |"]).

Definition placeholder_table : string :=
  join LF (fallback_header ++ ["| Coverage | (unserializable) |"]).

Definition formatCoverageMarkdownTable (h : Host) (coverage : Value) : Outcome string :=
  let! early := try_catch (coverage_rows h coverage) (fun _ => Returns None) in
  match early with
  | Some table => Returns table
  | None =>
      try_catch
        (let! j := JSON_stringify h coverage (Some 2) in
         let json := nullish j "null" in
         Returns (fallback_table json))
        (fun _ => Returns placeholder_table)
  end.

(** ** The remote client and the trace *)

(** [UUID] (from [crypto]) is the template type
    [`${string}-${string}-${string}-${string}-${string}`]: each of its values
    is a non-empty string, hence truthy.  A test [if (uuid)] of the source
    therefore only tells [undefined] apart, which is [None] here. *)
Definition UUID := string.

Record Attribute := { attr_key : option string; attr_value : string }.

(** The fields of [client.config] the reporter reads. *)
Record OrangebeardParameters := {
  testset : string;
  description : option string;
  attributes : list Attribute;
}.

(** One entry per call on the client, with the payload it was given, and
    one per local diagnostic ([console.warn], [console.error]). *)
Inductive Event :=
| StartTestRun (testSetName description : string) (attrs : list Attribute)
| StartSuite (testRunUUID parentSuiteUUID : option UUID) (suiteNames : list string)
| StartTest (testType : TestType) (testRunUUID suiteUUID : option UUID)
    (testName : option string) (description : string)
| FinishTest (testUUID : UUID) (testRunUUID : option UUID) (status : StatusRead)
| Log (logFormat : LogFormat) (logLevel : LogLevel) (message : string)
    (testRunUUID : option UUID) (testUUID : UUID)
| SendAttachment (name : string) (bytes : list Byte.byte) (contentType : Value)
    (testRunUUID : option UUID) (testUUID logUUID : UUID)
| FinishTestRun (testRunUUID : option UUID)
| ConsoleWarn (msg : string)
| ConsoleError (msg : string).

(** The client is an external collaborator.  What a call answers may depend
    on everything that happened so far: each method is a function of the
    trace up to and including the call it answers, and may throw. *)
Record Client := {
  config : OrangebeardParameters;
  startTestRun : list Event -> Outcome UUID;
  startSuite : list Event -> Outcome (option (list UUID));
  startTest : list Event -> Outcome UUID;
  finishTest : list Event -> Outcome unit;
  log : list Event -> Outcome UUID;
  sendAttachment : list Event -> Outcome unit;
  finishTestRun : list Event -> Outcome unit;
}.

(** ** The reporter's state *)

Inductive PromiseState := Pending | Fulfilled | Rejected (reason : Exn).

(** A call of the async [logAttachmentFromPath]: its arguments, and the
    state of the promise it returned.  It is suspended at
    [await getBytes(path)] until the read settles. *)
Record Upload := {
  up_path : string;
  up_contentType : Value;
  up_testUUID : UUID;
  up_logUUID : UUID;
  up_state : PromiseState;
}.

(** The fields of [OrangebeardVitestReporter] ([steps] is never used). *)
Record Reporter := {
  testRunId : option UUID;
  suites : gmap string UUID;
  tests : gmap string UUID;
  promises : list Upload;
  bufferedLogs : gmap string (list UserConsoleLog);
  coverage : Value;
}.

Definition new_reporter : Reporter :=
  {| testRunId := None; suites := ∅; tests := ∅; promises := [];
     bufferedLogs := ∅; coverage := VUndefined |}.

Definition set_testRunId (u : option UUID) (r : Reporter) : Reporter :=
  {| testRunId := u; suites := suites r; tests := tests r; promises := promises r;
     bufferedLogs := bufferedLogs r; coverage := coverage r |}.
Definition set_suites (m : gmap string UUID) (r : Reporter) : Reporter :=
  {| testRunId := testRunId r; suites := m; tests := tests r; promises := promises r;
     bufferedLogs := bufferedLogs r; coverage := coverage r |}.
Definition set_tests (m : gmap string UUID) (r : Reporter) : Reporter :=
  {| testRunId := testRunId r; suites := suites r; tests := m; promises := promises r;
     bufferedLogs := bufferedLogs r; coverage := coverage r |}.
Definition set_promises (p : list Upload) (r : Reporter) : Reporter :=
  {| testRunId := testRunId r; suites := suites r; tests := tests r; promises := p;
     bufferedLogs := bufferedLogs r; coverage := coverage r |}.
Definition set_bufferedLogs (m : gmap string (list UserConsoleLog)) (r : Reporter) : Reporter :=
  {| testRunId := testRunId r; suites := suites r; tests := tests r; promises := promises r;
     bufferedLogs := m; coverage := coverage r |}.
Definition set_coverage (v : Value) (r : Reporter) : Reporter :=
  {| testRunId := testRunId r; suites := suites r; tests := tests r; promises := promises r;
     bufferedLogs := bufferedLogs r; coverage := v |}.

(** The reporter together with everything it has done so far. *)
Record World := { rep : Reporter; trace : list Event }.

Definition new_world : World := {| rep := new_reporter; trace := [] |}.

(** ** The monad of the callbacks: state, trace and exceptions.  A throw
    keeps the mutations made before it. *)
Definition M (A : Type) : Type := World -> Outcome A * World.

Definition ret {A} (a : A) : M A := fun w => (Returns a, w).

Definition bind {A B} (m : M A) (k : A -> M B) : M B :=
  fun w =>
    match m w with
    | (Returns a, w') => k a w'
    | (Throws e, w') => (Throws e, w')
    end.

Notation "'let*' x ':=' m 'in' k" := (bind m (fun x => k))
  (at level 10, x name, m at level 100, k at level 200).

Definition throw {A} (e : Exn) : M A := fun w => (Throws e, w).

(** A pure evaluation inside a callback. *)
Definition lift {A} (o : Outcome A) : M A := fun w => (o, w).

Definition this : M Reporter := fun w => (Returns (rep w), w).

Definition modify (f : Reporter -> Reporter) : M unit :=
  fun w => (Returns tt, {| rep := f (rep w); trace := trace w |}).

Definition emit (e : Event) : M unit :=
  fun w => (Returns tt, {| rep := rep w; trace := trace w ++ [e] |}).

(** A call on the client: it is recorded, then answered. *)
Definition client_call {A} (e : Event) (answer : list Event -> Outcome A) : M A :=
  fun w =>
    let tr := trace w ++ [e] in
    (answer tr, {| rep := rep w; trace := tr |}).

(** [try { m } catch (e) { handler e }] *)
Definition try_catchM {A} (m : M A) (handler : Exn -> M A) : M A :=
  fun w =>
    match m w with
    | (Returns a, w') => (Returns a, w')
    | (Throws e, w') => handler e w'
    end.

(** [try { m } finally { f }] *)
Definition finallyM {A} (m : M A) (f : M unit) : M A :=
  fun w =>
    match m w with
    | (r, w') =>
        match f w' with
        | (Returns _, w'') => (r, w'')
        | (Throws e, w'') => (Throws e, w'')
        end
    end.

(** [for (const x of l) body x] *)
Fixpoint for_each {A} (l : list A) (body : A -> M unit) : M unit :=
  match l with
  | [] => ret tt
  | x :: l' => let* _ := body x in for_each l' body
  end.

(** ** What the runner hands to the callbacks *)

(** A [TestSuite] or [TestModule] as the walk in [buildSuitePath] sees it:
    a name (absent on a module) and a parent. *)
Inductive TestSuite :=
| mkSuite (suite_name : option string) (suite_parent : option TestSuite).

Record TestModule := {
  moduleId : option string;
  projectName : option string;
  module_name : option string;
}.

Record Location := {
  loc_line : option Z;          (* [Some] when [typeof location.line === 'number'] *)
  loc_file : option string;
  loc_fileName : option string;
}.

Record TestResult := {
  res_state : option string;
  (* [Some] when [Array.isArray(result.errors)]; an error is read as [any] *)
  res_errors : option (list Value);
}.

Record TestCase := {
  tc_id : string;
  tc_name : option string;
  tc_module : option TestModule;
  tc_suite : option TestSuite;
  tc_parent : option TestSuite;
  tc_location : option Location;
  tc_result : option TestResult;         (* what [test.result()] returns *)
}.

(** ** The callbacks *)

Section Callbacks.

Variable h : Host.
Variable c : Client.

(** Test run is starting: create the Orangebeard test run. *)
Definition onTestRunStart : M unit :=
  let* r := this in
  match testRunId r with
  | Some _ => ret tt
  | None =>
      let* u := client_call
        (StartTestRun (testset (config c))
                      (nullish (description (config c)) "Vitest test run")
                      (attributes (config c)))
        (startTestRun c) in
      modify (set_testRunId (Some u))
  end.

(** The names pushed by the [while] loop, starting at [current]. *)
Fixpoint suite_names (current : TestSuite) : list string :=
  match current with
  | mkSuite (Some n) p =>
      if truthy_string n then
        n :: match p with
             | Some p' => suite_names p'
             | None => []
             end
      else []
  | mkSuite None _ => []
  end.

Definition buildSuitePath (test : TestCase) : Outcome (list string) :=
  let! segments :=
    match tc_module test with
    | Some module =>
        let! projectName :=
          if truthy_opt (moduleId module) then
            let mid := nullish (moduleId module) EmptyString in
            let! rel := path_relative_cwd h mid in
            Returns (Some (if truthy_string rel && negb (startsWith rel "..") then rel else mid))
          else Returns (nullish_opt (projectName module) (module_name module)) in
        Returns [nullish projectName "root"]
    | None => Returns []
    end in
  let segments :=
    segments ++ match nullish_opt (tc_suite test) (tc_parent test) with
                | Some current => suite_names current
                | None => []
                end in
  Returns (filter (fun s => truthy_string s && (0 <? String.length (trim s))%nat) segments).

(** The loop of [getOrStartSuiteForTest] over the segments still to visit. *)
Fixpoint resolve_segments (path keyParts : list string) (parentSuiteUUID : option UUID)
  : M (option UUID) :=
  match path with
  | [] => ret parentSuiteUUID
  | segment :: rest =>
      let keyParts := keyParts ++ [segment] in
      let key := join "|" keyParts in
      let* r := this in
      match suites r !! key with
      | Some existing => resolve_segments rest keyParts (Some existing)
      | None =>
          let* newSuites := client_call
            (StartSuite (testRunId r) parentSuiteUUID [segment]) (startSuite c) in
          match newSuites with
          | Some (first :: _) =>
              let* _ := modify (fun r => set_suites (<[key := first]> (suites r)) r) in
              resolve_segments rest keyParts (Some first)
          | _ => resolve_segments rest keyParts parentSuiteUUID
          end
      end
  end.

Definition getOrStartSuiteForTest (test : TestCase) : M UUID :=
  let* path := lift (buildSuitePath test) in
  let* parentSuiteUUID := resolve_segments path [] None in
  match parentSuiteUUID with
  | Some u => ret u
  | None => throw "Failed to create or resolve suite for test."
  end.

Definition getTestDescription (test : TestCase) : string :=
  let parts :=
    match tc_location test with
    | Some location =>
        match loc_line location with
        | Some line =>
            match nullish_opt (loc_file location) (loc_fileName location) with
            | Some file =>
                if truthy_string file then [file +:+ ":" +:+ pretty line] else []
            | None => []
            end
        | None => []
        end
    | None => []
    end in
  join LF parts.

Definition forward_log (entry : UserConsoleLog) (testUUID : UUID) : M unit :=
  let* f := lift (formatConsoleLog h entry) in
  let* r := this in
  let* _ := client_call
    (Log (fl_format f) (fl_level f) (fl_message f) (testRunId r) testUUID) (log c) in
  ret tt.

Definition flushBufferedLogs (taskId : string) (testUUID : UUID) : M unit :=
  let* r := this in
  match bufferedLogs r !! taskId with
  | None | Some [] => ret tt
  | Some buffered =>
      let* _ := for_each buffered (fun entry => forward_log entry testUUID) in
      modify (fun r => set_bufferedLogs (delete taskId (bufferedLogs r)) r)
  end.

Definition ensureTestStarted (test : TestCase) : M UUID :=
  let* r := this in
  match tests r !! tc_id test with
  | Some existing => ret existing
  | None =>
      let* suiteUUID := getOrStartSuiteForTest test in
      let fullName := nullish (tc_name test) EmptyString in
      let testType := determineTestType fullName in
      let description := getTestDescription test in
      let* r := this in
      let* testUUID := client_call
        (StartTest testType (testRunId r) (Some suiteUUID) (tc_name test) description)
        (startTest c) in
      let* _ := modify (fun r => set_tests (<[tc_id test := testUUID]> (tests r)) r) in
      let* _ := flushBufferedLogs (tc_id test) testUUID in
      ret testUUID
  end.

(** A test case becomes ready to run. *)
Definition onTestCaseReady (test : TestCase) : M unit :=
  let* _ := ensureTestStarted test in
  ret tt.

(** [result?.state] *)
Definition state_of (result : option TestResult) : option string :=
  match result with
  | Some res => res_state res
  | None => None
  end.

(** [result?.state ? testStatusMap[result.state] : undefined] *)
Definition result_status (result : option TestResult) : option StatusRead :=
  match state_of result with
  | Some st => if truthy_string st then testStatusMap st else None
  | None => None
  end.

(** [String(error.message ?? error.name ?? 'Test failed')] *)
Definition error_text (error : Value) : Outcome string :=
  let! message := get h error "message" in
  let! shown :=
    if is_nullish message then
      let! name := get h error "name" in
      Returns (vnullish name (VStr "Test failed"))
    else Returns message in
  ToString h shown.

(** What one entry of [result.errors] logs. *)
Definition report_error (test : TestCase) (testUUID : UUID) (error : Value) : M unit :=
  let* text := lift (error_text error) in
  let message := ansiToMarkdown (removeAnsi text) in
  let* r := this in
  let* _ := client_call (Log MARKDOWN ERROR message (testRunId r) testUUID) (log c) in
  let* stack := lift (get h error "stack") in
  let* _ :=
    if truthy stack then
      let* clean := lift (removeAnsi_value h stack) in
      let* _ := client_call
        (Log MARKDOWN ERROR ("```text" +:+ LF +:+ clean +:+ LF +:+ "```")
             (testRunId r) testUUID) (log c) in
      ret tt
    else ret tt in
  match tc_location test with
  | Some location =>
      match loc_line location with
      | Some line =>
          try_catchM
            (match nullish_opt (loc_file location) (loc_fileName location) with
             | Some file =>
                 if truthy_string file then
                   let* snippet := lift (getCodeSnippet h file line) in
                   let* _ := client_call
                     (Log MARKDOWN INFO snippet (testRunId r) testUUID) (log c) in
                   ret tt
                 else ret tt
             | None => ret tt
             end)
            (fun _ => ret tt)              (* best-effort: ignore snippet failures *)
      | None => ret tt
      end
  | None => ret tt
  end.

(** Final result for a test case: finish the Orangebeard test and log errors.
    The members of [FinishTest.Status] are non-empty strings, so whatever
    [testStatusMap] yields is truthy and [if (status)] tests for [undefined]. *)
Definition onTestCaseResult (test : TestCase) : M unit :=
  let* testUUID := ensureTestStarted test in
  let result := tc_result test in
  let status := result_status result in
  let* _ :=
    match result with
    | Some res =>
        match res_errors res with
        | Some (e :: es) => for_each (e :: es) (report_error test testUUID)
        | _ => ret tt
        end
    | None => ret tt
    end in
  let* _ :=
    match status with
    | Some status =>
        let* r := this in
        client_call (FinishTest testUUID (testRunId r) status) (finishTest c)
    | None => ret tt
    end in
  modify (fun r => set_tests (delete (tc_id test) (tests r)) r).

(** Console output produced by tests. *)
Definition onUserConsoleLog (entry : UserConsoleLog) : M unit :=
  match taskId entry with
  | Some taskId =>
      if truthy_string taskId then
        let* r := this in
        match tests r !! taskId with
        | None =>
            let existing := nullish (bufferedLogs r !! taskId) [] in
            modify (fun r => set_bufferedLogs
                               (<[taskId := existing ++ [entry]]> (bufferedLogs r)) r)
        | Some testUUID => forward_log entry testUUID
        end
      else
        emit (ConsoleWarn "[OrangebeardVitestReporter] Received console log without taskId; cannot send to Orangebeard.")
  | None =>
      emit (ConsoleWarn "[OrangebeardVitestReporter] Received console log without taskId; cannot send to Orangebeard.")
  end.

(** The call of the async [logAttachmentFromPath]: it runs up to
    [await getBytes(path)] and hands back a pending promise. *)
Definition logAttachmentFromPath (path : string) (contentType : Value)
    (testUUID logUUID : UUID) : Upload :=
  {| up_path := path; up_contentType := contentType; up_testUUID := testUUID;
     up_logUUID := logUUID; up_state := Pending |}.

(** Handle recorded artifacts. *)
Definition onTestCaseArtifactRecord (test : TestCase) (artifact : Value) : M unit :=
  let* r := this in
  match tests r !! tc_id test with
  | None => ret tt
  | Some testUUID =>
      let* p := lift (get h artifact "path") in
      let path := match p with VStr s => Some s | _ => None end in
      let* file := lift (get h artifact "file") in
      let* fname := lift (opt_get h file "name") in
      let name :=
        vnullish fname (match path with Some s => VStr s | None => VStr "artifact" end) in
      let* ct := lift (get h artifact "contentType") in
      let contentType := vnullish ct (VStr "application/octet-stream") in
      let* shown := lift (ToString h name) in
      let* logUUID := client_call
        (Log MARKDOWN INFO ("Attachment: " +:+ shown) (testRunId r) testUUID) (log c) in
      match path with
      | Some path =>
          if truthy_string path then
            modify (fun r => set_promises
              (promises r ++ [logAttachmentFromPath path contentType testUUID logUUID]) r)
          else ret tt
      | None => ret tt
      end
  end.

(** Coverage results for the full run. *)
Definition onCoverage (coverage : Value) : M unit :=
  modify (set_coverage coverage).

Definition getOrStartCoverageSuite : M (option UUID) :=
  let key := "__orangebeard_coverage__" in
  let* r := this in
  match suites r !! key with
  | Some existing => ret (Some existing)
  | None =>
      let* suiteUUIDs := client_call
        (StartSuite (testRunId r) None ["Coverage"]) (startSuite c) in
      match suiteUUIDs with
      | Some (uuid :: _) =>
          let* _ := modify (fun r => set_suites (<[key := uuid]> (suites r)) r) in
          ret (Some uuid)
      | _ => ret None
      end
  end.

Definition reportCoverageSummary : M unit :=
  let* r := this in
  if negb (truthy (coverage r)) then ret tt
  else
    finallyM
      (try_catchM
         (let* suiteUUID := getOrStartCoverageSuite in
          let* r := this in
          let* testUUID := client_call
            (StartTest AFTER (testRunId r) suiteUUID (Some "Coverage report")
                       "Aggregated coverage summary reported by Vitest.")
            (startTest c) in
          let* r := this in
          let* markdownTable := lift (formatCoverageMarkdownTable h (coverage r)) in
          let* _ := client_call
            (Log MARKDOWN INFO markdownTable (testRunId r) testUUID) (log c) in
          client_call (FinishTest testUUID (testRunId r) (Mapped PASSED)) (finishTest c))
         (fun error =>
            emit (ConsoleError "[OrangebeardVitestReporter] Failed to report coverage summary")))
      (modify (set_coverage VUndefined)).

(** The reporter should not print anything to Vitest stdio by default. *)
Definition printsToStdio : bool := false.

(** *** Asynchronous uploads and the end of the run *)

Definition is_separator (a : ascii) : bool := Ascii.eqb a "/" || Ascii.eqb a "\".

(** [path.split(/[\\/]/).pop()]: what follows the last separator. *)
Fixpoint last_segment_go (s cur : string) : string :=
  match s with
  | EmptyString => cur
  | String a s' =>
      if is_separator a then last_segment_go s' EmptyString
      else last_segment_go s' (cur +:+ String a EmptyString)
  end.

Definition last_segment (path : string) : string := last_segment_go path EmptyString.

Definition set_state (st : PromiseState) (u : Upload) : Upload :=
  {| up_path := up_path u; up_contentType := up_contentType u;
     up_testUUID := up_testUUID u; up_logUUID := up_logUUID u; up_state := st |}.

Definition settle (i : nat) (st : PromiseState) : M unit :=
  modify (fun r => set_promises (alter (set_state st) i (promises r)) r).

(** The rest of [logAttachmentFromPath] for the upload at index [i] of
    [promises], run when its [getBytes(path)] settles with [bytes]. *)
Definition resume_upload (i : nat) (bytes : Outcome (list Byte.byte)) : M unit :=
  let* r := this in
  match promises r !! i with
  | Some u =>
      match up_state u with
      | Pending =>
          match bytes with
          | Returns content =>
              try_catchM
                (let* _ := client_call
                   (SendAttachment (last_segment (up_path u)) content (up_contentType u)
                                   (testRunId r) (up_testUUID u) (up_logUUID u))
                   (sendAttachment c) in
                 settle i Fulfilled)
                (fun e => settle i (Rejected e))
          | Throws e => settle i (Rejected e)
          end
      | _ => ret tt
      end
  | None => ret tt
  end.

Definition is_fulfilled (st : PromiseState) : bool :=
  match st with
  | Fulfilled => true
  | _ => false
  end.

Definition rejection (st : PromiseState) : option Exn :=
  match st with
  | Rejected e => Some e
  | _ => None
  end.

(** The state of [Promise.all(ps)]: rejected as soon as one of [ps] is,
    fulfilled once all of them are. *)
Definition promise_all (ps : list PromiseState) : PromiseState :=
  match omap rejection ps with
  | e :: _ => Rejected e
  | [] => if forallb is_fulfilled ps then Fulfilled else Pending
  end.

(** What follows [await Promise.all(this.promises)] when it resumes
    normally. *)
Definition finish_run : M unit :=
  let* _ := reportCoverageSummary in
  let* r := this in
  client_call (FinishTestRun (testRunId r)) (finishTestRun c).

(** How a call of the async [onTestRunEnd] stands. *)
Inductive RunEnd :=
| Resolved
| RejectedWith (e : Exn)
| Suspended.

(** Test run finished.  [onTestRunEnd] awaits [Promise.all(this.promises)];
    while it is suspended the pending reads settle, one after the other, as
    [settlements] lists them (index in [promises], outcome of [getBytes]).
    The call resumes as soon as the awaited promise is settled. *)
Fixpoint onTestRunEnd (settlements : list (nat * Outcome (list Byte.byte))) (w : World)
  : RunEnd * World :=
  match promise_all (map up_state (promises (rep w))) with
  | Fulfilled =>
      match finish_run w with
      | (Returns _, w') => (Resolved, w')
      | (Throws e, w') => (RejectedWith e, w')
      end
  | Rejected e => (RejectedWith e, w)
  | Pending =>
      match settlements with
      | [] => (Suspended, w)
      | (i, bytes) :: rest => onTestRunEnd rest (snd (resume_upload i bytes w))
      end
  end.

End Callbacks.

(** ** Runner events *)

Inductive RunnerEvent :=
| TestRunStart
| TestCaseReady (test : TestCase)
| TestCaseResult (test : TestCase)
| UserConsoleLogged (entry : UserConsoleLog)
| TestCaseArtifactRecord (test : TestCase) (artifact : Value)
| Coverage (coverage : Value).

Definition handle (h : Host) (c : Client) (ev : RunnerEvent) : M unit :=
  match ev with
  | TestRunStart => onTestRunStart c
  | TestCaseReady test => onTestCaseReady h c test
  | TestCaseResult test => onTestCaseResult h c test
  | UserConsoleLogged entry => onUserConsoleLog h c entry
  | TestCaseArtifactRecord test artifact => onTestCaseArtifactRecord h c test artifact
  | Coverage coverage => onCoverage coverage
  end.

(** The world after the runner has delivered [evs], one callback at a time;
    a callback that throws leaves the world as it was at the throw. *)
Definition run_events (h : Host) (c : Client) (evs : list RunnerEvent) (w : World) : World :=
  fold_left (fun w ev => snd (handle h c ev w)) evs w.

(** The events a computation has added to the trace. *)
Definition emitted (w w' : World) : list Event := skipn (length (trace w)) (trace w').

Definition is_StartTestRun (e : Event) : bool :=
  match e with StartTestRun _ _ _ => true | _ => false end.
Definition is_StartSuite (e : Event) : bool :=
  match e with StartSuite _ _ _ => true | _ => false end.
Definition is_StartTest (e : Event) : bool :=
  match e with StartTest _ _ _ _ _ => true | _ => false end.
Definition is_FinishTest (e : Event) : bool :=
  match e with FinishTest _ _ _ => true | _ => false end.
Definition is_FinishTestRun (e : Event) : bool :=
  match e with FinishTestRun _ => true | _ => false end.
Definition is_Log (e : Event) : bool :=
  match e with Log _ _ _ _ _ => true | _ => false end.

(** A call on the remote client, as opposed to a local diagnostic. *)
Definition is_remote (e : Event) : bool :=
  match e with
  | ConsoleWarn _ | ConsoleError _ => false
  | _ => true
  end.

Definition count (p : Event -> bool) (tr : list Event) : nat := length (filter p tr).

(** ** A sample host, client and test, after the mocks of the repository's
    own tests ([tests/unit/OrangebeardVitestReporter.spec.ts]) *)

Definition sample_host : Host :=
  {| call := fun _ _ _ => Throws "not callable";
     fun_prop := fun _ _ => VUndefined;
     object_to_string := fun _ => Returns "[object Object]";
     removeAnsi_exotic := fun _ => Throws "not callable";
     JSON_stringify := fun v _ =>
       match v with
       | VBigInt _ => Throws "Do not know how to serialize a BigInt"
       | VUndefined | VFun _ => Returns None
       | VNull => Returns (Some "null")
       | _ => Returns (Some "{}")
       end;
     sort_exotic := fun _ => Throws "files.sort is not a function";
     path_relative_cwd := fun p =>
       Returns (if String.prefix "/work/" p
                then String.substring 6 (String.length p - 6) p
                else "../" +:+ p);
     readFileSync := fun _ => Throws "ENOENT" |}.

Definition sample_client : Client :=
  {| config := {| testset := "Vitest reporter tests";
                  description := Some "Unit tests for Orangebeard Vitest reporter";
                  attributes := [] |};
     startTestRun := fun _ => Returns "run-uuid";
     startSuite := fun tr => Returns (Some ["suite-uuid-" +:+ pretty (length tr)]);
     startTest := fun tr => Returns ("test-uuid-" +:+ pretty (length tr));
     finishTest := fun _ => Returns tt;
     log := fun tr => Returns ("log-uuid-" +:+ pretty (length tr));
     sendAttachment := fun _ => Returns tt;
     finishTestRun := fun _ => Returns tt |}.

Definition sample_module : TestModule :=
  {| moduleId := Some "/work/tests/sample.test.ts"; projectName := None; module_name := None |}.

Definition sample_suite : TestSuite :=
  mkSuite (Some "sample suite") (Some (mkSuite None None)).

Definition createTestCase (id name state : string) : TestCase :=
  {| tc_id := id; tc_name := Some name; tc_module := Some sample_module;
     tc_suite := Some sample_suite; tc_parent := None;
     tc_location := Some {| loc_line := Some 10%Z;
                            loc_file := Some "/work/tests/sample.test.ts";
                            loc_fileName := None |};
     tc_result := Some {| res_state := Some state; res_errors := Some [] |} |}.

Definition stdout_log (taskId text : string) : UserConsoleLog :=
  {| taskId := Some taskId; log_type := Some "stdout"; content := VArr [VStr text] |}.

(** The payload of the run-creation call. *)
Definition start_call (c : Client) : Event :=
  StartTestRun (testset (config c))
               (nullish (description (config c)) "Vitest test run")
               (attributes (config c)).

(** A test that belongs to no module and to no suite. *)
Definition orphan_test : TestCase :=
  {| tc_id := "t-0"; tc_name := Some "orphan"; tc_module := None;
     tc_suite := None; tc_parent := None; tc_location := None;
     tc_result := Some {| res_state := Some "passed"; res_errors := Some [] |} |}.

(** ** What a computation may emit and what it leaves alone

    [changes P f w w'] : from [w] to [w'] the trace only grew, by events that
    satisfy [P], and the reading [f] of the reporter is what it was. *)
Definition changes {X} (P : Event -> Prop) (f : Reporter -> X) (w w' : World) : Prop :=
  f (rep w') = f (rep w) /\ exists es, trace w' = trace w ++ es /\ Forall P es.

Definition respects {A X} (P : Event -> Prop) (f : Reporter -> X) (m : M A) : Prop :=
  forall w r w', m w = (r, w') -> changes P f w w'.

(** Everything of the reporter but the suite map. *)
Definition but_suites (r : Reporter) :=
  (testRunId r, tests r, promises r, bufferedLogs r, coverage r).

(** Everything of the reporter but the suite map, the active tests and the
    buffered logs. *)
Definition run_and_uploads (r : Reporter) := (testRunId r, promises r, coverage r).


(** The diagnostic for a console log that carries no task identifier. *)
Definition no_taskId_warning : Event :=
  ConsoleWarn
    "[OrangebeardVitestReporter] Received console log without taskId; cannot send to Orangebeard.".

(** The world after [entry] was put at the end of the buffer of [taskId]. *)
Definition buffered_in (taskId : string) (entry : UserConsoleLog) (w : World) : World :=
  {| rep := set_bufferedLogs
              (<[taskId := nullish (bufferedLogs (rep w) !! taskId) [] ++ [entry]]>
                 (bufferedLogs (rep w)))
              (rep w);
     trace := trace w |}.

Definition suite_failure : Exn := "Failed to create or resolve suite for test.".

(** The states [testStatusMap] lists. *)
Definition known_states : list string := ["passed"; "failed"; "skipped"; "pending"].

(** The finish call of a result, if its state yields a status. *)
Definition finish_call (testUUID : UUID) (run : option UUID) (status : option StatusRead)
  : list Event :=
  match status with
  | Some s => [FinishTest testUUID run s]
  | None => []
  end.

Definition unknown_state_test : TestCase := createTestCase "t-9" "odd state" "run".

Definition constructor_state_test : TestCase :=
  createTestCase "t-8" "inherited member" "constructor".

Definition failed_test : TestCase := createTestCase "t-1" "fails" "failed".

(** The world once the run is open and [test] has had its result. *)
Definition after_result (test : TestCase) : World :=
  run_events sample_host sample_client [TestRunStart; TestCaseResult test] new_world.

Definition open_run : World :=
  run_events sample_host sample_client [TestRunStart] new_world.

Definition not_finish (e : Event) : Prop := is_FinishTest e = false.




(** The world once the run is open and the sample test [t-3] is started. *)
Definition attachment_test : TestCase := createTestCase "t-3" "attachment test" "passed".

Definition test_started : World :=
  run_events sample_host sample_client [TestRunStart; TestCaseReady attachment_test] new_world.

(** An artifact with a path, as the unit test of the repository records it. *)
Definition screenshot : Value :=
  VObj [("path", VStr "/work/artifacts/screenshot.png"); ("contentType", VStr "image/png")].


(** A markdown table: a header line, a delimiter line, then the rows. *)
Definition is_table (header : list string) (s : string) : Prop :=
  exists rows, s = join LF (header ++ rows).

(** Every vertical bar of [s] comes right after a backslash;
    [after_backslash] tells whether the character before [s] is one. *)
Fixpoint pipes_escaped (after_backslash : bool) (s : string) : bool :=
  match s with
  | EmptyString => true
  | String c s' =>
      if Ascii.eqb c "|" then after_backslash && pipes_escaped false s'
      else pipes_escaped (Ascii.eqb c "\") s'
  end.

(** *** The coverage report, call by call *)

Definition coverage_key : string := "__orangebeard_coverage__".

Definition coverage_failure : Event :=
  ConsoleError "[OrangebeardVitestReporter] Failed to report coverage summary".

(** The suite-creation call for the "Coverage" suite, if the suite is not
    memoized yet, and the suite identifier the report goes on with. *)
Definition coverage_suite_calls (c : Client) (w : World) : list Event * option UUID :=
  match suites (rep w) !! coverage_key with
  | Some existing => ([], Some existing)
  | None =>
      let creation := StartSuite (testRunId (rep w)) None ["Coverage"] in
      ([creation],
       match startSuite c (trace w ++ [creation]) with
       | Returns (Some (uuid :: _)) => Some uuid
       | _ => None
       end)
  end.

(** The calls of a coverage report that goes through. *)
Definition coverage_calls (c : Client) (w : World) (table : string) (testUUID : UUID)
  : list Event :=
  fst (coverage_suite_calls c w) ++
  [StartTest AFTER (testRunId (rep w)) (snd (coverage_suite_calls c w))
             (Some "Coverage report") "Aggregated coverage summary reported by Vitest.";
   Log MARKDOWN INFO table (testRunId (rep w)) testUUID;
   FinishTest testUUID (testRunId (rep w)) (Mapped PASSED)].

(** The client answers every call of the coverage report. *)
Definition answers_coverage (c : Client) : Prop :=
  (forall tr, exists ids, startSuite c tr = Returns ids)
  /\ (forall tr, exists u, startTest c tr = Returns u)
  /\ (forall tr, exists u, log c tr = Returns u)
  /\ (forall tr, finishTest c tr = Returns tt).

(** A client whose [startTest] always fails. *)
Definition failing_client : Client :=
  {| config := config sample_client;
     startTestRun := startTestRun sample_client;
     startSuite := startSuite sample_client;
     startTest := fun _ => Throws "503 Service Unavailable";
     finishTest := finishTest sample_client;
     log := log sample_client;
     sendAttachment := sendAttachment sample_client;
     finishTestRun := finishTestRun sample_client |}.

(** The aggregate-only summary of spec scenario (b). *)
Definition percent (fixed1 covered total : string) : Value :=
  VObj [("total", VNum {| num_truthy := true; num_toFixed1 := total +:+ ".0";
                          num_toString := total |});
        ("covered", VNum {| num_truthy := true; num_toFixed1 := covered +:+ ".0";
                            num_toString := covered |});
        ("pct", VNum {| num_truthy := true; num_toFixed1 := fixed1;
                        num_toString := fixed1 |})].

Definition summary_only : Value :=
  VObj [("lines", percent "75.0" "15" "20"); ("statements", percent "100.0" "20" "20");
        ("branches", percent "100.0" "0" "0"); ("functions", percent "100.0" "2" "2")].

(** The run is open and a coverage snapshot has arrived. *)
Definition coverage_observed (c : Client) : World :=
  run_events sample_host c [TestRunStart; Coverage summary_only] new_world.

(** *** Two uploads, one of which fails *)

(** An artifact whose file never appears on disk. *)
Definition missing_artifact : Value :=
  VObj [("path", VStr "/work/artifacts/missing.png"); ("contentType", VStr "image/png")].

(** What [getBytes] throws once [waitForFile] has given up. *)
Definition file_timeout : Exn :=
  "Timeout: /work/artifacts/missing.png did not become available within 5000ms".

(** The run is open, the test is started and two artifacts are recorded. *)
Definition two_uploads : World :=
  run_events sample_host sample_client
    [TestRunStart; TestCaseReady attachment_test;
     TestCaseArtifactRecord attachment_test missing_artifact;
     TestCaseArtifactRecord attachment_test screenshot]
    new_world.

Definition not_close (e : Event) : Prop := is_FinishTestRun e = false.

Definition run_and_promises (r : Reporter) := (testRunId r, promises r).

(** *** Suite resolution, prefix by prefix *)

(** The memo keys of the prefixes of a path: those of [keyParts] extended by
    one, two, ... segments of [path]. *)
Fixpoint prefix_keys (keyParts path : list string) : list string :=
  match path with
  | [] => []
  | segment :: rest =>
      join "|" (keyParts ++ [segment]) :: prefix_keys (keyParts ++ [segment]) rest
  end.

(** What memoized resolution is to emit, in the words of the specification:
    one suite creation for each prefix that is not memoized in [before], in
    order, outermost first, each under the identifier that [after] holds for
    the prefix one segment shorter (under [parent] for the first). *)
Fixpoint suite_creations (run : option UUID) (before after : gmap string UUID)
    (path keyParts : list string) (parent : option UUID) : list Event :=
  match path with
  | [] => []
  | segment :: rest =>
      let key := join "|" (keyParts ++ [segment]) in
      match before !! key with
      | None => [StartSuite run parent [segment]]
      | Some _ => []
      end ++ suite_creations run before after rest (keyParts ++ [segment]) (after !! key)
  end.

(** The identifier resolution ends with: that of the last prefix. *)
Definition resolved (after : gmap string UUID) (keyParts path : list string)
    (parent : option UUID) : option UUID :=
  match last (prefix_keys keyParts path) with
  | Some key => after !! key
  | None => parent
  end.

(** The client answers every suite creation with at least one identifier. *)
Definition creates_suites (c : Client) : Prop :=
  forall tr, exists first others, startSuite c tr = Returns (Some (first :: others)).

(** A second test of the sample suite. *)
Definition sibling_test : TestCase := createTestCase "t-2" "console test" "passed".

(** *** Console logs *)

(** The logs held back for a task: [bufferedLogs.get(taskId) ?? []]. *)
Definition buffer_of (taskId : string) (w : World) : list UserConsoleLog :=
  nullish (bufferedLogs (rep w) !! taskId) [].

(** The [client.log] call that forwards a formatted console log. *)
Definition log_call (run : option UUID) (testUUID : UUID) (f : FormattedLog) : Event :=
  Log (fl_format f) (fl_level f) (fl_message f) run testUUID.

(** The call that starts [test] in the suite [suiteUUID]. *)
Definition start_test_call (run : option UUID) (suiteUUID : UUID) (test : TestCase) : Event :=
  StartTest (determineTestType (nullish (tc_name test) EmptyString)) run (Some suiteUUID)
            (tc_name test) (getTestDescription test).

(** The client accepts every log. *)
Definition accepts_logs (c : Client) : Prop :=
  forall tr, exists u, log c tr = Returns u.

Definition console_test : TestCase := createTestCase "t-2" "console test" "passed".

Definition early_logs : list UserConsoleLog :=
  [stdout_log "t-2" "hello before start"; stdout_log "t-2" "second line"].

Definition late_logs : list UserConsoleLog := [stdout_log "t-2" "hello after start"].

(** Two logs arrive, the run opens, then the test is started. *)
Definition logs_then_ready : World :=
  run_events sample_host sample_client
    (map UserConsoleLogged early_logs ++ [TestRunStart]) new_world.

(** ** Further readings of the code *)

(** Every character of [s] satisfies [p]. *)
Fixpoint all_chars (p : ascii -> bool) (s : string) : bool :=
  match s with
  | EmptyString => true
  | String a s' => p a && all_chars p s'
  end.

(** Text without any escape character. *)
Definition plain (s : string) : bool := all_chars (fun a => negb (Ascii.eqb a ESC)) s.

(** A control sequence as the regular expression of [removeAnsi] matches
    it: [ESC \[], parameters, and the final [m] or [G]. *)
Definition sequence (params : string) (final : ascii) : string :=
  CSI +:+ params +:+ String final EmptyString.

Definition red : string := sequence "31" "m".
Definition green : string := sequence "32" "m".
Definition default_colour : string := sequence "39" "m".

(** One step of the loop of [removeAnsi]. *)
Definition keep_text (result part : string) : string :=
  if startsWith part CSI then result else result +:+ part.

(** Coloured text: text without escapes, then spans made of a control
    sequence (parameters, final letter) and the text that follows it. *)
Definition Span : Type := string * ascii * string.

Fixpoint coloured (text : string) (spans : list Span) : string :=
  match spans with
  | [] => text
  | (params, final, t) :: spans' => text +:+ sequence params final +:+ coloured t spans'
  end.

(** The same text with the control sequences left out. *)
Fixpoint stripped (text : string) (spans : list Span) : string :=
  match spans with
  | [] => text
  | (_, _, t) :: spans' => text +:+ stripped t spans'
  end.

Definition well_formed_span (sp : Span) : Prop :=
  all_chars is_param_char (fst (fst sp)) = true
  /\ is_final_char (snd (fst sp)) = true
  /\ plain (snd sp) = true.

(** One step of the loop of [ansiToMarkdown]. *)
Definition markdown_step : Style * string -> string -> Style * string :=
  fun '(currentStyle, markdown) part =>
  if startsWith part CSI then
    (fold_left apply_code (split_char ";" (slice_2_m1 part)) currentStyle, markdown)
  else
    let formattedPart := break_lines part in
    let formattedPart :=
      if nullish (italic currentStyle) false then
        if endsWith formattedPart " "
        then "*" +:+ trim formattedPart +:+ "* "
        else "*" +:+ formattedPart +:+ "*"
      else formattedPart in
    (currentStyle, markdown +:+ formattedPart).

(** What [ansiToMarkdown] makes of text shown in italics. *)
Definition emphasised (text : string) : string :=
  let formattedPart := break_lines text in
  if endsWith formattedPart " "
  then "*" +:+ trim formattedPart +:+ "* "
  else "*" +:+ formattedPart +:+ "*".

(** [fileContent.split(/\r?\n/)] *)
Definition split_lines (fileContent : string) : list string :=
  split_lines_go fileContent EmptyString.

(** The fenced block [getCodeSnippet] returns around the lines [snippet]. *)
Definition fenced (snippet : list string) : string :=
  "```js" +:+ LF +:+ join LF snippet +:+ LF +:+ "```".

(** A host whose file system holds one file. *)
Definition host_with_file (path content : string) : Host :=
  {| call := call sample_host;
     fun_prop := fun_prop sample_host;
     object_to_string := object_to_string sample_host;
     removeAnsi_exotic := removeAnsi_exotic sample_host;
     JSON_stringify := JSON_stringify sample_host;
     sort_exotic := sort_exotic sample_host;
     path_relative_cwd := path_relative_cwd sample_host;
     readFileSync := fun p => if String.eqb p path then Returns content
                              else Throws "ENOENT: no such file or directory" |}.

Definition three_lines : string :=
  "it('fails', () => {" +:+ LF +:+ "  expect(1).toBe(2);" +:+ LF +:+ "});".

(** The keywords of [determineTestType]. *)
Definition before_keywords : list string :=
  ["beforeall"; "before all"; "beforeeach"; "before each"; "setup"].

Definition after_keywords : list string :=
  ["afterall"; "after all"; "aftereach"; "after each"; "teardown"].

(** An event other than the creation of a run. *)
Definition no_new_run (e : Event) : Prop := is_StartTestRun e = false.

(** The sample run once [onTestRunEnd] has made its coverage report. *)
Definition coverage_reported : World :=
  snd (reportCoverageSummary sample_host sample_client (coverage_observed sample_client)).

(** Events of a whole sample run, with a repeated run start in between. *)
Definition sample_events : list RunnerEvent :=
  [UserConsoleLogged (stdout_log "t-1" "early");
   TestCaseReady failed_test;
   TestRunStart;
   TestCaseArtifactRecord failed_test screenshot;
   Coverage summary_only;
   TestCaseResult failed_test;
   TestRunStart].

(** From [w] to [w'] no memoized suite was removed or given another
    identifier. *)
Definition suites_kept (w w' : World) : Prop :=
  forall key u, suites (rep w) !! key = Some u -> suites (rep w') !! key = Some u.

(** Every run of [m] is related by [R]. *)
Definition keeps {A} (R : World -> World -> Prop) (m : M A) : Prop :=
  forall w r w', m w = (r, w') -> R w w'.

(** No character of [s] separates path segments. *)
Definition no_separator (s : string) : bool := all_chars (fun a => negb (is_separator a)) s.

(** The call that uploads [u] once its file was read as [content]. *)
Definition upload_call (run : option UUID) (u : Upload) (name : string)
    (content : list Byte.byte) : Event :=
  SendAttachment name content (up_contentType u) run (up_testUUID u) (up_logUUID u).

(** The client takes every upload, and every run-close call. *)
Definition takes_uploads (c : Client) : Prop := forall tr, sendAttachment c tr = Returns tt.
Definition closes_runs (c : Client) : Prop := forall tr, finishTestRun c tr = Returns tt.

(** Every read in [settlements] succeeds. *)
Definition reads_succeed (settlements : list (nat * Outcome (list Byte.byte))) : Prop :=
  Forall (fun s => exists content, snd s = Returns content) settlements.

(** No upload of [ps] has failed, and the read of each pending one is among
    [settlements]. *)
Definition settled_by (settlements : list (nat * Outcome (list Byte.byte)))
    (ps : list Upload) : Prop :=
  forall i u, ps !! i = Some u ->
    match up_state u with
    | Pending => In i (map fst settlements)
    | Fulfilled => True
    | Rejected _ => False
    end.

(** The run is open, a test is started and one artifact with a path is
    recorded. *)
Definition one_upload : World :=
  run_events sample_host sample_client
    [TestRunStart; TestCaseReady attachment_test;
     TestCaseArtifactRecord attachment_test screenshot]
    new_world.

(** The client takes every test-finish call. *)
Definition finishes_tests (c : Client) : Prop := forall tr, finishTest c tr = Returns tt.

(** [result.errors] when it is an array, else no error. *)
Definition errors_of (test : TestCase) : list Value :=
  match tc_result test with
  | Some res => nullish (res_errors res) []
  | None => []
  end.

(** [v] is a string or is absent. *)
Definition string_or_absent (v : Value) : Prop := v = VUndefined \/ exists s, v = VStr s.

(** An error of the shape vitest declares for the entries of
    [result.errors]: an object whose [message], [name] and [stack], where
    present, are strings. *)
Definition typed_error (error : Value) : Prop :=
  exists props,
    error = VObj props
    /\ string_or_absent (nullish (assoc "message" props) VUndefined)
    /\ string_or_absent (nullish (assoc "name" props) VUndefined)
    /\ string_or_absent (nullish (assoc "stack" props) VUndefined).

(** A value without a [split] method: a boolean, a number, a big integer or
    an array. *)
Definition no_split (v : Value) : bool :=
  match v with
  | VBool _ | VNum _ | VBigInt _ | VArr _ => true
  | _ => false
  end.

(** [m] returns normally, keeps the run identifier, and makes between [lo]
    and [hi] calls, all of them logs. *)
Definition logs_between {A} (lo hi : nat) (m : M A) : Prop :=
  forall w, exists a w' es,
    m w = (Returns a, w')
    /\ testRunId (rep w') = testRunId (rep w)
    /\ tests (rep w') = tests (rep w)
    /\ trace w' = trace w ++ es
    /\ Forall (fun e => is_Log e = true) es
    /\ lo <= length es <= hi.

(** A failed test of the sample suite whose error points at a file that
    cannot be read. *)
Definition failed_with_location : TestCase :=
  {| tc_id := "t-5"; tc_name := Some "fails with a location";
     tc_module := Some sample_module; tc_suite := Some sample_suite; tc_parent := None;
     tc_location := Some {| loc_line := Some 7%Z; loc_file := Some "/work/gone.spec.ts";
                            loc_fileName := None |};
     tc_result := Some {| res_state := Some "failed";
                          res_errors := Some [VObj [("message", VStr "expected 1 to be 2");
                                                    ("name", VStr "AssertionError");
                                                    ("stack", VStr "at /work/gone.spec.ts:7:3")]]
                       |} |}.

(** The suite of a test that is nested in suites called [names], listed
    from the outermost in, below [parent]. *)
Fixpoint nest (names : list string) (parent : option TestSuite) : option TestSuite :=
  match names with
  | [] => parent
  | n :: inner => nest inner (Some (mkSuite (Some n) parent))
  end.

(** The same below a module, which has no name. *)
Definition enclosing (names : list string) : option TestSuite :=
  nest names (Some (mkSuite None None)).

(** A test in [describe("outer", () => describe("inner", ...))] of a file
    whose module is not given. *)
Definition nested_test : TestCase :=
  {| tc_id := "t-6"; tc_name := Some "nested"; tc_module := None;
     tc_suite := enclosing ["outer"; "inner"]; tc_parent := None;
     tc_location := None; tc_result := None |}.

(** A test in a suite called ["users|api"], and one in ["users"] nested in
    ["api"], which [buildSuitePath] lists innermost first. *)
Definition bar_test : TestCase :=
  {| tc_id := "t-7"; tc_name := Some "in one suite"; tc_module := None;
     tc_suite := enclosing ["users|api"]; tc_parent := None;
     tc_location := None; tc_result := None |}.

Definition nested_bar_test : TestCase :=
  {| tc_id := "t-8"; tc_name := Some "in two suites"; tc_module := None;
     tc_suite := enclosing ["api"; "users"]; tc_parent := None;
     tc_location := None; tc_result := None |}.

(** The text of a console log holds a markdown marker. *)
Definition has_markdown (clean : string) : bool := includes clean "```" || includes clean "*".

(** [log.type ?? 'stdout'] mapped to a level. *)
Definition level_of (entry : UserConsoleLog) : LogLevel :=
  if String.eqb (nullish (log_type entry) "stdout") "stderr" then ERROR else INFO.

(** A console log that cannot be serialized: [console.log(1n)]. *)
Definition bigint_log : UserConsoleLog :=
  {| taskId := Some "t-2"; log_type := Some "stdout"; content := VArr [VBigInt 1] |}.

(** The run is open and the log above is buffered for a test that is not
    started. *)
Definition bigint_buffered : World :=
  run_events sample_host sample_client [TestRunStart; UserConsoleLogged bigint_log] new_world.

(** The number [5]. *)
Definition num_five : Num :=
  {| num_truthy := true; num_toFixed1 := "5.0"; num_toString := "5" |}.

(** A failed test of the sample suite whose error carries a number where
    its stack should be. *)
Definition failed_with_odd_stack : TestCase :=
  {| tc_id := "t-9"; tc_name := Some "fails with an odd stack";
     tc_module := Some sample_module; tc_suite := Some sample_suite; tc_parent := None;
     tc_location := None;
     tc_result := Some {| res_state := Some "failed";
                          res_errors := Some [VObj [("message", VStr "boom");
                                                    ("stack", VNum num_five)]] |} |}.

(** A file whose second line is blank. *)
Definition blank_second_line : string :=
  "import { it } from 'vitest';" +:+ LF +:+ "  " +:+ LF +:+ "it('fails', () => {" +:+ LF
  +:+ "  expect(1).toBe(2);" +:+ LF +:+ "});".

(** A test of the sample module in
    [describe("outer", () => describe("inner", ...))]. *)
Definition deep_test : TestCase :=
  {| tc_id := "t-10"; tc_name := Some "deep"; tc_module := Some sample_module;
     tc_suite := enclosing ["outer"; "inner"]; tc_parent := None;
     tc_location := None; tc_result := None |}.
(** * Properties *)

(** ** The monad *)

Lemma bind_returns {A B} (m : M A) (k : A -> M B) w b w' :
  bind m k w = (Returns b, w') ->
  exists a w1, m w = (Returns a, w1) /\ k a w1 = (Returns b, w').
Proof.
  unfold bind. destruct (m w) as [[a|e] w1]; intros E.
  - exists a, w1. split; [reflexivity | exact E].
  - discriminate E.
Qed.

Lemma bind_eq {A B} (m : M A) (k : A -> M B) w a w1 :
  m w = (Returns a, w1) -> bind m k w = k a w1.
Proof. unfold bind. intros ->. reflexivity. Qed.

Lemma bind_modify {B} (f : Reporter -> Reporter) (k : unit -> M B) w :
  bind (modify f) k w = k tt {| rep := f (rep w); trace := trace w |}.
Proof. reflexivity. Qed.

Lemma bind_throws {A B} (m : M A) (k : A -> M B) w e w1 :
  m w = (Throws e, w1) -> bind m k w = (Throws e, w1).
Proof. unfold bind. intros ->. reflexivity. Qed.

Lemma obind_returns {A B} (m : Outcome A) (k : A -> Outcome B) b :
  obind m k = Returns b -> exists a, m = Returns a /\ k a = Returns b.
Proof.
  destruct m as [a|e]; simpl; intros E; [eauto | discriminate E].
Qed.

Lemma world_eta w : {| rep := rep w; trace := trace w |} = w.
Proof. destruct w; reflexivity. Qed.

(** ** Run start *)

Lemma onTestRunStart_open c w u :
  testRunId (rep w) = Some u -> onTestRunStart c w = (Returns tt, w).
Proof.
  intros E. unfold onTestRunStart, bind, this. simpl. rewrite E. reflexivity.
Qed.

Lemma onTestRunStart_first c w u :
  testRunId (rep w) = None ->
  startTestRun c (trace w ++ [start_call c]) = Returns u ->
  onTestRunStart c w =
    (Returns tt, {| rep := set_testRunId (Some u) (rep w);
                    trace := trace w ++ [start_call c] |}).
Proof.
  intros E A. unfold onTestRunStart, bind, this, client_call, modify. simpl.
  rewrite E. fold (start_call c). rewrite A. reflexivity.
Qed.

Lemma run_starts_open h c n w u :
  testRunId (rep w) = Some u -> run_events h c (repeat TestRunStart n) w = w.
Proof.
  intros E. induction n as [|n IH]; simpl; [reflexivity|].
  rewrite (onTestRunStart_open c w u E). exact IH.
Qed.

(** C5.  Run start is idempotent.  While a run is open, [onTestRunStart]
    does nothing at all: the world, and with it the trace, stays as it is.
    Hence, from a reporter with no run yet and a client that answers the
    creation call with [u], any number of run-start events, one or more,
    adds exactly one [StartTestRun] to the trace, and the run identifier
    recorded by the first of them, [u], is the one that stays. *)
Theorem run_start_idempotent (h : Host) (c : Client) (w : World) (u : UUID) (n : nat) :
  testRunId (rep w) = None ->
  startTestRun c (trace w ++ [start_call c]) = Returns u ->
  let w1 := run_events h c [TestRunStart] w in
  let wn := run_events h c (repeat TestRunStart (S n)) w in
  onTestRunStart c w1 = (Returns tt, w1)
  /\ wn = w1
  /\ trace wn = trace w ++ [start_call c]
  /\ count is_StartTestRun (emitted w wn) = 1
  /\ testRunId (rep wn) = Some u.
Proof.
  intros E A. cbn zeta.
  assert (W1 : run_events h c [TestRunStart] w =
               {| rep := set_testRunId (Some u) (rep w);
                  trace := trace w ++ [start_call c] |}).
  { simpl. rewrite (onTestRunStart_first c w u E A). reflexivity. }
  assert (Wn : run_events h c (repeat TestRunStart (S n)) w =
               run_events h c [TestRunStart] w).
  { rewrite W1. change (repeat TestRunStart (S n)) with (TestRunStart :: repeat TestRunStart n).
    simpl. rewrite (onTestRunStart_first c w u E A). simpl.
    apply (run_starts_open h c n _ u). reflexivity. }
  rewrite Wn, W1. split; [|split; [|split; [|split]]].
  - apply (onTestRunStart_open c _ u). reflexivity.
  - reflexivity.
  - reflexivity.
  - unfold emitted. simpl. rewrite drop_app_length. reflexivity.
  - reflexivity.
Qed.

Lemma run_start_idempotent_witness :
  let w3 := run_events sample_host sample_client (repeat TestRunStart 3) new_world in
  trace w3 = [start_call sample_client] /\ testRunId (rep w3) = Some "run-uuid".
Proof.
  pose proof (run_start_idempotent sample_host sample_client new_world "run-uuid" 2
                eq_refl eq_refl) as H.
  cbn zeta in H. destruct H as (_ & _ & T & _ & R). split; [exact T | exact R].
Defined.

(** ** Closure of [respects] under the operations of the monad *)

Section Respects.
Context {X : Type} (P : Event -> Prop) (f : Reporter -> X).

Lemma changes_refl w : changes P f w w.
Proof. split; [reflexivity|]. exists []. rewrite app_nil_r. split; [reflexivity | constructor]. Qed.

Lemma changes_trans w1 w2 w3 :
  changes P f w1 w2 -> changes P f w2 w3 -> changes P f w1 w3.
Proof.
  intros [F1 (es1 & T1 & A1)] [F2 (es2 & T2 & A2)]. split; [congruence|].
  exists (es1 ++ es2). split.
  - rewrite T2, T1, <- app_assoc. reflexivity.
  - apply Forall_app. split; assumption.
Qed.

Lemma respects_ret {A} (a : A) : respects P f (ret a).
Proof. intros w r w' E. injection E as _ <-. apply changes_refl. Qed.

Lemma respects_throw {A} e : respects P f (@throw A e).
Proof. intros w r w' E. injection E as _ <-. apply changes_refl. Qed.

Lemma respects_lift {A} (o : Outcome A) : respects P f (lift o).
Proof. intros w r w' E. injection E as _ <-. apply changes_refl. Qed.

Lemma respects_this : respects P f this.
Proof. intros w r w' E. injection E as _ <-. apply changes_refl. Qed.

Lemma respects_modify g : (forall r, f (g r) = f r) -> respects P f (modify g).
Proof.
  intros G w r w' E. injection E as _ <-. split; [apply G|].
  exists []. simpl. rewrite app_nil_r. split; [reflexivity | constructor].
Qed.

Lemma respects_emit e : P e -> respects P f (emit e).
Proof.
  intros Pe w r w' E. injection E as _ <-. split; [reflexivity|].
  exists [e]. split; [reflexivity | repeat constructor; exact Pe].
Qed.

Lemma respects_client_call {A} e (answer : list Event -> Outcome A) :
  P e -> respects P f (client_call e answer).
Proof.
  intros Pe w r w' E. injection E as _ <-. split; [reflexivity|].
  exists [e]. split; [reflexivity | repeat constructor; exact Pe].
Qed.

Lemma respects_bind {A B} (m : M A) (k : A -> M B) :
  respects P f m -> (forall a, respects P f (k a)) -> respects P f (bind m k).
Proof.
  intros Hm Hk w r w'. unfold bind. destruct (m w) as [[a|e] w1] eqn:E; intros E'.
  - eapply changes_trans; [eapply Hm; exact E | eapply Hk; exact E'].
  - injection E' as _ <-. eapply Hm; exact E.
Qed.

Lemma respects_try_catch {A} (m : M A) handler :
  respects P f m -> (forall e, respects P f (handler e)) -> respects P f (try_catchM m handler).
Proof.
  intros Hm Hh w r w'. unfold try_catchM. destruct (m w) as [[a|e] w1] eqn:E; intros E'.
  - injection E' as _ <-. eapply Hm; exact E.
  - eapply changes_trans; [eapply Hm; exact E | eapply Hh; exact E'].
Qed.

Lemma respects_finally {A} (m : M A) fin :
  respects P f m -> respects P f fin -> respects P f (finallyM m fin).
Proof.
  intros Hm Hf w r w'. unfold finallyM. destruct (m w) as [r1 w1] eqn:E.
  destruct (fin w1) as [[[]|e] w2] eqn:E2; intros E'; injection E' as _ <-;
    (eapply changes_trans; [eapply Hm; exact E | eapply Hf; exact E2]).
Qed.

Lemma respects_for_each {A} (l : list A) body :
  (forall a, respects P f (body a)) -> respects P f (for_each l body).
Proof.
  intros Hb. induction l as [|a l IH]; simpl.
  - apply respects_ret.
  - apply respects_bind; [apply Hb | intros _; exact IH].
Qed.

End Respects.

(** One step of a proof of [respects]: follow the shape of the computation. *)
Ltac respects_step :=
  lazymatch goal with
  | |- respects _ _ (bind _ _) => apply respects_bind; [|intros ?]
  | |- respects _ _ (ret _) => apply respects_ret
  | |- respects _ _ this => apply respects_this
  | |- respects _ _ (lift _) => apply respects_lift
  | |- respects _ _ (throw _) => apply respects_throw
  | |- respects _ _ (modify _) => apply respects_modify; intros ?; reflexivity
  | |- respects _ _ (emit _) => apply respects_emit; hnf; reflexivity
  | |- respects _ _ (client_call _ _) => apply respects_client_call; hnf; reflexivity
  | |- respects _ _ (try_catchM _ _) => apply respects_try_catch; [|intros ?]
  | |- respects _ _ (finallyM _ _) => apply respects_finally
  | |- respects _ _ (for_each _ _) => apply respects_for_each; intros ?
  | |- respects _ _ (match ?x with _ => _ end) => destruct x
  end.

Ltac respects_auto := repeat respects_step.

Lemma resolve_segments_respects c path keyParts parent :
  respects (fun e => is_StartSuite e = true) but_suites
           (resolve_segments c path keyParts parent).
Proof.
  revert keyParts parent. induction path as [|segment rest IH]; intros keyParts parent; simpl.
  - apply respects_ret.
  - respects_auto; apply IH.
Qed.

Lemma getOrStartSuiteForTest_respects h c test :
  respects (fun e => is_StartSuite e = true) but_suites (getOrStartSuiteForTest h c test).
Proof.
  unfold getOrStartSuiteForTest. respects_auto. apply resolve_segments_respects.
Qed.

(** ** Hierarchy resolution on an empty path *)

Lemma getOrStartSuiteForTest_empty h c w test :
  buildSuitePath h test = Returns [] ->
  getOrStartSuiteForTest h c test w = (Throws suite_failure, w).
Proof.
  intros E. unfold getOrStartSuiteForTest, bind, lift. rewrite E. reflexivity.
Qed.

Lemma ensureTestStarted_empty h c w test :
  buildSuitePath h test = Returns [] ->
  tests (rep w) !! tc_id test = None ->
  ensureTestStarted h c test w = (Throws suite_failure, w).
Proof.
  intros E T. unfold ensureTestStarted.
  rewrite (bind_eq this _ w (rep w) w eq_refl). rewrite T.
  apply bind_throws. apply getOrStartSuiteForTest_empty. exact E.
Qed.

(** C9.  When the suite path of a test has no segment, hierarchy resolution
    throws, and the error reaches the caller of the callback that set it
    off: for a test that is not yet known, [onTestCaseReady] and
    [onTestCaseResult] both end in that error.  The world is then exactly
    what it was, so no suite and no test was created remotely. *)
Theorem empty_suite_path_raises (h : Host) (c : Client) (w : World) (test : TestCase) :
  buildSuitePath h test = Returns [] ->
  tests (rep w) !! tc_id test = None ->
  getOrStartSuiteForTest h c test w = (Throws suite_failure, w)
  /\ onTestCaseReady h c test w = (Throws suite_failure, w)
  /\ onTestCaseResult h c test w = (Throws suite_failure, w).
Proof.
  intros E T. split; [|split].
  - apply getOrStartSuiteForTest_empty. exact E.
  - unfold onTestCaseReady. apply bind_throws. apply ensureTestStarted_empty; assumption.
  - unfold onTestCaseResult. apply bind_throws. apply ensureTestStarted_empty; assumption.
Qed.

Lemma empty_suite_path_raises_witness :
  onTestCaseReady sample_host sample_client orphan_test new_world
    = (Throws suite_failure, new_world)
  /\ onTestCaseResult sample_host sample_client orphan_test new_world
    = (Throws suite_failure, new_world).
Proof.
  pose proof (empty_suite_path_raises sample_host sample_client new_world orphan_test
                eq_refl eq_refl) as (_ & R & F).
  split; [exact R | exact F].
Defined.

(** ** After the result of a test *)

Lemma onTestCaseResult_forgets h c test w w' :
  onTestCaseResult h c test w = (Returns tt, w') ->
  tests (rep w') !! tc_id test = None.
Proof.
  unfold onTestCaseResult. intros E.
  apply bind_returns in E as (testUUID & w1 & _ & E).
  apply bind_returns in E as ([] & w2 & _ & E).
  apply bind_returns in E as ([] & w3 & _ & E).
  injection E as <-. simpl. apply lookup_delete_eq.
Qed.

Lemma onTestCaseArtifactRecord_unknown h c test artifact w :
  tests (rep w) !! tc_id test = None ->
  onTestCaseArtifactRecord h c test artifact w = (Returns tt, w).
Proof.
  intros T. unfold onTestCaseArtifactRecord.
  rewrite (bind_eq this _ w (rep w) w eq_refl). rewrite T. reflexivity.
Qed.

Lemma onUserConsoleLog_unknown h c entry id w :
  taskId entry = Some id ->
  tests (rep w) !! id = None ->
  onUserConsoleLog h c entry w =
    (Returns tt,
     if truthy_string id then buffered_in id entry w
     else {| rep := rep w; trace := trace w ++ [no_taskId_warning] |}).
Proof.
  intros I T. unfold onUserConsoleLog. rewrite I.
  destruct (truthy_string id); [|reflexivity].
  rewrite (bind_eq this _ w (rep w) w eq_refl). rewrite T. reflexivity.
Qed.

(** C10.  When [onTestCaseResult] returns normally, the identifier of the
    test is no longer in the map of active tests, whatever the state of the
    result was and whether or not a finish call was made.  An artifact
    recorded for the test afterwards is ignored: the world does not change.
    A console log that arrives for the identifier afterwards is not
    forwarded: it is put at the end of the buffer of that identifier, with
    no event at all, or, when the identifier is the empty string, dropped
    with the local warning. *)
Theorem result_removes_test (h : Host) (c : Client) (w w' : World) (test : TestCase)
    (artifact : Value) (entry : UserConsoleLog) :
  onTestCaseResult h c test w = (Returns tt, w') ->
  taskId entry = Some (tc_id test) ->
  tests (rep w') !! tc_id test = None
  /\ onTestCaseArtifactRecord h c test artifact w' = (Returns tt, w')
  /\ onUserConsoleLog h c entry w' =
       (Returns tt,
        if truthy_string (tc_id test) then buffered_in (tc_id test) entry w'
        else {| rep := rep w'; trace := trace w' ++ [no_taskId_warning] |})
  /\ filter is_remote (emitted w' (snd (onUserConsoleLog h c entry w'))) = [].
Proof.
  intros E I. pose proof (onTestCaseResult_forgets h c test w w' E) as T.
  split; [exact T|]. split; [apply onTestCaseArtifactRecord_unknown; exact T|].
  rewrite (onUserConsoleLog_unknown h c entry (tc_id test) w' I T).
  split; [reflexivity|].
  unfold emitted. destruct (truthy_string (tc_id test)); simpl.
  - rewrite drop_all. reflexivity.
  - rewrite drop_app_length. reflexivity.
Qed.

Lemma result_removes_test_witness :
  tests (rep (after_result unknown_state_test)) !! "t-9" = None
  /\ onTestCaseArtifactRecord sample_host sample_client unknown_state_test VNull
       (after_result unknown_state_test)
     = (Returns tt, after_result unknown_state_test)
  /\ bufferedLogs
       (rep (snd (onUserConsoleLog sample_host sample_client (stdout_log "t-9" "late")
                    (after_result unknown_state_test)))) !! "t-9"
     = Some [stdout_log "t-9" "late"].
Proof.
  assert (E : onTestCaseResult sample_host sample_client unknown_state_test open_run
              = (Returns tt, after_result unknown_state_test)) by (vm_compute; reflexivity).
  pose proof (result_removes_test sample_host sample_client open_run
                (after_result unknown_state_test) unknown_state_test VNull
                (stdout_log "t-9" "late") E eq_refl) as (T & A & L & _).
  split; [exact T|]. split; [exact A|]. rewrite L. vm_compute. reflexivity.
Defined.

(** ** Status mapping *)

Lemma respects_weaken {A X Y} (P Q : Event -> Prop) (f : Reporter -> X) (g : Reporter -> Y)
    (m : M A) :
  (forall e, P e -> Q e) ->
  (forall r r', f r' = f r -> g r' = g r) ->
  respects P f m -> respects Q g m.
Proof.
  intros PQ FG Hm w r w' E. destruct (Hm w r w' E) as [F (es & T & All)].
  split; [apply FG; exact F|]. exists es. split; [exact T|].
  eapply Forall_impl; [exact All | exact PQ].
Qed.

Lemma forward_log_respects {X} h c entry testUUID (f : Reporter -> X) :
  respects (fun e => is_Log e = true) f (forward_log h c entry testUUID).
Proof. unfold forward_log. respects_auto. Qed.

Lemma ensureTestStarted_no_finish h c test :
  respects not_finish testRunId (ensureTestStarted h c test).
Proof.
  unfold ensureTestStarted, flushBufferedLogs. respects_auto.
  - eapply respects_weaken; [| |apply getOrStartSuiteForTest_respects].
    + intros [] E; try discriminate E; reflexivity.
    + unfold but_suites. intros r r' E. congruence.
  - eapply respects_weaken; [| |apply (forward_log_respects h c _ _ testRunId)].
    + intros [] E; try discriminate E; reflexivity.
    + auto.
Qed.

Lemma report_error_no_finish h c test testUUID error :
  respects not_finish testRunId (report_error h c test testUUID error).
Proof. unfold report_error. respects_auto. Qed.

Lemma count_none p (es : list Event) :
  Forall (fun e => p e = false) es -> count p es = 0.
Proof.
  unfold count. induction 1 as [|e es E _ IH]; simpl; [reflexivity|].
  rewrite (filter_cons_False _ _ _); [exact IH|]. rewrite E. auto.
Qed.

Lemma emitted_app w w' es : trace w' = trace w ++ es -> emitted w w' = es.
Proof. unfold emitted. intros ->. apply drop_app_length. Qed.

(** What [onTestCaseResult] adds to the trace when it returns normally:
    events that are no finish call, then the finish call for the status of
    the result, when there is one. *)
Lemma onTestCaseResult_trace h c test w w' :
  onTestCaseResult h c test w = (Returns tt, w') ->
  exists testUUID pre,
    fst (ensureTestStarted h c test w) = Returns testUUID
    /\ count is_FinishTest pre = 0
    /\ emitted w w' =
         pre ++ finish_call testUUID (testRunId (rep w)) (result_status (tc_result test)).
Proof.
  unfold onTestCaseResult. intros E.
  apply bind_returns in E as (testUUID & w1 & E1 & E).
  apply bind_returns in E as ([] & w2 & E2 & E).
  apply bind_returns in E as ([] & w3 & E3 & E).
  injection E as <-.
  destruct (ensureTestStarted_no_finish h c test _ _ _ E1) as [R1 (es1 & T1 & A1)].
  assert (C2 : changes not_finish testRunId w1 w2).
  { destruct (tc_result test) as [res|]; [|injection E2 as <-; apply changes_refl].
    destruct (res_errors res) as [[|e es]|]; try (injection E2 as <-; apply changes_refl).
    revert E2. apply respects_for_each. intros a. apply report_error_no_finish. }
  destruct C2 as [R2 (es2 & T2 & A2)].
  exists testUUID, (es1 ++ es2). split; [rewrite E1; reflexivity|]. split.
  - apply count_none. apply Forall_app. split; assumption.
  - apply emitted_app.
    destruct (result_status (tc_result test)) as [status|]; simpl.
    + rewrite (bind_eq this _ w2 (rep w2) w2 eq_refl) in E3.
      injection E3 as _ <-. simpl. rewrite T2, T1, R2, R1, <- !app_assoc. reflexivity.
    + injection E3 as <-. rewrite T2, T1, app_nil_r, <- app_assoc. reflexivity.
Qed.

Lemma result_status_known result s status :
  state_of result = Some s ->
  In (s, status) testStatusMap_own ->
  result_status result = Some (Mapped status).
Proof.
  intros S I. unfold result_status. rewrite S.
  simpl in I. destruct I as [I|[I|[I|[I|[]]]]]; injection I as <- <-; reflexivity.
Qed.

Lemma result_status_absent result :
  state_of result = None -> result_status result = None.
Proof. intros S. unfold result_status. rewrite S. reflexivity. Qed.

Lemma assoc_not_in {A} k (l : list (string * A)) :
  ~ In k (map fst l) -> assoc k l = None.
Proof.
  induction l as [|[k' v] l IH]; simpl; intros N; [reflexivity|].
  destruct (String.eqb_spec k k') as [->|_].
  - exfalso. apply N. left. reflexivity.
  - apply IH. intros I. apply N. right. exact I.
Qed.

Lemma result_status_other result s :
  state_of result = Some s ->
  ~ In s known_states ->
  ~ In s Object_prototype_members ->
  result_status result = None.
Proof.
  intros S K O. unfold result_status. rewrite S.
  destruct (truthy_string s); [|reflexivity].
  unfold testStatusMap. rewrite (assoc_not_in s testStatusMap_own K).
  destruct (existsb (String.eqb s) Object_prototype_members) eqn:E; [|reflexivity].
  apply existsb_exists in E as (m & I & Q). apply String.eqb_eq in Q. subst m.
  contradiction.
Qed.

(** X26.  The read [testStatusMap[state]] maps passed, failed,
    skipped and pending to PASSED, FAILED, SKIPPED and SKIPPED.  When
    [onTestCaseResult] returns normally for a result in one of these four
    states, the events it added to the trace end with the one finish call of
    the event, for the remote test and with the mapped status.  When the
    result has no state, or a state that is neither one of the four nor the
    name of a member that an object literal inherits from [Object.prototype],
    it added no finish call. *)
Theorem status_mapping (h : Host) (c : Client) (w w' : World) (test : TestCase) :
  onTestCaseResult h c test w = (Returns tt, w') ->
  map testStatusMap known_states
    = [Some (Mapped PASSED); Some (Mapped FAILED); Some (Mapped SKIPPED); Some (Mapped SKIPPED)]
  /\ (forall s status,
        state_of (tc_result test) = Some s ->
        In (s, status) testStatusMap_own ->
        exists testUUID pre,
          fst (ensureTestStarted h c test w) = Returns testUUID
          /\ count is_FinishTest pre = 0
          /\ emitted w w' = pre ++ [FinishTest testUUID (testRunId (rep w)) (Mapped status)])
  /\ ((state_of (tc_result test) = None
       \/ exists s, state_of (tc_result test) = Some s
                    /\ ~ In s known_states /\ ~ In s Object_prototype_members) ->
      count is_FinishTest (emitted w w') = 0).
Proof.
  intros E. destruct (onTestCaseResult_trace h c test w w' E) as (testUUID & pre & U & C & T).
  split; [reflexivity|]. split.
  - intros s status S I. exists testUUID, pre.
    rewrite (result_status_known _ s status S I) in T. auto.
  - intros N.
    assert (R : result_status (tc_result test) = None).
    { destruct N as [N|(s & S & K & O)].
      - apply result_status_absent. exact N.
      - apply (result_status_other _ s); assumption. }
    rewrite T, R. simpl. rewrite app_nil_r. exact C.
Qed.

Lemma status_mapping_witness :
  exists testUUID pre,
    count is_FinishTest pre = 0
    /\ emitted open_run (after_result failed_test)
       = pre ++ [FinishTest testUUID (Some "run-uuid") (Mapped FAILED)].
Proof.
  assert (E : onTestCaseResult sample_host sample_client failed_test open_run
              = (Returns tt, after_result failed_test)) by (vm_compute; reflexivity).
  destruct (status_mapping sample_host sample_client open_run (after_result failed_test)
              failed_test E) as (_ & F & _).
  destruct (F "failed" FAILED eq_refl) as (testUUID & pre & _ & C & T).
  { simpl. auto. }
  exists testUUID, pre. split; [exact C | exact T].
Defined.

(** C2, at an input where the code departs from it.  The state
    "constructor" is none of the four, so the claim has the test left
    unfinished.  But [testStatusMap] is an object literal: the read
    [testStatusMap["constructor"]] finds the member inherited from
    [Object.prototype], which is truthy, so the finish call is made, with a
    function where the status should be. *)
Theorem inherited_state_is_finished :
  state_of (tc_result constructor_state_test) = Some "constructor"
  /\ ~ In "constructor" known_states
  /\ fst (onTestCaseResult sample_host sample_client constructor_state_test open_run)
     = Returns tt
  /\ emitted open_run (after_result constructor_state_test)
     = [StartSuite (Some "run-uuid") None ["tests/sample.test.ts"];
        StartSuite (Some "run-uuid") (Some "suite-uuid-2") ["sample suite"];
        StartTest TEST (Some "run-uuid") (Some "suite-uuid-3") (Some "inherited member")
                  "/work/tests/sample.test.ts:10";
        FinishTest "test-uuid-4" (Some "run-uuid") (Inherited "constructor")]
  /\ count is_FinishTest (emitted open_run (after_result constructor_state_test)) = 1.
Proof.
  split; [reflexivity|]. split.
  - simpl. intros [E|[E|[E|[E|[]]]]]; discriminate E.
  - split; [vm_compute; reflexivity|]. split; vm_compute; reflexivity.
Qed.

(** ** Artifacts *)

Lemma lift_returns {A} (o : Outcome A) w a w1 :
  lift o w = (Returns a, w1) -> o = Returns a /\ w1 = w.
Proof. unfold lift. intros E. injection E as -> <-. auto. Qed.





(** ** The coverage table *)

Lemma escape_pipes_escaped s b : pipes_escaped b (escape_pipes s) = true.
Proof.
  revert b. induction s as [|c s IH]; intros b; simpl; [reflexivity|].
  destruct (Ascii.eqb c "|") eqn:E; simpl.
  - apply IH.
  - rewrite E. apply IH.
Qed.

(** A table that the first [try] block returns starts with the five-column
    header. *)
Lemma coverage_rows_table h coverage table :
  coverage_rows h coverage = Returns (Some table) -> is_table table_header table.
Proof.
  unfold coverage_rows. intros E.
  apply obind_returns in E as (isMap & _ & E). destruct isMap.
  - apply obind_returns in E as (gcs & _ & E).
    apply obind_returns in E as (rows & R & E).
    apply obind_returns in E as (ff & _ & E).
    apply obind_returns in E as (files & _ & E).
    apply obind_returns in E as (sorted & _ & E).
    apply obind_returns in E as (fileRows & _ & E).
    injection E as <-.
    destruct (is_function gcs).
    + apply obind_returns in R as (s & _ & R).
      apply obind_returns in R as (summary & _ & R).
      apply obind_returns in R as (row & _ & R).
      injection R as <-. exists ([row] ++ fileRows). reflexivity.
    + injection R as <-. exists fileRows. reflexivity.
  - apply obind_returns in E as (isSummary & _ & E). destruct isSummary; [|discriminate E].
    apply obind_returns in E as (row & _ & E). injection E as <-.
    exists [row]. reflexivity.
Qed.

(** C7.  The formatter is total: on every value, with whatever the host's
    functions do, it returns a string and does not throw.  The string is a
    table: either the five-column table of the first [try] block; or, when
    that block returned nothing or threw, the two-column table around the
    serialization of the input (["null"] when there is none), in which every
    vertical bar of the serialization is escaped by a backslash; or, when
    the serialization throws, the placeholder table. *)
Theorem formatCoverageMarkdownTable_total (h : Host) (coverage : Value) :
  exists table,
    formatCoverageMarkdownTable h coverage = Returns table
    /\ (is_table table_header table \/ is_table fallback_header table)
    /\ ((coverage_rows h coverage = Returns (Some table)
         /\ is_table table_header table)
        \/ (coverage_rows h coverage <> Returns (Some table)
            /\ exists json,
                 JSON_stringify h coverage (Some 2) = Returns json
                 /\ table = fallback_table (nullish json "null")
                 /\ pipes_escaped false (escape_pipes (nullish json "null")) = true)
        \/ (coverage_rows h coverage <> Returns (Some table)
            /\ exists e,
                 JSON_stringify h coverage (Some 2) = Throws e
                 /\ table = placeholder_table)).
Proof.
  unfold formatCoverageMarkdownTable.
  destruct (coverage_rows h coverage) as [[table|]|e] eqn:R; simpl.
  - exists table. pose proof (coverage_rows_table h coverage table R) as T.
    split; [reflexivity|]. split; [left; exact T|]. left. split; [reflexivity | exact T].
  - destruct (JSON_stringify h coverage (Some 2)) as [json|e] eqn:J; simpl.
    + exists (fallback_table (nullish json "null")). split; [reflexivity|]. split.
      * right. eexists. reflexivity.
      * right. left. split; [discriminate|]. exists json.
        split; [reflexivity|]. split; [reflexivity | apply escape_pipes_escaped].
    + exists placeholder_table. split; [reflexivity|]. split.
      * right. eexists. reflexivity.
      * right. right. split; [discriminate|]. exists e. auto.
  - destruct (JSON_stringify h coverage (Some 2)) as [json|e'] eqn:J; simpl.
    + exists (fallback_table (nullish json "null")). split; [reflexivity|]. split.
      * right. eexists. reflexivity.
      * right. left. split; [discriminate|]. exists json.
        split; [reflexivity|]. split; [reflexivity | apply escape_pipes_escaped].
    + exists placeholder_table. split; [reflexivity|]. split.
      * right. eexists. reflexivity.
      * right. right. split; [discriminate|]. exists e'. auto.
Qed.

Lemma formatCoverageMarkdownTable_returns h coverage :
  exists table, formatCoverageMarkdownTable h coverage = Returns table.
Proof.
  unfold formatCoverageMarkdownTable.
  destruct (coverage_rows h coverage) as [[table|]|e]; simpl; eauto;
    destruct (JSON_stringify h coverage (Some 2)); simpl; eauto.
Qed.

(** ** The coverage report at the end of the run *)

Ltac case_on_answers :=
  repeat match goal with
         | |- context [match startSuite ?c ?tr with _ => _ end] =>
             destruct (startSuite c tr) as [[[|? ?]|]|?] eqn:?; simpl
         | |- context [match startTest ?c ?tr with _ => _ end] =>
             destruct (startTest c tr) as [?|?] eqn:?; simpl
         | |- context [match log ?c ?tr with _ => _ end] =>
             destruct (log c tr) as [?|?] eqn:?; simpl
         | |- context [match finishTest ?c ?tr with _ => _ end] =>
             destruct (finishTest c tr) as [[]|?] eqn:?; simpl
         end.

(** [reportCoverageSummary] with a snapshot: it never throws, it clears the
    snapshot, and it emits either the whole report or the calls made before
    the failure followed by the diagnostic. *)
Lemma reportCoverageSummary_present h c w table :
  truthy (coverage (rep w)) = true ->
  formatCoverageMarkdownTable h (coverage (rep w)) = Returns table ->
  exists es suites',
    reportCoverageSummary h c w =
      (Returns tt,
       {| rep := set_coverage VUndefined (set_suites suites' (rep w));
          trace := trace w ++ es |})
    /\ ((exists testUUID, es = coverage_calls c w table testUUID)
        \/ (exists calls, es = calls ++ [coverage_failure]
                          /\ Forall (fun e => is_remote e = true) calls
                          /\ ~ answers_coverage c)).
Proof.
  intros Tr F. unfold reportCoverageSummary.
  rewrite (bind_eq this _ w (rep w) w eq_refl). rewrite Tr. simpl.
  destruct w as [[run sts tsts proms bufs cov] tr]. simpl in *.
  unfold getOrStartCoverageSuite, coverage_calls, coverage_suite_calls.
  unfold finallyM, try_catchM, bind, client_call, this, modify, lift, emit, ret. simpl.
  fold coverage_key.
  destruct (sts !! coverage_key) as [existing|] eqn:S; simpl;
    case_on_answers; rewrite ?F; simpl; case_on_answers;
    eexists; eexists;
    (split; [unfold set_coverage, set_suites; simpl; rewrite <- ?app_assoc; simpl;
             reflexivity|]).
  all: try (left; eexists; reflexivity).
  all: right;
    match goal with
    | |- exists calls, ?es = calls ++ [coverage_failure] /\ _ => exists (removelast es)
    end;
    (split; [reflexivity|]); (split; [repeat constructor|]);
    intros (A1 & A2 & A3 & A4);
    repeat match goal with
           | H : startSuite _ ?tr = Throws _ |- _ =>
               destruct (A1 tr) as [? A]; rewrite A in H; discriminate H
           | H : startTest _ ?tr = Throws _ |- _ =>
               destruct (A2 tr) as [? A]; rewrite A in H; discriminate H
           | H : log _ ?tr = Throws _ |- _ =>
               destruct (A3 tr) as [? A]; rewrite A in H; discriminate H
           | H : finishTest _ ?tr = Throws _ |- _ =>
               rewrite (A4 tr) in H; discriminate H
           end.
Qed.




(** The report that goes through, on the sample client. *)
Example coverage_report_success :
  emitted (coverage_observed sample_client)
          (snd (onTestRunEnd sample_host sample_client [] (coverage_observed sample_client)))
  = [StartSuite (Some "run-uuid") None ["Coverage"];
     StartTest AFTER (Some "run-uuid") (Some "suite-uuid-2") (Some "Coverage report")
               "Aggregated coverage summary reported by Vitest.";
     Log MARKDOWN INFO
         (join LF (table_header ++
            ["**All files** | 75.0% (15/20) | 100.0% (20/20) | 100.0% (0/0) | 100.0% (2/2)"]))
         (Some "run-uuid") "test-uuid-3";
     FinishTest "test-uuid-3" (Some "run-uuid") (Mapped PASSED);
     FinishTestRun (Some "run-uuid")].
Proof. vm_compute. reflexivity. Qed.

(** A client that fails to start the test: the diagnostic, then the close. *)
Example coverage_report_failure :
  emitted (coverage_observed failing_client)
          (snd (onTestRunEnd sample_host failing_client [] (coverage_observed failing_client)))
  = [StartSuite (Some "run-uuid") None ["Coverage"];
     StartTest AFTER (Some "run-uuid") (Some "suite-uuid-2") (Some "Coverage report")
               "Aggregated coverage summary reported by Vitest.";
     coverage_failure;
     FinishTestRun (Some "run-uuid")].
Proof. vm_compute. reflexivity. Qed.

(** ** The end of the run and the pending uploads *)

Lemma reportCoverageSummary_keeps_uploads h c :
  respects not_close run_and_promises (reportCoverageSummary h c).
Proof. unfold reportCoverageSummary, getOrStartCoverageSuite. respects_auto. Qed.

Lemma resume_upload_keeps_run c i bytes :
  respects not_close testRunId (resume_upload c i bytes).
Proof. unfold resume_upload, settle. respects_auto. Qed.

Lemma promise_all_fulfilled ps :
  promise_all ps = Fulfilled -> Forall (fun st => st = Fulfilled) ps.
Proof.
  unfold promise_all. destruct (omap rejection ps) eqn:R; [|discriminate].
  destruct (forallb is_fulfilled ps) eqn:F; [|discriminate]. intros _.
  apply Forall_forall. intros st I.
  rewrite forallb_forall in F. apply list_elem_of_In in I. specialize (F st I).
  destruct st; try discriminate F; reflexivity.
Qed.

Lemma finish_run_resolved h c w w' :
  promise_all (map up_state (promises (rep w))) = Fulfilled ->
  finish_run h c w = (Returns tt, w') ->
  Forall (fun u => up_state u = Fulfilled) (promises (rep w'))
  /\ exists pre,
       trace w' = trace w ++ pre ++ [FinishTestRun (testRunId (rep w))]
       /\ count is_FinishTestRun pre = 0.
Proof.
  intros PA. unfold finish_run. intros E.
  apply bind_returns in E as ([] & w1 & R & E).
  rewrite (bind_eq this _ _ _ _ eq_refl) in E. unfold client_call in E.
  injection E as _ <-. simpl.
  destruct (reportCoverageSummary_keeps_uploads h c w _ _ R) as [F (es & T & A)].
  injection F as F1 F2. split.
  - rewrite F2. apply promise_all_fulfilled in PA. rewrite Forall_map in PA. exact PA.
  - exists es. rewrite F1, T, <- app_assoc. split; [reflexivity|].
    apply count_none. exact A.
Qed.

Lemma onTestRunEnd_resolved_trace h c settlements w w' :
  onTestRunEnd h c settlements w = (Resolved, w') ->
  Forall (fun u => up_state u = Fulfilled) (promises (rep w'))
  /\ exists pre,
       trace w' = trace w ++ pre ++ [FinishTestRun (testRunId (rep w))]
       /\ count is_FinishTestRun pre = 0.
Proof.
  revert w. induction settlements as [|[i bytes] rest IH]; intros w E; simpl in E.
  all: destruct (promise_all (map up_state (promises (rep w)))) as [| |e] eqn:PA;
    try discriminate E.
  1, 3: destruct (finish_run h c w) as [[[]|e] w1] eqn:Fr; try discriminate E;
    injection E as <-; apply (finish_run_resolved h c w w1 PA Fr).
  destruct (resume_upload c i bytes w) as [r w1] eqn:U. simpl in E.
  destruct (resume_upload_keeps_run c i bytes w r w1 U) as [F (es & T & A)].
  destruct (IH w1 E) as [All (pre & Tr & C)]. split; [exact All|].
  exists (es ++ pre). split.
  - rewrite Tr, T, F, <- !app_assoc. reflexivity.
  - unfold count. rewrite filter_app, length_app.
    fold (count is_FinishTestRun es) (count is_FinishTestRun pre).
    rewrite C, (count_none _ _ A). reflexivity.
Qed.

(** Safety of the run end: whenever [onTestRunEnd] resolves, no upload is
    outstanding, and the run was closed by exactly one call, the last one. *)
Lemma onTestRunEnd_resolved h c settlements w w' :
  onTestRunEnd h c settlements w = (Resolved, w') ->
  Forall (fun u => up_state u = Fulfilled) (promises (rep w'))
  /\ exists pre,
       emitted w w' = pre ++ [FinishTestRun (testRunId (rep w))]
       /\ count is_FinishTestRun pre = 0.
Proof.
  intros E. destruct (onTestRunEnd_resolved_trace h c settlements w w' E)
    as [All (pre & T & C)].
  split; [exact All|]. exists pre. split; [|exact C]. apply emitted_app. exact T.
Qed.

Lemma onTestRunEnd_rejected h c settlements w e :
  promise_all (map up_state (promises (rep w))) = Rejected e ->
  onTestRunEnd h c settlements w = (RejectedWith e, w).
Proof. intros R. destruct settlements; simpl; rewrite R; reflexivity. Qed.

Lemma resume_upload_failed_read c i e u w :
  promises (rep w) !! i = Some u ->
  up_state u = Pending ->
  resume_upload c i (Throws e) w =
    (Returns tt,
     {| rep := set_promises (alter (set_state (Rejected e)) i (promises (rep w))) (rep w);
        trace := trace w |}).
Proof.
  intros L P. unfold resume_upload.
  rewrite (bind_eq this _ _ _ _ eq_refl). rewrite L, P. reflexivity.
Qed.

Lemma first_rejection ps i e u :
  omap rejection (map up_state ps) = [] ->
  ps !! i = Some u ->
  omap rejection (map up_state (alter (set_state (Rejected e)) i ps)) = [e].
Proof.
  revert i. induction ps as [|p ps IH]; intros i N L; [discriminate L|].
  simpl in N. destruct (rejection (up_state p)) eqn:Rp; [discriminate N|].
  destruct i as [|i]; simpl.
  - rewrite N. reflexivity.
  - rewrite Rp. apply IH; assumption.
Qed.

Lemma promise_all_pending ps :
  promise_all ps = Pending -> omap rejection ps = [].
Proof. unfold promise_all. destruct (omap rejection ps); [reflexivity | discriminate]. Qed.

(** A read that fails while [onTestRunEnd] is suspended rejects the awaited
    promise: the call ends with the failure of the read, however the other
    reads settle afterwards.  Nothing is added to the trace, so the run is
    not closed, and the other uploads are as they were. *)
Lemma onTestRunEnd_failed_read h c i e u later w :
  promise_all (map up_state (promises (rep w))) = Pending ->
  promises (rep w) !! i = Some u ->
  up_state u = Pending ->
  onTestRunEnd h c ((i, Throws e) :: later) w =
    (RejectedWith e,
     {| rep := set_promises (alter (set_state (Rejected e)) i (promises (rep w))) (rep w);
        trace := trace w |}).
Proof.
  intros PA L P. simpl. rewrite PA.
  rewrite (resume_upload_failed_read c i e u w L P). simpl.
  apply onTestRunEnd_rejected. simpl. unfold promise_all.
  rewrite (first_rejection _ i e u (promise_all_pending _ PA) L). reflexivity.
Qed.

(** C1, at an input where the code departs from it.  Two uploads are
    pending when the run ends; the file of the first never appears, so its
    read fails.  [onTestRunEnd] then ends with that failure while the second
    upload is still pending, whatever settles later: the trace is what it
    was before the call, and holds no run-close call. *)
Theorem run_end_aborted_by_failed_upload
    (later : list (nat * Outcome (list Byte.byte))) :
  map up_state (promises (rep two_uploads)) = [Pending; Pending]
  /\ fst (onTestRunEnd sample_host sample_client ((0, Throws file_timeout) :: later)
            two_uploads) = RejectedWith file_timeout
  /\ map up_state
       (promises (rep (snd (onTestRunEnd sample_host sample_client
                              ((0, Throws file_timeout) :: later) two_uploads))))
     = [Rejected file_timeout; Pending]
  /\ trace (snd (onTestRunEnd sample_host sample_client
                   ((0, Throws file_timeout) :: later) two_uploads))
     = trace two_uploads
  /\ count is_FinishTestRun (trace two_uploads) = 0.
Proof.
  assert (P : map up_state (promises (rep two_uploads)) = [Pending; Pending])
    by (vm_compute; reflexivity).
  assert (L : exists u, promises (rep two_uploads) !! 0 = Some u /\ up_state u = Pending).
  { eexists. split; vm_compute; reflexivity. }
  destruct L as (u & L & S).
  rewrite (onTestRunEnd_failed_read sample_host sample_client 0 file_timeout u later
             two_uploads); [| rewrite P; reflexivity | exact L | exact S].
  split; [exact P|]. split; [reflexivity|]. split; [vm_compute; reflexivity|].
  split; [reflexivity | vm_compute; reflexivity].
Qed.

(** With both reads successful the same run is closed, once, after both
    attachments were sent. *)
Example run_end_after_successful_uploads :
  let end_ := onTestRunEnd sample_host sample_client [(1, Returns []); (0, Returns [])]
                two_uploads in
  fst end_ = Resolved
  /\ map up_state (promises (rep (snd end_))) = [Fulfilled; Fulfilled]
  /\ emitted two_uploads (snd end_)
     = [SendAttachment "screenshot.png" [] (VStr "image/png") (Some "run-uuid")
                       "test-uuid-4" "log-uuid-6";
        SendAttachment "missing.png" [] (VStr "image/png") (Some "run-uuid")
                       "test-uuid-4" "log-uuid-5";
        FinishTestRun (Some "run-uuid")].
Proof. vm_compute. repeat split. Qed.

(** ** Memoized suite resolution *)

Lemma string_length_append s1 s2 :
  String.length (s1 +:+ s2) = String.length s1 + String.length s2.
Proof. induction s1 as [|a s1 IH]; simpl; [reflexivity | rewrite IH; reflexivity]. Qed.

Lemma join_snoc_longer keyParts segment :
  segment <> EmptyString ->
  String.length (join "|" keyParts) < String.length (join "|" (keyParts ++ [segment])).
Proof.
  intros N. unfold join. induction keyParts as [|x [|y l] IH].
  - simpl. destruct segment; [contradiction | simpl; lia].
  - simpl. rewrite !string_length_append. simpl. lia.
  - change (String.concat "|" (x :: y :: l))
      with (x +:+ "|" +:+ String.concat "|" (y :: l)).
    change (String.concat "|" ((x :: y :: l) ++ [segment]))
      with (x +:+ "|" +:+ String.concat "|" ((y :: l) ++ [segment])).
    rewrite !string_length_append. simpl in *. lia.
Qed.

Lemma prefix_keys_longer path : forall keyParts key,
  Forall (fun s => s <> EmptyString) path ->
  key ∈ prefix_keys keyParts path ->
  String.length (join "|" keyParts) < String.length key.
Proof.
  induction path as [|segment rest IH]; intros keyParts key N I; simpl in I.
  - apply elem_of_nil in I. contradiction.
  - apply Forall_cons in N as [N1 N2].
    pose proof (join_snoc_longer keyParts segment N1) as L.
    apply elem_of_cons in I as [->|I]; [exact L|].
    specialize (IH _ _ N2 I). lia.
Qed.

Lemma prefix_keys_NoDup path : forall keyParts,
  Forall (fun s => s <> EmptyString) path -> NoDup (prefix_keys keyParts path).
Proof.
  induction path as [|segment rest IH]; intros keyParts N; simpl.
  - constructor.
  - pose proof N as N'. apply Forall_cons in N' as [N1 N2]. constructor.
    + intros I. apply (prefix_keys_longer rest _ _ N2) in I. lia.
    + apply IH. exact N2.
Qed.

Lemma buildSuitePath_nonempty h test path :
  buildSuitePath h test = Returns path -> Forall (fun s => s <> EmptyString) path.
Proof.
  unfold buildSuitePath. intros E. apply obind_returns in E as (segments & _ & E).
  injection E as <-. apply Forall_forall. intros s I.
  apply list_elem_of_filter in I as [I _].
  destruct s; [simpl in I; destruct I | discriminate].
Qed.

Lemma suite_creations_ext run before before' after path : forall keyParts parent,
  (forall key, key ∈ prefix_keys keyParts path -> before !! key = before' !! key) ->
  suite_creations run before after path keyParts parent
  = suite_creations run before' after path keyParts parent.
Proof.
  induction path as [|segment rest IH]; intros keyParts parent Same; simpl; [reflexivity|].
  rewrite (Same (join "|" (keyParts ++ [segment]))); [|simpl; left].
  f_equal. apply IH. intros key I. apply Same. simpl. right. exact I.
Qed.

Lemma suite_creations_memoized run before after path : forall keyParts parent,
  (forall key, key ∈ prefix_keys keyParts path -> is_Some (before !! key)) ->
  suite_creations run before after path keyParts parent = [].
Proof.
  induction path as [|segment rest IH]; intros keyParts parent All; simpl; [reflexivity|].
  destruct (All (join "|" (keyParts ++ [segment]))) as [u ->]; [simpl; left|].
  simpl. apply IH. intros key I. apply All. simpl. right. exact I.
Qed.

Lemma suite_creations_length run before after path : forall keyParts parent,
  length (suite_creations run before after path keyParts parent)
  = length (filter (fun key => before !! key = None) (prefix_keys keyParts path)).
Proof.
  induction path as [|segment rest IH]; intros keyParts parent; simpl; [reflexivity|].
  rewrite length_app, IH.
  destruct (before !! join "|" (keyParts ++ [segment])) eqn:B.
  - rewrite filter_cons_False by (rewrite B; discriminate). reflexivity.
  - rewrite filter_cons_True by exact B. reflexivity.
Qed.

Lemma resolved_cons after keyParts segment rest parent :
  resolved after keyParts (segment :: rest) parent
  = resolved after (keyParts ++ [segment]) rest (after !! join "|" (keyParts ++ [segment])).
Proof.
  unfold resolved. simpl. rewrite last_cons.
  destruct (last (prefix_keys (keyParts ++ [segment]) rest)); reflexivity.
Qed.

(** The loop of [getOrStartSuiteForTest], against its specification. *)
Lemma resolve_segments_spec c path : forall keyParts parent w,
  creates_suites c ->
  NoDup (prefix_keys keyParts path) ->
  exists w',
    resolve_segments c path keyParts parent w
      = (Returns (resolved (suites (rep w')) keyParts path parent), w')
    /\ but_suites (rep w') = but_suites (rep w)
    /\ trace w' = trace w ++ suite_creations (testRunId (rep w)) (suites (rep w))
                                             (suites (rep w')) path keyParts parent
    /\ (forall key, key ∈ prefix_keys keyParts path -> is_Some (suites (rep w') !! key))
    /\ (forall key, key ∉ prefix_keys keyParts path ->
                    suites (rep w') !! key = suites (rep w) !! key)
    /\ (forall key u, suites (rep w) !! key = Some u -> suites (rep w') !! key = Some u).
Proof.
  induction path as [|segment rest IH]; intros keyParts parent w Hc ND.
  - exists w. simpl. rewrite app_nil_r. repeat split; auto.
    intros key I. apply elem_of_nil in I. contradiction.
  - simpl in ND. apply NoDup_cons in ND as [Fresh ND].
    set (keyParts' := keyParts ++ [segment]) in *.
    set (key := join "|" keyParts') in *.
    cbn [resolve_segments]. fold keyParts' key.
    rewrite (bind_eq this _ w (rep w) w eq_refl).
    destruct (suites (rep w) !! key) as [existing|] eqn:K.
    + (* the prefix is memoized *)
      destruct (IH keyParts' (Some existing) w Hc ND) as (w' & R & F & T & All & Out & Keep).
      exists w'. rewrite resolved_cons. fold keyParts' key.
      rewrite (Keep key existing K). split; [exact R|]. split; [exact F|].
      split; [|split; [|split]].
      * cbn [suite_creations]. fold keyParts' key. rewrite K, (Keep key existing K).
        exact T.
      * intros k I. cbn [prefix_keys] in I. fold keyParts' key in I.
        apply elem_of_cons in I as [->|I]; [rewrite (Keep key existing K); eauto|].
        apply All. exact I.
      * intros k N. apply Out. intros I. apply N. cbn [prefix_keys]. right. exact I.
      * exact Keep.
    + (* the prefix is created *)
      set (creation := StartSuite (testRunId (rep w)) parent [segment]).
      destruct (Hc (trace w ++ [creation])) as (first & others & A).
      assert (Step : forall k : option (list UUID) -> M (option UUID),
                 bind (client_call creation (startSuite c)) k w
                 = k (Some (first :: others)) {| rep := rep w; trace := trace w ++ [creation] |}).
      { intros k. unfold bind, client_call. rewrite A. reflexivity. }
      rewrite Step. clear Step.
      rewrite bind_modify. cbn [rep trace].
      match goal with
      | |- context [resolve_segments c rest keyParts' (Some first) ?W] => set (w2 := W)
      end.
      destruct (IH keyParts' (Some first) w2 Hc ND) as (w' & R & F & T & All & Out & Keep).
      assert (K2 : suites (rep w') !! key = Some first).
      { apply Keep. simpl. apply lookup_insert_eq. }
      exists w'. rewrite resolved_cons. fold keyParts' key. rewrite K2.
      split; [exact R|]. split; [exact F|]. split; [|split; [|split]].
      * cbn [suite_creations]. fold keyParts' key. rewrite K, K2, T.
        simpl. rewrite <- app_assoc. simpl. f_equal. f_equal.
        apply suite_creations_ext. intros k I. apply lookup_insert_ne.
        intros ->. contradiction.
      * intros k I. cbn [prefix_keys] in I. fold keyParts' key in I.
        apply elem_of_cons in I as [->|I]; [rewrite K2; eauto|]. apply All. exact I.
      * intros k N. rewrite Out.
        -- simpl. apply lookup_insert_ne. intros <-. apply N. cbn [prefix_keys]. left.
        -- intros I. apply N. cbn [prefix_keys]. right. exact I.
      * intros k u Ku. apply Keep. simpl. rewrite lookup_insert_ne; [exact Ku|].
        intros <-. rewrite K in Ku. discriminate Ku.
Qed.

Lemma getOrStartSuiteForTest_resolved h c test path w w' r :
  buildSuitePath h test = Returns path ->
  resolve_segments c path [] None w = (Returns r, w') ->
  getOrStartSuiteForTest h c test w
  = (match r with Some u => Returns u | None => Throws suite_failure end, w').
Proof.
  intros B R. unfold getOrStartSuiteForTest.
  rewrite (bind_eq (lift _) _ w path w); [|unfold lift; rewrite B; reflexivity].
  rewrite (bind_eq _ _ _ _ _ R). destruct r; reflexivity.
Qed.

Lemma reporter_ext r r' :
  but_suites r' = but_suites r -> suites r' = suites r -> r' = r.
Proof.
  destruct r, r'. unfold but_suites. simpl. intros E ->. injection E as -> -> -> -> ->.
  reflexivity.
Qed.

(** X27.  Suite resolution is memoized by the key of the path prefix, which
    is its segments joined with [|].  Take a client that answers every suite
    creation with an identifier, and a test whose suite path, as
    [buildSuitePath] lists it, is [path].  Resolving the suite of the test a
    second time gives the result of the first time and changes nothing: it
    makes no remote call.  The first resolution makes remote calls that are
    all suite creations: exactly one for each prefix of the path whose key
    is not memoized yet, none for the others, in the order of the path, and
    each creation is made under the identifier memoized for the prefix one
    segment shorter (under no parent for the first segment).  The keys of the
    prefixes of one path are pairwise distinct, and afterwards all of them
    are memoized. *)
Theorem suite_resolution_memoized (h : Host) (c : Client) (w : World) (test : TestCase)
    (path : list string) :
  creates_suites c ->
  buildSuitePath h test = Returns path ->
  let first := getOrStartSuiteForTest h c test w in
  let second := getOrStartSuiteForTest h c test (snd first) in
  second = first
  /\ emitted (snd first) (snd second) = []
  /\ emitted w (snd first)
     = suite_creations (testRunId (rep w)) (suites (rep w)) (suites (rep (snd first)))
                       path [] None
  /\ length (emitted w (snd first))
     = length (filter (fun key => suites (rep w) !! key = None) (prefix_keys [] path))
  /\ NoDup (prefix_keys [] path)
  /\ (forall key, key ∈ prefix_keys [] path -> is_Some (suites (rep (snd first)) !! key))
  /\ but_suites (rep (snd first)) = but_suites (rep w).
Proof.
  intros Hc B. cbn zeta.
  pose proof (prefix_keys_NoDup path [] (buildSuitePath_nonempty h test path B)) as ND.
  destruct (resolve_segments_spec c path [] None w Hc ND)
    as (w1 & R1 & F1 & T1 & All1 & Out1 & Keep1).
  destruct (resolve_segments_spec c path [] None w1 Hc ND)
    as (w2 & R2 & F2 & T2 & All2 & Out2 & Keep2).
  assert (S : suites (rep w2) = suites (rep w1)).
  { apply map_eq. intros key.
    destruct (decide (key ∈ prefix_keys [] path)) as [I|N]; [|apply Out2; exact N].
    destruct (All1 key I) as [u Ku]. rewrite Ku. apply Keep2. exact Ku. }
  assert (W : w2 = w1).
  { destruct w1 as [r1 t1], w2 as [r2 t2]. simpl in *. f_equal.
    - apply reporter_ext; assumption.
    - rewrite T2, suite_creations_memoized, app_nil_r; [reflexivity | exact All1]. }
  subst w2.
  rewrite (getOrStartSuiteForTest_resolved h c test path w w1 _ B R1). simpl.
  rewrite (getOrStartSuiteForTest_resolved h c test path w1 w1 _ B R2). simpl.
  split; [reflexivity|]. split; [unfold emitted; apply drop_all|].
  split; [apply emitted_app; exact T1|]. split.
  - rewrite (emitted_app _ _ _ T1). apply suite_creations_length.
  - split; [exact ND|]. split; [exact All1 | exact F1].
Qed.

Lemma sample_client_creates_suites : creates_suites sample_client.
Proof. intros tr. eexists. exists []. reflexivity. Qed.

Lemma suite_resolution_memoized_witness :
  let first := getOrStartSuiteForTest sample_host sample_client sibling_test open_run in
  getOrStartSuiteForTest sample_host sample_client sibling_test (snd first) = first
  /\ emitted open_run (snd first)
     = [StartSuite (Some "run-uuid") None ["tests/sample.test.ts"];
        StartSuite (Some "run-uuid") (Some "suite-uuid-2") ["sample suite"]].
Proof.
  destruct (suite_resolution_memoized sample_host sample_client open_run sibling_test
              ["tests/sample.test.ts"; "sample suite"]
              sample_client_creates_suites eq_refl) as (Same & _ & Em & _).
  split; [exact Same|]. rewrite Em. vm_compute. reflexivity.
Defined.

(** C4, at inputs where the code departs from it.  First, a test of the
    sample module in the suite "inner", which is nested in the suite
    "outer": [buildSuitePath] lists the suites from the innermost outwards,
    so the suite "inner" is created first, under the suite of the module,
    and its parent "outer" is created after it and under it.  Second, a
    test in the suite "users|api" followed by a test in the suite "users"
    nested in "api": of the two prefixes of the second path, neither
    resolved before, only one is created, because the key of the longer one
    is the key of "users|api"; the second test is started in the suite of
    the first. *)
Theorem suite_hierarchy_departs :
  tc_suite deep_test = enclosing ["outer"; "inner"]
  /\ emitted open_run
       (run_events sample_host sample_client [TestCaseReady deep_test] open_run)
     = [StartSuite (Some "run-uuid") None ["tests/sample.test.ts"];
        StartSuite (Some "run-uuid") (Some "suite-uuid-2") ["inner"];
        StartSuite (Some "run-uuid") (Some "suite-uuid-3") ["outer"];
        StartTest TEST (Some "run-uuid") (Some "suite-uuid-4") (Some "deep") EmptyString]
  /\ let w1 := run_events sample_host sample_client [TestCaseReady bar_test] open_run in
     buildSuitePath sample_host bar_test = Returns ["users|api"]
     /\ buildSuitePath sample_host nested_bar_test = Returns ["users"; "api"]
     /\ emitted open_run w1
        = [StartSuite (Some "run-uuid") None ["users|api"];
           StartTest TEST (Some "run-uuid") (Some "suite-uuid-2") (Some "in one suite")
                     EmptyString]
     /\ emitted w1 (run_events sample_host sample_client [TestCaseReady nested_bar_test] w1)
        = [StartSuite (Some "run-uuid") None ["users"];
           StartTest TEST (Some "run-uuid") (Some "suite-uuid-2") (Some "in two suites")
                     EmptyString].
Proof.
  split; [reflexivity|]. split; [vm_compute; reflexivity|].
  cbv zeta. repeat split; vm_compute; reflexivity.
Qed.

(** Two tests of the same suite: the second one creates no suite. *)
Example two_tests_one_suite :
  filter (fun e => is_StartSuite e = true)
    (trace (run_events sample_host sample_client
              [TestRunStart; TestCaseReady attachment_test; TestCaseReady sibling_test]
              new_world))
  = [StartSuite (Some "run-uuid") None ["tests/sample.test.ts"];
     StartSuite (Some "run-uuid") (Some "suite-uuid-2") ["sample suite"]].
Proof. vm_compute. reflexivity. Qed.

(** ** Console logs: buffered, then flushed in order *)

Lemma forward_log_returns h c entry testUUID w w' :
  forward_log h c entry testUUID w = (Returns tt, w') ->
  exists f, formatConsoleLog h entry = Returns f
            /\ w' = {| rep := rep w;
                       trace := trace w ++ [log_call (testRunId (rep w)) testUUID f] |}.
Proof.
  unfold forward_log. intros E.
  apply bind_returns in E as (f & w1 & E1 & E). apply lift_returns in E1 as [F ->].
  rewrite (bind_eq this _ _ _ _ eq_refl) in E.
  apply bind_returns in E as (u & w1 & E1 & E).
  unfold client_call in E1. injection E1 as _ <-. injection E as <-.
  exists f. split; [exact F | reflexivity].
Qed.

Lemma forward_log_accepted h c entry testUUID w f :
  accepts_logs c ->
  formatConsoleLog h entry = Returns f ->
  forward_log h c entry testUUID w
  = (Returns tt, {| rep := rep w;
                    trace := trace w ++ [log_call (testRunId (rep w)) testUUID f] |}).
Proof.
  intros A F. unfold forward_log.
  rewrite (bind_eq (lift _) _ w f w); [|unfold lift; rewrite F; reflexivity].
  rewrite (bind_eq this _ _ _ _ eq_refl).
  destruct (A (trace w ++ [log_call (testRunId (rep w)) testUUID f])) as [u L].
  unfold bind, client_call. fold (log_call (testRunId (rep w)) testUUID f).
  rewrite L. reflexivity.
Qed.

(** The loop of [flushBufferedLogs]: when it runs to its end, every entry
    was formatted and forwarded, in the order of the buffer. *)
Lemma flush_loop_returns h c testUUID buffered : forall w w',
  for_each buffered (fun entry => forward_log h c entry testUUID) w = (Returns tt, w') ->
  exists fs, mapM_outcome (formatConsoleLog h) buffered = Returns fs
             /\ w' = {| rep := rep w;
                        trace := trace w ++ map (log_call (testRunId (rep w)) testUUID) fs |}.
Proof.
  induction buffered as [|entry rest IH]; intros w w' E; simpl in E.
  - injection E as <-. exists []. simpl. rewrite app_nil_r, world_eta. auto.
  - apply bind_returns in E as ([] & w1 & E1 & E).
    apply forward_log_returns in E1 as (f & F & ->).
    apply IH in E as (fs & Fs & ->). simpl.
    exists (f :: fs). rewrite F, Fs. simpl. rewrite <- app_assoc. auto.
Qed.

Lemma onUserConsoleLog_known h c entry id testUUID w :
  taskId entry = Some id ->
  truthy_string id = true ->
  tests (rep w) !! id = Some testUUID ->
  onUserConsoleLog h c entry w = forward_log h c entry testUUID w.
Proof.
  intros I T K. unfold onUserConsoleLog. rewrite I, T.
  rewrite (bind_eq this _ w (rep w) w eq_refl). rewrite K. reflexivity.
Qed.

Lemma run_events_cons h c ev evs w :
  run_events h c (ev :: evs) w = run_events h c evs (snd (handle h c ev w)).
Proof. reflexivity. Qed.

(** Logs that arrive for a task whose test is not known are held back. *)
Lemma logs_buffered h c id pre : forall w,
  truthy_string id = true ->
  tests (rep w) !! id = None ->
  Forall (fun entry => taskId entry = Some id) pre ->
  let w1 := run_events h c (map UserConsoleLogged pre) w in
  trace w1 = trace w
  /\ buffer_of id w1 = buffer_of id w ++ pre
  /\ tests (rep w1) = tests (rep w)
  /\ run_and_uploads (rep w1) = run_and_uploads (rep w)
  /\ suites (rep w1) = suites (rep w).
Proof.
  induction pre as [|entry rest IH]; intros w T K All; cbn zeta.
  - simpl. rewrite app_nil_r. auto.
  - apply Forall_cons in All as [I All]. cbn [map]. rewrite run_events_cons.
    cbn [handle]. rewrite (onUserConsoleLog_unknown h c entry id w I K), T. cbn [snd].
    destruct (IH (buffered_in id entry w) T K All) as (Tr & B & Ts & R & S).
    split; [exact Tr|]. split; [|split; [exact Ts|split; [exact R | exact S]]].
    rewrite B. unfold buffer_of at 1. simpl. rewrite lookup_insert_eq. simpl.
    rewrite <- app_assoc. reflexivity.
Qed.

(** Logs that arrive for a task whose test is known are forwarded at once. *)
Lemma logs_forwarded h c id testUUID post : forall w gs,
  accepts_logs c ->
  truthy_string id = true ->
  tests (rep w) !! id = Some testUUID ->
  Forall (fun entry => taskId entry = Some id) post ->
  mapM_outcome (formatConsoleLog h) post = Returns gs ->
  run_events h c (map UserConsoleLogged post) w
  = {| rep := rep w;
       trace := trace w ++ map (log_call (testRunId (rep w)) testUUID) gs |}.
Proof.
  induction post as [|entry rest IH]; intros w gs A T K All F; simpl in F.
  - injection F as <-. simpl. rewrite app_nil_r, world_eta. reflexivity.
  - apply obind_returns in F as (g & G & F). apply obind_returns in F as (gs' & Gs & F).
    injection F as <-. apply Forall_cons in All as [I All].
    cbn [map]. rewrite run_events_cons. cbn [handle].
    rewrite (onUserConsoleLog_known h c entry id testUUID w I T K).
    rewrite (forward_log_accepted h c entry testUUID w g A G). cbn [snd].
    rewrite (IH {| rep := rep w;
                   trace := trace w ++ [log_call (testRunId (rep w)) testUUID g] |}
                gs' A T K All Gs).
    simpl. rewrite <- app_assoc. reflexivity.
Qed.

(** What starting a test that is not known yet does, when it goes through:
    the suites are resolved, the test is started, and the logs held back for
    it are forwarded in their order and dropped from the buffer. *)
Lemma ensureTestStarted_unknown h c test testUUID w w' :
  tests (rep w) !! tc_id test = None ->
  ensureTestStarted h c test w = (Returns testUUID, w') ->
  exists creations suiteUUID fs,
    Forall (fun e => is_StartSuite e = true) creations
    /\ mapM_outcome (formatConsoleLog h) (buffer_of (tc_id test) w) = Returns fs
    /\ trace w' = trace w ++ creations
                   ++ [start_test_call (testRunId (rep w)) suiteUUID test]
                   ++ map (log_call (testRunId (rep w)) testUUID) fs
    /\ tests (rep w') = <[tc_id test := testUUID]> (tests (rep w))
    /\ buffer_of (tc_id test) w' = []
    /\ (buffer_of (tc_id test) w <> [] -> bufferedLogs (rep w') !! tc_id test = None)
    /\ testRunId (rep w') = testRunId (rep w).
Proof.
  intros K. unfold ensureTestStarted.
  rewrite (bind_eq this _ w (rep w) w eq_refl). rewrite K. intros E.
  apply bind_returns in E as (suiteUUID & wa & Ea & E).
  destruct (getOrStartSuiteForTest_respects h c test _ _ _ Ea) as [Fa (creations & Ta & Aa)].
  unfold but_suites in Fa. injection Fa as Frun Ftests Fprom Fbuf Fcov.
  rewrite (bind_eq this _ _ _ _ eq_refl) in E.
  apply bind_returns in E as (u & wb & Eb & E).
  unfold client_call in Eb. injection Eb as _ <-.
  apply bind_returns in E as ([] & wc & Ec & E). injection Ec as <-.
  apply bind_returns in E as ([] & wd & Ed & E). injection E as <- <-.
  fold (start_test_call (testRunId (rep wa)) suiteUUID test) in Ed.
  unfold flushBufferedLogs in Ed. rewrite (bind_eq this _ _ _ _ eq_refl) in Ed.
  simpl in Ed. unfold buffer_of. rewrite <- Fbuf, <- Frun.
  exists creations, suiteUUID.
  destruct (bufferedLogs (rep wa) !! tc_id test) as [[|entry rest]|] eqn:B.
  - injection Ed as <-. exists []. simpl. rewrite B, Ta, Ftests, <- !app_assoc.
    repeat split; try assumption. intros N. exfalso. apply N. reflexivity.
  - apply bind_returns in Ed as ([] & we & Ee & Ed). injection Ed as <-.
    apply flush_loop_returns in Ee as (fs & Fs & ->). exists fs. simpl.
    rewrite lookup_delete_eq, Ta, Ftests, <- !app_assoc. simpl.
    repeat split; assumption.
  - injection Ed as <-. exists []. simpl. rewrite B, Ta, Ftests, <- !app_assoc.
    repeat split; assumption.
Qed.

(** C3.  Take a task identifier (a non-empty string) whose test is not
    known.  Console logs that arrive for it are held back: nothing is
    emitted, and they are put at the end of the buffer of the identifier in
    their order of arrival.  When the test then becomes known, that is when
    [ensureTestStarted] goes through, the trace grows by the suite creations,
    the start of the test and then one log call for each buffered entry, in
    the order of arrival and each entry once, on the remote test; the buffer
    of the identifier is left empty, and removed from the map if it held
    anything.  Logs that arrive after that, the client accepting them, are
    forwarded at once, so they follow the flushed ones in the trace, and
    nothing is buffered any more. *)
Theorem console_logs_buffered_then_flushed (h : Host) (c : Client) (w w2 : World)
    (test : TestCase) (pre post : list UserConsoleLog) (testUUID : UUID)
    (gs : list FormattedLog) :
  truthy_string (tc_id test) = true ->
  tests (rep w) !! tc_id test = None ->
  Forall (fun entry => taskId entry = Some (tc_id test)) (pre ++ post) ->
  ensureTestStarted h c test (run_events h c (map UserConsoleLogged pre) w)
    = (Returns testUUID, w2) ->
  accepts_logs c ->
  mapM_outcome (formatConsoleLog h) post = Returns gs ->
  let w1 := run_events h c (map UserConsoleLogged pre) w in
  let w3 := run_events h c (map UserConsoleLogged post) w2 in
  trace w1 = trace w
  /\ buffer_of (tc_id test) w1 = buffer_of (tc_id test) w ++ pre
  /\ exists creations suiteUUID fs,
       Forall (fun e => is_StartSuite e = true) creations
       /\ mapM_outcome (formatConsoleLog h) (buffer_of (tc_id test) w ++ pre) = Returns fs
       /\ trace w2 = trace w ++ creations
                      ++ [start_test_call (testRunId (rep w)) suiteUUID test]
                      ++ map (log_call (testRunId (rep w)) testUUID) fs
       /\ buffer_of (tc_id test) w2 = []
       /\ (buffer_of (tc_id test) w ++ pre <> [] ->
           bufferedLogs (rep w2) !! tc_id test = None)
       /\ trace w3 = trace w2 ++ map (log_call (testRunId (rep w)) testUUID) gs
       /\ rep w3 = rep w2.
Proof.
  intros T K All E A G. cbn zeta.
  apply Forall_app in All as [AllPre AllPost].
  destruct (logs_buffered h c (tc_id test) pre w T K AllPre) as (Tr1 & B1 & Ts1 & R1 & _).
  injection R1 as Run1 _ _.
  assert (K1 : tests (rep (run_events h c (map UserConsoleLogged pre) w)) !! tc_id test = None)
    by (rewrite Ts1; exact K).
  destruct (ensureTestStarted_unknown h c test testUUID _ w2 K1 E)
    as (creations & suiteUUID & fs & Cr & Fs & Tr2 & Ts2 & B2 & Del & Run2).
  rewrite B1 in Fs, Del. rewrite Tr1, Run1 in Tr2.
  split; [exact Tr1|]. split; [exact B1|].
  exists creations, suiteUUID, fs.
  split; [exact Cr|]. split; [exact Fs|]. split; [exact Tr2|]. split; [exact B2|].
  split; [exact Del|].
  assert (K2 : tests (rep w2) !! tc_id test = Some testUUID)
    by (rewrite Ts2; apply lookup_insert_eq).
  rewrite (logs_forwarded h c (tc_id test) testUUID post w2 gs A T K2 AllPost G).
  simpl. rewrite Run2, Run1. split; reflexivity.
Qed.

Lemma sample_client_accepts_logs : accepts_logs sample_client.
Proof. intros tr. eexists. reflexivity. Qed.

Lemma console_logs_buffered_then_flushed_witness :
  let w2 := snd (ensureTestStarted sample_host sample_client console_test logs_then_ready) in
  let w3 := run_events sample_host sample_client (map UserConsoleLogged late_logs) w2 in
  trace logs_then_ready = [start_call sample_client]
  /\ trace w3
     = [start_call sample_client;
        StartSuite (Some "run-uuid") None ["tests/sample.test.ts"];
        StartSuite (Some "run-uuid") (Some "suite-uuid-2") ["sample suite"];
        StartTest TEST (Some "run-uuid") (Some "suite-uuid-3") (Some "console test")
                  "/work/tests/sample.test.ts:10";
        Log PLAIN_TEXT INFO "hello before start" (Some "run-uuid") "test-uuid-4";
        Log PLAIN_TEXT INFO "second line" (Some "run-uuid") "test-uuid-4";
        Log PLAIN_TEXT INFO "hello after start" (Some "run-uuid") "test-uuid-4"]
  /\ bufferedLogs (rep w3) !! "t-2" = None.
Proof.
  cbn zeta.
  assert (E : ensureTestStarted sample_host sample_client console_test
                (run_events sample_host sample_client (map UserConsoleLogged [])
                   logs_then_ready)
              = (Returns "test-uuid-4",
                 snd (ensureTestStarted sample_host sample_client console_test
                        logs_then_ready)))
    by (vm_compute; reflexivity).
  assert (G : mapM_outcome (formatConsoleLog sample_host) late_logs
              = Returns [{| fl_message := "hello after start"; fl_format := PLAIN_TEXT;
                            fl_level := INFO |}])
    by (vm_compute; reflexivity).
  assert (All : Forall (fun entry => taskId entry = Some (tc_id console_test))
                       ([] ++ late_logs)) by (repeat constructor).
  destruct (console_logs_buffered_then_flushed sample_host sample_client logs_then_ready _
              console_test [] late_logs "test-uuid-4" _ eq_refl eq_refl All E
              sample_client_accepts_logs G)
    as (_ & _ & creations & suiteUUID & fs & _ & _ & _ & _ & Del & Tr3 & _).
  split; [vm_compute; reflexivity|]. split; [vm_compute; reflexivity|].
  vm_compute. reflexivity.
Defined.

(** * Further properties of the code *)

(** ** Strings *)

#[local] Arguments String.append !s1 s2 / : simpl nomatch.

Lemma append_nil_r s : s +:+ EmptyString = s.
Proof. induction s as [|a s IH]; simpl; [reflexivity | rewrite IH; reflexivity]. Qed.

Lemma append_assoc s1 s2 s3 : (s1 +:+ s2) +:+ s3 = s1 +:+ s2 +:+ s3.
Proof. induction s1 as [|a s1 IH]; simpl; [reflexivity | rewrite IH; reflexivity]. Qed.

Lemma prefix_nil_r p : String.prefix p EmptyString = match p with EmptyString => true | _ => false end.
Proof. destruct p; reflexivity. Qed.

Lemma prefix_cons a p b s :
  String.prefix (String a p) (String b s) = Ascii.eqb a b && String.prefix p s.
Proof.
  change (String.prefix (String a p) (String b s))
    with (if ascii_dec a b then String.prefix p s else false).
  destruct (ascii_dec a b) as [->|N].
  - rewrite Ascii.eqb_refl. reflexivity.
  - apply Ascii.eqb_neq in N. rewrite N. reflexivity.
Qed.

Lemma prefix_append p s : String.prefix p (p +:+ s) = true.
Proof.
  induction p as [|a p IH].
  - destruct s; reflexivity.
  - cbn [String.append]. rewrite prefix_cons, Ascii.eqb_refl. exact IH.
Qed.

(** ** [removeAnsi] *)

Lemma plain_not_CSI s : plain s = true -> startsWith s CSI = false.
Proof.
  unfold startsWith, CSI. destruct s as [|a s]; [reflexivity|].
  intros P. simpl in P. apply andb_prop in P as [P _]. rewrite prefix_cons.
  rewrite Ascii.eqb_sym. apply negb_true_iff in P. rewrite P. reflexivity.
Qed.

Lemma match_ansi_plain a s : Ascii.eqb a ESC = false -> match_ansi (String a s) = None.
Proof.
  intros N. unfold match_ansi. destruct s as [|b s]; [reflexivity|]. rewrite N. reflexivity.
Qed.

(** Scanning over text without escapes only gathers it. *)
Lemma split_ansi_go_plain text : forall rest cur,
  plain text = true ->
  split_ansi_go (text +:+ rest) cur 0 = split_ansi_go rest (cur +:+ text) 0.
Proof.
  induction text as [|a text IH]; intros rest cur P.
  - rewrite append_nil_r. reflexivity.
  - simpl in P. apply andb_prop in P as [Pa P]. apply negb_true_iff in Pa.
    cbn [String.append split_ansi_go].
    rewrite (match_ansi_plain a (text +:+ rest) Pa).
    rewrite (IH rest _ P), append_assoc. reflexivity.
Qed.

Lemma split_ansi_go_skip skipped : forall rest cur,
  split_ansi_go (skipped +:+ rest) cur (String.length skipped) = split_ansi_go rest cur 0.
Proof.
  induction skipped as [|a skipped IH]; intros rest cur; simpl.
  - destruct rest; reflexivity.
  - apply IH.
Qed.

Lemma match_params_sequence params : forall final rest,
  all_chars is_param_char params = true ->
  is_final_char final = true ->
  match_params (params +:+ String final rest) = Some (params +:+ String final EmptyString).
Proof.
  induction params as [|a params IH]; intros final rest P F; simpl.
  - rewrite F. destruct (is_param_char final) eqn:Q; [|reflexivity].
    exfalso. unfold is_final_char in F. unfold is_param_char in Q.
    apply orb_prop in F as [F|F]; apply Ascii.eqb_eq in F; subst final; discriminate Q.
  - simpl in P. apply andb_prop in P as [Pa P]. rewrite Pa, (IH final rest P F). reflexivity.
Qed.

Lemma match_ansi_sequence params final rest :
  all_chars is_param_char params = true ->
  is_final_char final = true ->
  match_ansi (sequence params final +:+ rest) = Some (sequence params final).
Proof.
  intros P F. unfold sequence, CSI. simpl.
  rewrite append_assoc. simpl.
  rewrite (match_params_sequence params final rest P F). reflexivity.
Qed.

(** At a control sequence the scan closes the text gathered so far, emits
    the sequence and starts afresh behind it. *)
Lemma split_ansi_go_sequence params final rest cur :
  all_chars is_param_char params = true ->
  is_final_char final = true ->
  split_ansi_go (sequence params final +:+ rest) cur 0
  = cur :: sequence params final :: split_ansi_go rest EmptyString 0.
Proof.
  intros P F. pose proof (match_ansi_sequence params final rest P F) as M.
  unfold sequence, CSI in *. cbn [String.append] in *. cbn [split_ansi_go]. rewrite M.
  f_equal. f_equal.
  apply (split_ansi_go_skip (String "[" (params +:+ String final EmptyString)) rest
           EmptyString).
Qed.

Lemma removeAnsi_fold parts : forall result,
  fold_left keep_text parts result = result +:+ fold_left keep_text parts EmptyString.
Proof.
  induction parts as [|part parts IH]; intros result.
  - simpl. rewrite append_nil_r. reflexivity.
  - simpl. rewrite (IH (keep_text result part)), (IH (keep_text EmptyString part)).
    unfold keep_text. destruct (startsWith part CSI); simpl.
    + reflexivity.
    + rewrite append_assoc. reflexivity.
Qed.

Lemma removeAnsi_unfold s : removeAnsi s = fold_left keep_text (split_ansi s) EmptyString.
Proof. reflexivity. Qed.

Lemma split_ansi_go_no_match a s cur :
  match_ansi (String a s) = None ->
  split_ansi_go (String a s) cur 0 = split_ansi_go s (cur +:+ String a EmptyString) 0.
Proof. intros M. cbn [split_ansi_go]. rewrite M. reflexivity. Qed.

Lemma split_ansi_plain text : plain text = true -> split_ansi text = [text].
Proof.
  intros P. unfold split_ansi. rewrite <- (append_nil_r text) at 1.
  rewrite (split_ansi_go_plain text EmptyString EmptyString P). reflexivity.
Qed.

(** X1.  [removeAnsi] leaves text without escape characters as it is. *)
Theorem removeAnsi_plain (text : string) :
  plain text = true -> removeAnsi text = text.
Proof.
  intros P. rewrite removeAnsi_unfold, (split_ansi_plain text P). simpl.
  unfold keep_text. rewrite (plain_not_CSI text P). reflexivity.
Qed.

Lemma removeAnsi_plain_witness : removeAnsi "Expected failure" = "Expected failure".
Proof. apply (removeAnsi_plain "Expected failure"). reflexivity. Defined.

(** [removeAnsi] drops a control sequence that follows text without escapes,
    keeps that text, and goes on with what follows the sequence. *)
Lemma removeAnsi_step text params final rest :
  plain text = true ->
  all_chars is_param_char params = true ->
  is_final_char final = true ->
  removeAnsi (text +:+ sequence params final +:+ rest) = text +:+ removeAnsi rest.
Proof.
  intros T P F. rewrite !removeAnsi_unfold. unfold split_ansi.
  rewrite (split_ansi_go_plain text _ EmptyString T).
  rewrite (split_ansi_go_sequence params final rest _ P F).
  cbn [fold_left String.append]. unfold keep_text at 2 3.
  rewrite (plain_not_CSI text T). unfold startsWith, sequence.
  rewrite prefix_append. cbn [String.append]. apply removeAnsi_fold.
Qed.

Lemma removeAnsi_plain_text text : plain text = true -> removeAnsi text = text.
Proof.
  intros P. rewrite removeAnsi_unfold, (split_ansi_plain text P). simpl.
  unfold keep_text. rewrite (plain_not_CSI text P). reflexivity.
Qed.

Lemma removeAnsi_spans spans : forall text,
  plain text = true ->
  Forall well_formed_span spans ->
  removeAnsi (coloured text spans) = stripped text spans.
Proof.
  induction spans as [|[[params final] t] spans IH]; intros text T W.
  - apply removeAnsi_plain_text. exact T.
  - apply Forall_cons in W as [[P [F Pt]] W].
    cbn [coloured stripped]. rewrite (removeAnsi_step text params final _ T P F).
    rewrite (IH t Pt W). reflexivity.
Qed.

(** X2.  On coloured text, that is text without escapes interleaved with
    well-formed control sequences, [removeAnsi] removes every sequence and
    keeps all the text, in order. *)
Theorem removeAnsi_coloured (text : string) (spans : list Span) :
  plain text = true ->
  Forall well_formed_span spans ->
  removeAnsi (coloured text spans) = stripped text spans.
Proof. intros T W. apply removeAnsi_spans; assumption. Qed.

Lemma removeAnsi_coloured_witness :
  removeAnsi ("expected " +:+ red +:+ "1" +:+ default_colour +:+ " to be 2")
  = "expected 1 to be 2".
Proof.
  apply (removeAnsi_coloured "expected " [("31", "m"%char, "1"); ("39", "m"%char, " to be 2")]).
  - reflexivity.
  - repeat constructor.
Defined.

(** X3.  An opening [ESC \[] that no parameters and final letter complete is
    no match of the regular expression; the text part that starts with it
    is dropped whole, so the escape swallows all the text behind it. *)
Theorem removeAnsi_unterminated (text : string) :
  plain text = true ->
  match_params text = None ->
  removeAnsi (CSI +:+ text) = EmptyString.
Proof.
  intros P N. rewrite removeAnsi_unfold. unfold split_ansi.
  assert (M : match_ansi (CSI +:+ text) = None).
  { unfold CSI. cbn [String.append]. unfold match_ansi.
    rewrite !Ascii.eqb_refl, N. reflexivity. }
  assert (P' : plain (String "[" text) = true) by exact P.
  change (CSI +:+ text) with (String ESC (String "[" text)) in *.
  rewrite (split_ansi_go_no_match _ _ _ M).
  rewrite <- (append_nil_r (String "[" text)).
  rewrite (split_ansi_go_plain _ EmptyString _ P').
  change (split_ansi_go EmptyString ?c 0) with [c].
  cbn [fold_left String.append].
  unfold keep_text, startsWith, CSI.
  rewrite !prefix_cons, !Ascii.eqb_refl. destruct text; reflexivity.
Qed.

Lemma removeAnsi_unterminated_witness : removeAnsi (CSI +:+ "hello world") = EmptyString.
Proof. apply (removeAnsi_unterminated "hello world"); reflexivity. Defined.

(** ** [ansiToMarkdown] *)

Lemma ansiToMarkdown_unfold s :
  ansiToMarkdown s
  = snd (fold_left markdown_step (split_ansi s) ({| italic := None; code := None |}, EmptyString)).
Proof. reflexivity. Qed.

Lemma ansiToMarkdown_plain_text text :
  plain text = true -> ansiToMarkdown text = break_lines text.
Proof.
  intros P. rewrite ansiToMarkdown_unfold, (split_ansi_plain text P).
  cbn [fold_left markdown_step]. rewrite (plain_not_CSI text P). reflexivity.
Qed.

Lemma all_chars_append p s1 s2 :
  all_chars p (s1 +:+ s2) = all_chars p s1 && all_chars p s2.
Proof.
  induction s1 as [|a s1 IH]; simpl; [reflexivity|]. rewrite IH, andb_assoc. reflexivity.
Qed.

Lemma stripped_plain spans : forall text,
  plain text = true -> Forall well_formed_span spans -> plain (stripped text spans) = true.
Proof.
  induction spans as [|[[params final] t] spans IH]; intros text T W; [exact T|].
  apply Forall_cons in W as [[_ [_ Pt]] W]. cbn [stripped]. unfold plain.
  rewrite all_chars_append. fold (plain text) (plain (stripped t spans)).
  rewrite T, (IH t Pt W). reflexivity.
Qed.

(** X4.  The message of an error goes through [removeAnsi] and then
    through [ansiToMarkdown].  For coloured text the result is the text
    without its control sequences, each line feed turned into a hard line
    break: the colours are gone before [ansiToMarkdown] could turn them into
    emphasis. *)
Theorem error_message_markdown (text : string) (spans : list Span) :
  plain text = true ->
  Forall well_formed_span spans ->
  ansiToMarkdown (removeAnsi (coloured text spans)) = break_lines (stripped text spans).
Proof.
  intros T W.
  assert (R : removeAnsi (coloured text spans) = stripped text spans).
  { clear - T W. revert text T.
    induction W as [|[[params final] t] spans [P [F Pt]] _ IH]; intros text T.
    - apply removeAnsi_plain_text. exact T.
    - cbn [coloured stripped]. rewrite (removeAnsi_step text params final _ T P F).
      rewrite (IH t Pt). reflexivity. }
  rewrite R. apply ansiToMarkdown_plain_text. apply stripped_plain; assumption.
Qed.

Lemma error_message_markdown_witness :
  ansiToMarkdown (removeAnsi ("expected " +:+ red +:+ "1" +:+ default_colour +:+ " to be 2"))
  = "expected 1 to be 2".
Proof.
  apply (error_message_markdown "expected "
           [("31", "m"%char, "1"); ("39", "m"%char, " to be 2")]).
  - reflexivity.
  - repeat constructor.
Defined.

(** X5.  Applied to text that still has its colours, [ansiToMarkdown]
    shows what is red or green in italics: text without escapes between the
    sequence for red (31) or green (32) and the one for the default colour
    (39) comes out between asterisks, with a space after the closing one if
    the text ended in a space, and the sequences are gone. *)
Theorem ansiToMarkdown_colour (colour text : string) :
  colour = "31" \/ colour = "32" ->
  plain text = true ->
  ansiToMarkdown (sequence colour "m" +:+ text +:+ default_colour) = emphasised text.
Proof.
  intros C T. rewrite ansiToMarkdown_unfold. unfold split_ansi.
  assert (Pc : all_chars is_param_char colour = true) by (destruct C; subst; reflexivity).
  rewrite (split_ansi_go_sequence colour "m" _ _ Pc eq_refl).
  rewrite <- (append_nil_r default_colour).
  rewrite (split_ansi_go_plain text _ EmptyString T).
  unfold default_colour.
  rewrite (split_ansi_go_sequence "39" "m" EmptyString _ eq_refl eq_refl).
  change (split_ansi_go EmptyString EmptyString 0) with [EmptyString].
  cbn [fold_left String.append].
  assert (S1 : markdown_step ({| italic := None; code := None |}, EmptyString) EmptyString
               = ({| italic := None; code := None |}, EmptyString)) by reflexivity.
  rewrite S1.
  assert (S2 : markdown_step ({| italic := None; code := None |}, EmptyString)
                 (sequence colour "m")
               = ({| italic := Some true; code := None |}, EmptyString))
    by (destruct C; subst; reflexivity).
  rewrite S2.
  assert (S3 : markdown_step ({| italic := Some true; code := None |}, EmptyString) text
               = ({| italic := Some true; code := None |}, emphasised text)).
  { unfold markdown_step. rewrite (plain_not_CSI text T). reflexivity. }
  rewrite S3.
  assert (S4 : forall m, markdown_step ({| italic := Some true; code := None |}, m)
                           (sequence "39" "m")
                         = ({| italic := Some false; code := None |}, m)) by reflexivity.
  rewrite S4. unfold markdown_step. simpl. apply append_nil_r.
Qed.

Lemma ansiToMarkdown_colour_witness :
  ansiToMarkdown (red +:+ "- Expected" +:+ default_colour) = "*- Expected*".
Proof.
  apply (ansiToMarkdown_colour "31" "- Expected"); [left|]; reflexivity.
Defined.

(** ** [getCodeSnippet] *)

Lemma split_lines_go_nonempty s : forall cur, split_lines_go s cur <> [].
Proof.
  induction s as [|a s IH]; intros cur; cbn [split_lines_go]; [discriminate|].
  destruct (Ascii.eqb a (ascii_of_nat 10)); [discriminate|].
  destruct (Ascii.eqb a (ascii_of_nat 13)); [|apply IH].
  destruct s as [|b s]; [discriminate|].
  destruct (Ascii.eqb b (ascii_of_nat 10)); [discriminate | apply IH].
Qed.

Lemma getCodeSnippet_read h filePath lineNumber fileContent :
  readFileSync h filePath = Returns fileContent ->
  (1 <= lineNumber)%Z ->
  getCodeSnippet h filePath lineNumber
  = let lines := split_lines fileContent in
    let startLine := Z.to_nat (Z.max 0 (lineNumber - 2)) in
    let endLine := Z.to_nat (Z.min (Z.of_nat (length lines)) (lineNumber + 1)) in
    if (length lines <=? startLine)%nat then Throws "Line number is out of range."
    else
      Returns (fenced match slice lines startLine endLine with
                      | first :: rest =>
                          if String.eqb (trim first) EmptyString then rest
                          else first :: rest
                      | [] => []
                      end).
Proof.
  intros R L. unfold getCodeSnippet. apply Z.ltb_ge in L. rewrite L, R.
  cbn [obind]. cbv zeta. fold (split_lines fileContent).
  destruct (length (split_lines fileContent) <=? _)%nat; [reflexivity|].
  destruct (slice _ _ _) as [|first rest]; reflexivity.
Qed.

(** X6.  What [getCodeSnippet] returns, when it returns.  The window of
    the given line runs from the line before it, or from the first line of
    the file, up to the line after it, or to the last line of the file; it
    holds at least one line.  The result is the fenced block of the lines
    of the window, in order, without the first of them if that one is
    blank. *)
Theorem getCodeSnippet_excerpt (h : Host) (filePath : string) (lineNumber : Z)
    (fileContent out : string) :
  readFileSync h filePath = Returns fileContent ->
  getCodeSnippet h filePath lineNumber = Returns out ->
  (1 <= lineNumber)%Z
  /\ exists before blank snippet after,
       split_lines fileContent = before ++ blank ++ snippet ++ after
       /\ out = fenced snippet
       /\ Z.of_nat (length before) = Z.max 0 (lineNumber - 2)
       /\ Z.of_nat (length (before ++ blank ++ snippet))
          = Z.min (Z.of_nat (length (split_lines fileContent))) (lineNumber + 1)
       /\ ((blank = []
            /\ exists first others, snippet = first :: others /\ trim first <> EmptyString)
           \/ exists first, blank = [first] /\ trim first = EmptyString).
Proof.
  intros R E.
  assert (L : (1 <= lineNumber)%Z).
  { unfold getCodeSnippet in E. destruct (lineNumber <? 1)%Z eqn:Lt; [discriminate E|].
    apply Z.ltb_ge in Lt. exact Lt. }
  split; [exact L|]. rewrite (getCodeSnippet_read h filePath lineNumber fileContent R L) in E.
  cbv zeta in E. set (lines := split_lines fileContent) in *.
  set (startLine := Z.to_nat (Z.max 0 (lineNumber - 2))) in *.
  set (endLine := Z.to_nat (Z.min (Z.of_nat (length lines)) (lineNumber + 1))) in *.
  assert (Hs : Z.of_nat startLine = Z.max 0 (lineNumber - 2)) by (subst startLine; lia).
  assert (He : Z.of_nat endLine = Z.min (Z.of_nat (length lines)) (lineNumber + 1))
    by (subst endLine; lia).
  destruct (length lines <=? startLine)%nat eqn:B; [discriminate E|].
  apply Nat.leb_gt in B. injection E as <-.
  assert (Split : lines = take startLine lines ++ slice lines startLine endLine
                          ++ drop (endLine - startLine) (drop startLine lines)).
  { unfold slice. rewrite take_drop, take_drop. reflexivity. }
  assert (Ls : length (slice lines startLine endLine) = endLine - startLine).
  { unfold slice. rewrite length_take, length_drop. lia. }
  assert (Lt : length (take startLine lines) = startLine).
  { rewrite length_take. lia. }
  destruct (slice lines startLine endLine) as [|first others] eqn:Sl;
    [simpl in Ls; exfalso; lia|].
  destruct (String.eqb (trim first) EmptyString) eqn:Bl.
  - apply String.eqb_eq in Bl.
    exists (take startLine lines), [first], others,
      (drop (endLine - startLine) (drop startLine lines)).
    split; [exact Split|]. split; [reflexivity|]. split; [lia|].
    split; [rewrite length_app; simpl in *; lia|]. right. exists first. auto.
  - apply String.eqb_neq in Bl.
    exists (take startLine lines), [], (first :: others),
      (drop (endLine - startLine) (drop startLine lines)).
    split; [exact Split|]. split; [reflexivity|]. split; [lia|].
    split; [rewrite length_app; simpl in *; lia|]. left. split; [reflexivity|].
    exists first, others. auto.
Qed.

Lemma getCodeSnippet_excerpt_witness :
  exists before blank snippet after,
    split_lines blank_second_line = before ++ blank ++ snippet ++ after
    /\ fenced ["it('fails', () => {"; "  expect(1).toBe(2);"] = fenced snippet
    /\ Z.of_nat (length before) = 1%Z
    /\ Z.of_nat (length (before ++ blank ++ snippet)) = 4%Z
    /\ ((blank = []
         /\ exists first others, snippet = first :: others /\ trim first <> EmptyString)
        \/ exists first, blank = [first] /\ trim first = EmptyString).
Proof.
  exact (proj2 (getCodeSnippet_excerpt (host_with_file "/work/a.test.ts" blank_second_line)
                  "/work/a.test.ts" 3 blank_second_line
                  (fenced ["it('fails', () => {"; "  expect(1).toBe(2);"])
                  eq_refl eq_refl)).
Defined.

(** X7.  When [getCodeSnippet] throws: for a line number below 1; with the
    error of the read, when the file cannot be read; and when the line
    before the given one lies behind the last line of the file.  A file has
    at least one line, so for the lines 1 and 2 of a readable file it
    returns. *)
Theorem getCodeSnippet_errors (h : Host) (filePath : string) (lineNumber : Z) :
  ((lineNumber < 1)%Z ->
   getCodeSnippet h filePath lineNumber = Throws "Line number must be 1 or greater.")
  /\ (forall e, (1 <= lineNumber)%Z -> readFileSync h filePath = Throws e ->
                getCodeSnippet h filePath lineNumber = Throws e)
  /\ (forall fileContent,
        (1 <= lineNumber)%Z -> readFileSync h filePath = Returns fileContent ->
        if (Z.of_nat (length (split_lines fileContent)) <=? lineNumber - 2)%Z
        then getCodeSnippet h filePath lineNumber = Throws "Line number is out of range."
        else exists out, getCodeSnippet h filePath lineNumber = Returns out)
  /\ (forall fileContent,
        (1 <= lineNumber <= 2)%Z -> readFileSync h filePath = Returns fileContent ->
        exists out, getCodeSnippet h filePath lineNumber = Returns out).
Proof.
  assert (Read : forall fileContent,
    (1 <= lineNumber)%Z -> readFileSync h filePath = Returns fileContent ->
    if (Z.of_nat (length (split_lines fileContent)) <=? lineNumber - 2)%Z
    then getCodeSnippet h filePath lineNumber = Throws "Line number is out of range."
    else exists out, getCodeSnippet h filePath lineNumber = Returns out).
  { intros fileContent L R.
    assert (N : 0 < length (split_lines fileContent)).
    { pose proof (split_lines_go_nonempty fileContent EmptyString) as N.
      fold (split_lines fileContent) in N.
      destruct (split_lines fileContent); [contradiction | simpl; lia]. }
    rewrite (getCodeSnippet_read h filePath lineNumber fileContent R L). cbv zeta.
    destruct (Z.of_nat (length (split_lines fileContent)) <=? lineNumber - 2)%Z eqn:B.
    - apply Z.leb_le in B.
      destruct (Nat.leb_spec (length (split_lines fileContent))
                  (Z.to_nat (Z.max 0 (lineNumber - 2)))) as [_|G]; [reflexivity | exfalso; lia].
    - apply Z.leb_gt in B.
      destruct (Nat.leb_spec (length (split_lines fileContent))
                  (Z.to_nat (Z.max 0 (lineNumber - 2)))) as [G|_]; [exfalso; lia | eauto]. }
  split; [|split; [|split; [exact Read|]]].
  - intros L. unfold getCodeSnippet. apply Z.ltb_lt in L. rewrite L. reflexivity.
  - intros e L R. unfold getCodeSnippet. apply Z.ltb_ge in L. rewrite L, R. reflexivity.
  - intros fileContent L R. specialize (Read fileContent (proj1 L) R).
    pose proof (split_lines_go_nonempty fileContent EmptyString) as N.
    fold (split_lines fileContent) in N.
    destruct (Z.of_nat (length (split_lines fileContent)) <=? lineNumber - 2)%Z eqn:B;
      [|exact Read].
    apply Z.leb_le in B. destruct (split_lines fileContent); [contradiction | simpl in B; lia].
Qed.

Lemma getCodeSnippet_errors_witness :
  getCodeSnippet sample_host "/work/tests/sample.test.ts" 0
  = Throws "Line number must be 1 or greater.".
Proof.
  apply (proj1 (getCodeSnippet_errors sample_host "/work/tests/sample.test.ts" 0)). lia.
Defined.

(** ** [determineTestType] *)

Lemma toLowerCase_append s1 s2 :
  toLowerCase (s1 +:+ s2) = toLowerCase s1 +:+ toLowerCase s2.
Proof. induction s1 as [|a s1 IH]; simpl; [reflexivity | rewrite IH; reflexivity]. Qed.

Lemma includes_unfold s sub :
  includes s sub
  = if String.prefix sub s then true
    else match s with
         | EmptyString => false
         | String _ s' => includes s' sub
         end.
Proof. destruct s; reflexivity. Qed.

Lemma includes_append before sub after : includes (before +:+ sub +:+ after) sub = true.
Proof.
  induction before as [|a before IH]; rewrite includes_unfold.
  - cbn [String.append]. rewrite prefix_append. reflexivity.
  - cbn [String.append]. rewrite IH. destruct (String.prefix _ _); reflexivity.
Qed.

Lemma determineTestType_unfold name :
  determineTestType name
  = let lower := toLowerCase name in
    if existsb (includes lower) before_keywords then BEFORE
    else if existsb (includes lower) after_keywords then AFTER
    else TEST.
Proof.
  unfold determineTestType. cbv zeta. cbn [existsb before_keywords after_keywords].
  rewrite !orb_false_r, !orb_assoc. reflexivity.
Qed.

(** X8.  A name that contains one of the five before-keywords, in whatever
    letter case, is classified BEFORE, whatever else the name contains, an
    after-keyword included. *)
Theorem determineTestType_before (front keyword back : string) :
  In (toLowerCase keyword) before_keywords ->
  determineTestType (front +:+ keyword +:+ back) = BEFORE.
Proof.
  intros K. rewrite determineTestType_unfold. cbv zeta.
  rewrite !toLowerCase_append.
  assert (E : existsb (includes (toLowerCase front +:+ toLowerCase keyword
                                 +:+ toLowerCase back)) before_keywords = true).
  { apply existsb_exists. exists (toLowerCase keyword). split; [exact K|].
    apply includes_append. }
  rewrite E. reflexivity.
Qed.

Lemma determineTestType_before_witness :
  determineTestType ("afterAll: global test " +:+ "SetUp" +:+ " check") = BEFORE.
Proof.
  apply (determineTestType_before "afterAll: global test " "SetUp" " check").
  simpl. auto 10.
Defined.

(** X9.  A name that contains one of the five after-keywords, in whatever
    letter case, and none of the before-keywords is classified AFTER. *)
Theorem determineTestType_after (front keyword back : string) :
  In (toLowerCase keyword) after_keywords ->
  (forall k, In k before_keywords ->
             includes (toLowerCase (front +:+ keyword +:+ back)) k = false) ->
  determineTestType (front +:+ keyword +:+ back) = AFTER.
Proof.
  intros K N. rewrite determineTestType_unfold. cbv zeta.
  assert (B : existsb (includes (toLowerCase (front +:+ keyword +:+ back)))
                      before_keywords = false).
  { destruct (existsb _ before_keywords) eqn:E; [|reflexivity].
    apply existsb_exists in E as (k & I & T). rewrite (N k I) in T. discriminate T. }
  rewrite B. rewrite !toLowerCase_append.
  assert (E : existsb (includes (toLowerCase front +:+ toLowerCase keyword
                                 +:+ toLowerCase back)) after_keywords = true).
  { apply existsb_exists. exists (toLowerCase keyword). split; [exact K|].
    apply includes_append. }
  rewrite E. reflexivity.
Qed.

Lemma determineTestType_after_witness :
  determineTestType (EmptyString +:+ "afterAll" +:+ " cleanup") = AFTER.
Proof.
  apply (determineTestType_after EmptyString "afterAll" " cleanup").
  - simpl. auto 10.
  - intros k I. simpl in I.
    destruct I as [<-|[<-|[<-|[<-|[<-|[]]]]]]; vm_compute; reflexivity.
Defined.

(** ** The rows of the coverage table *)

Lemma mapM_outcome_Forall2 {A B} (f : A -> Outcome B) l : forall bs,
  mapM_outcome f l = Returns bs -> Forall2 (fun a b => f a = Returns b) l bs.
Proof.
  induction l as [|a l IH]; intros bs E; simpl in E.
  - injection E as <-. constructor.
  - apply obind_returns in E as (b & Eb & E). apply obind_returns in E as (bs' & Ebs & E).
    injection E as <-. constructor; [exact Eb | apply IH; exact Ebs].
Qed.

(** X11.  A table that comes out of the first [try] block has one of two
    forms.  For a coverage map: the header, at most one "All files" row, and
    then exactly one row per file that [files()] lists, in the order of
    [files().sort()], each row being the one [file_row] makes for its file.
    For an aggregate-only summary: the header and exactly one row, the
    "All files" row of the summary itself. *)
Theorem coverage_rows_shape (h : Host) (coverage : Value) (table : string) :
  coverage_rows h coverage = Returns (Some table) ->
  (exists listFiles listed sorted aggregate rows,
     get h coverage "files" = Returns listFiles
     /\ invoke h listFiles coverage [] = Returns listed
     /\ sort_files h listed = Returns sorted
     /\ Forall2 (fun file row => file_row h coverage file = Returns row) sorted rows
     /\ length aggregate <= 1
     /\ Forall (fun row => startsWith row "**All files** | " = true) aggregate
     /\ table = join LF (table_header ++ aggregate ++ rows))
  \/ (exists row,
        all_files_row h coverage = Returns row
        /\ table = join LF (table_header ++ [row])).
Proof.
  unfold coverage_rows. intros E.
  apply obind_returns in E as (isMap & _ & E). destruct isMap.
  - left.
    apply obind_returns in E as (gcs & _ & E).
    apply obind_returns in E as (rows0 & R & E).
    apply obind_returns in E as (ff & Eff & E).
    apply obind_returns in E as (files & Efiles & E).
    apply obind_returns in E as (sorted & Esorted & E).
    apply obind_returns in E as (fileRows & Erows & E).
    injection E as <-.
    assert (Agg : exists aggregate,
               rows0 = table_header ++ aggregate /\ length aggregate <= 1
               /\ Forall (fun row => startsWith row "**All files** | " = true) aggregate).
    { destruct (is_function gcs).
      - apply obind_returns in R as (s & _ & R).
        apply obind_returns in R as (summary & _ & R).
        apply obind_returns in R as (row & Erow & R). injection R as <-.
        exists [row]. split; [reflexivity|]. split; [simpl; lia|].
        constructor; [|constructor]. unfold all_files_row in Erow.
        apply obind_returns in Erow as (totals & _ & Erow).
        apply obind_returns in Erow as (cells & _ & Erow). injection Erow as <-.
        unfold startsWith. exact (prefix_append "**All files** | " cells).
      - injection R as <-. exists []. rewrite app_nil_r. split; [reflexivity|].
        split; [simpl; lia | constructor]. }
    destruct Agg as (aggregate & -> & Len & Starts).
    exists ff, files, sorted, aggregate, fileRows.
    split; [exact Eff|]. split; [exact Efiles|]. split; [exact Esorted|].
    split; [apply mapM_outcome_Forall2; exact Erows|]. split; [exact Len|].
    split; [exact Starts|]. rewrite <- app_assoc. reflexivity.
  - right.
    apply obind_returns in E as (isSummary & _ & E). destruct isSummary; [|discriminate E].
    apply obind_returns in E as (row & Erow & E). injection E as <-.
    exists row. split; [exact Erow | reflexivity].
Qed.

Lemma coverage_rows_shape_witness :
  exists row,
    all_files_row sample_host summary_only = Returns row
    /\ "| File | Lines | Statements | Branches | Functions |" +:+ LF +:+
       "| ---- | ----: | ---------: | -------: | --------: |" +:+ LF +:+
       "**All files** | 75.0% (15/20) | 100.0% (20/20) | 100.0% (0/0) | 100.0% (2/2)"
       = join LF (table_header ++ [row]).
Proof.
  destruct (coverage_rows_shape sample_host summary_only
              ("| File | Lines | Statements | Branches | Functions |" +:+ LF +:+
               "| ---- | ----: | ---------: | -------: | --------: |" +:+ LF +:+
               "**All files** | 75.0% (15/20) | 100.0% (20/20) | 100.0% (0/0) | 100.0% (2/2)")
              eq_refl) as [(lf & li & so & ag & ro & G & I & _)|(row & R & T)].
  - injection G as <-. discriminate I.
  - exists row. split; [exact R | exact T].
Defined.

(** ** The coverage snapshot is consumed once *)

Lemma reportCoverageSummary_absent h c w :
  truthy (coverage (rep w)) = false -> reportCoverageSummary h c w = (Returns tt, w).
Proof.
  intros F. unfold reportCoverageSummary.
  rewrite (bind_eq this _ w (rep w) w eq_refl). rewrite F. reflexivity.
Qed.

(** X12.  [reportCoverageSummary] never throws, and it leaves no snapshot
    behind: whether it made the report, failed while making it or found
    nothing to report, a second call right after it does nothing at all. *)
Theorem coverage_consumed_once (h : Host) (c : Client) (w w1 : World) (r : Outcome unit) :
  reportCoverageSummary h c w = (r, w1) ->
  r = Returns tt
  /\ truthy (coverage (rep w1)) = false
  /\ reportCoverageSummary h c w1 = (Returns tt, w1).
Proof.
  intros E. destruct (truthy (coverage (rep w))) eqn:T.
  - destruct (formatCoverageMarkdownTable_returns h (coverage (rep w))) as [table F].
    destruct (reportCoverageSummary_present h c w table T F) as (es & suites' & R & _).
    rewrite R in E. injection E as <- <-. split; [reflexivity|].
    split; [reflexivity|]. apply reportCoverageSummary_absent. reflexivity.
  - rewrite (reportCoverageSummary_absent h c w T) in E. injection E as <- <-.
    split; [reflexivity|]. split; [exact T|]. apply reportCoverageSummary_absent. exact T.
Qed.

Lemma coverage_consumed_once_witness :
  truthy (coverage (rep (coverage_observed sample_client))) = true
  /\ coverage (rep coverage_reported) = VUndefined
  /\ reportCoverageSummary sample_host sample_client coverage_reported
     = (Returns tt, coverage_reported).
Proof.
  assert (E : reportCoverageSummary sample_host sample_client (coverage_observed sample_client)
              = (Returns tt, coverage_reported)) by (vm_compute; reflexivity).
  destruct (coverage_consumed_once sample_host sample_client _ _ _ E) as (_ & _ & Again).
  split; [reflexivity|]. split; [vm_compute; reflexivity | exact Again].
Defined.

(** ** The run identifier is stable *)

Lemma ensureTestStarted_no_new_run h c test :
  respects no_new_run testRunId (ensureTestStarted h c test).
Proof.
  unfold ensureTestStarted, flushBufferedLogs. respects_auto.
  - eapply respects_weaken; [| |apply getOrStartSuiteForTest_respects].
    + intros [] E; try discriminate E; reflexivity.
    + unfold but_suites. intros r r' E. congruence.
  - eapply respects_weaken; [| |apply (forward_log_respects h c _ _ testRunId)].
    + intros [] E; try discriminate E; reflexivity.
    + auto.
Qed.

Lemma handle_no_new_run h c ev :
  ev <> TestRunStart -> respects no_new_run testRunId (handle h c ev).
Proof.
  intros N. destruct ev as [|test|test|entry|test artifact|coverage]; [contradiction| | | | |];
    cbn [handle].
  - unfold onTestCaseReady. respects_auto. apply ensureTestStarted_no_new_run.
  - unfold onTestCaseResult, report_error. respects_auto.
    apply ensureTestStarted_no_new_run.
  - unfold onUserConsoleLog. respects_auto.
    eapply respects_weaken; [| |apply (forward_log_respects h c _ _ testRunId)].
    + intros [] E; try discriminate E; reflexivity.
    + auto.
  - unfold onTestCaseArtifactRecord. respects_auto.
  - unfold onCoverage. respects_auto.
Qed.

Lemma run_events_no_new_run h c u evs : forall w,
  testRunId (rep w) = Some u ->
  changes no_new_run testRunId w (run_events h c evs w).
Proof.
  induction evs as [|ev evs IH]; intros w R; [apply changes_refl|].
  rewrite run_events_cons.
  assert (Step : changes no_new_run testRunId w (snd (handle h c ev w))).
  { assert (Cases : ev = TestRunStart \/ ev <> TestRunStart)
      by (destruct ev; [left; reflexivity | right; discriminate ..]).
    destruct Cases as [->|N].
    - cbn [handle]. rewrite (onTestRunStart_open c w u R). apply changes_refl.
    - destruct (handle h c ev w) as [r w1] eqn:E.
      exact (handle_no_new_run h c ev N w r w1 E). }
  eapply changes_trans; [exact Step|]. apply IH.
  destruct Step as [F _]. rewrite F. exact R.
Qed.

(** X13.  Once a run is open, no sequence of runner events, repeated run
    starts included, changes the recorded run identifier or makes another
    run-creation call. *)
Theorem run_identifier_stable (h : Host) (c : Client) (w : World) (u : UUID)
    (evs : list RunnerEvent) :
  testRunId (rep w) = Some u ->
  testRunId (rep (run_events h c evs w)) = Some u
  /\ count is_StartTestRun (emitted w (run_events h c evs w)) = 0.
Proof.
  intros R. destruct (run_events_no_new_run h c u evs w R) as [F (es & T & A)].
  split; [rewrite F; exact R|]. rewrite (emitted_app _ _ _ T). apply count_none. exact A.
Qed.

Lemma run_identifier_stable_witness :
  testRunId (rep (run_events sample_host sample_client sample_events open_run))
    = Some "run-uuid"
  /\ count is_StartTestRun
       (trace (run_events sample_host sample_client sample_events open_run)) = 1.
Proof.
  destruct (run_identifier_stable sample_host sample_client open_run "run-uuid"
              sample_events eq_refl) as [R _].
  split; [exact R | vm_compute; reflexivity].
Defined.

(** ** Memoized suites are never dropped *)

Lemma suites_kept_refl w : suites_kept w w.
Proof. intros key u K. exact K. Qed.

Lemma suites_kept_trans w1 w2 w3 :
  suites_kept w1 w2 -> suites_kept w2 w3 -> suites_kept w1 w3.
Proof. intros H1 H2 key u K. apply H2, H1, K. Qed.

Lemma keeps_bind {A B} (m : M A) (k : A -> M B) :
  keeps suites_kept m -> (forall a, keeps suites_kept (k a)) -> keeps suites_kept (bind m k).
Proof.
  intros Hm Hk w r w'. unfold bind. destruct (m w) as [[a|e] w1] eqn:E; intros E'.
  - eapply suites_kept_trans; [eapply Hm; exact E | eapply Hk; exact E'].
  - injection E' as _ <-. eapply Hm; exact E.
Qed.

Lemma keeps_of_respects {A} (P : Event -> Prop) (m : M A) :
  respects P suites m -> keeps suites_kept m.
Proof.
  intros Hm w r w' E key u K. destruct (Hm w r w' E) as [F _]. rewrite F. exact K.
Qed.

Lemma resolve_segments_keeps c path : forall keyParts parent,
  keeps suites_kept (resolve_segments c path keyParts parent).
Proof.
  induction path as [|segment rest IH]; intros keyParts parent w r w' E.
  - injection E as _ <-. apply suites_kept_refl.
  - cbn [resolve_segments] in E. rewrite (bind_eq this _ w (rep w) w eq_refl) in E.
    destruct (suites (rep w) !! join "|" (keyParts ++ [segment])) as [existing|] eqn:K.
    + exact (IH _ _ _ _ _ E).
    + unfold bind at 1, client_call in E.
      destruct (startSuite c _) as [[[|first others]|]|e].
      * exact (IH _ _ _ _ _ E).
      * rewrite bind_modify in E. apply IH in E.
        intros key u Ku. apply E. cbn [rep set_suites suites].
        rewrite lookup_insert_ne; [exact Ku|]. intros <-. rewrite K in Ku. discriminate Ku.
      * exact (IH _ _ _ _ _ E).
      * injection E as _ <-. intros key u Ku. exact Ku.
Qed.

Lemma ensureTestStarted_keeps h c test : keeps suites_kept (ensureTestStarted h c test).
Proof.
  unfold ensureTestStarted.
  apply keeps_bind; [apply (keeps_of_respects (fun _ => True)); apply respects_this|].
  intros r. destruct (tests r !! tc_id test).
  - apply (keeps_of_respects (fun _ => True)). apply respects_ret.
  - apply keeps_bind.
    + unfold getOrStartSuiteForTest.
      apply keeps_bind; [apply (keeps_of_respects (fun _ => True)); apply respects_lift|].
      intros path. apply keeps_bind; [apply resolve_segments_keeps|].
      intros [u|]; apply (keeps_of_respects (fun _ => True)); respects_auto.
    + intros suiteUUID. apply (keeps_of_respects (fun _ => True)).
      unfold flushBufferedLogs. respects_auto.
      eapply respects_weaken; [| |apply (forward_log_respects h c _ _ suites)]; auto.
Qed.

Lemma handle_keeps h c ev : keeps suites_kept (handle h c ev).
Proof.
  destruct ev as [|test|test|entry|test artifact|coverage]; cbn [handle].
  - apply (keeps_of_respects (fun _ => True)). unfold onTestRunStart. respects_auto.
  - unfold onTestCaseReady. apply keeps_bind; [apply ensureTestStarted_keeps|].
    intros u. apply (keeps_of_respects (fun _ => True)). respects_auto.
  - unfold onTestCaseResult. apply keeps_bind; [apply ensureTestStarted_keeps|].
    intros u. apply (keeps_of_respects (fun _ => True)).
    unfold report_error. respects_auto.
  - apply (keeps_of_respects (fun _ => True)). unfold onUserConsoleLog. respects_auto.
    eapply respects_weaken; [| |apply (forward_log_respects h c _ _ suites)]; auto.
  - apply (keeps_of_respects (fun _ => True)). unfold onTestCaseArtifactRecord.
    respects_auto.
  - apply (keeps_of_respects (fun _ => True)). unfold onCoverage. respects_auto.
Qed.

(** X14.  Suites are never deleted during a run: whatever events the
    runner delivers, every key of the suite map keeps the identifier it was
    memoized with. *)
Theorem suites_never_dropped (h : Host) (c : Client) (evs : list RunnerEvent) (w : World)
    (key : string) (u : UUID) :
  suites (rep w) !! key = Some u ->
  suites (rep (run_events h c evs w)) !! key = Some u.
Proof.
  revert w. induction evs as [|ev evs IH]; intros w K; [exact K|].
  rewrite run_events_cons. apply IH.
  destruct (handle h c ev w) as [r w1] eqn:E.
  exact (handle_keeps h c ev w r w1 E key u K).
Qed.

Lemma suites_never_dropped_witness :
  suites (rep (run_events sample_host sample_client sample_events test_started))
    !! "tests/sample.test.ts|sample suite" = Some "suite-uuid-3".
Proof.
  apply (suites_never_dropped sample_host sample_client sample_events test_started).
  vm_compute. reflexivity.
Defined.

(** ** Starting a test twice, finishing a test twice *)

Lemma ensureTestStarted_known h c test testUUID w :
  tests (rep w) !! tc_id test = Some testUUID ->
  ensureTestStarted h c test w = (Returns testUUID, w).
Proof.
  intros K. unfold ensureTestStarted.
  rewrite (bind_eq this _ w (rep w) w eq_refl). rewrite K. reflexivity.
Qed.

Lemma count_app p (es1 es2 : list Event) : count p (es1 ++ es2) = count p es1 + count p es2.
Proof. unfold count. rewrite filter_app, length_app. reflexivity. Qed.

Lemma count_other p q (es : list Event) :
  (forall e, q e = true -> p e = false) ->
  Forall (fun e => q e = true) es -> count p es = 0.
Proof.
  intros PQ A. apply count_none. eapply Forall_impl; [exact A|]. exact PQ.
Qed.

Lemma count_map_log_call p run testUUID fs :
  (forall e, is_Log e = true -> p e = false) ->
  count p (map (log_call run testUUID) fs) = 0.
Proof.
  intros PQ. apply count_none. apply Forall_map. apply Forall_forall.
  intros f _. apply PQ. reflexivity.
Qed.

(** The start of a test that was not known makes exactly one test-creation
    call. *)
Lemma ensureTestStarted_unknown_count h c test testUUID w w' :
  tests (rep w) !! tc_id test = None ->
  ensureTestStarted h c test w = (Returns testUUID, w') ->
  count is_StartTest (emitted w w') = 1
  /\ tests (rep w') !! tc_id test = Some testUUID.
Proof.
  intros K E.
  destruct (ensureTestStarted_unknown h c test testUUID w w' K E)
    as (creations & suiteUUID & fs & Cr & _ & T & Ts & _).
  split; [|rewrite Ts; apply lookup_insert_eq].
  rewrite (emitted_app _ _ _ T), !count_app.
  rewrite (count_other is_StartTest is_StartSuite creations); [| |exact Cr].
  - rewrite count_map_log_call; [reflexivity|]. intros []; try discriminate; reflexivity.
  - intros []; try discriminate; reflexivity.
Qed.

(** X15.  Test creation is idempotent per identifier.  When
    [onTestCaseReady] returns normally, a second readiness event for the same
    test does nothing at all; and the first one made exactly one
    test-creation call if the test was not known, and none if it was. *)
Theorem test_start_idempotent (h : Host) (c : Client) (w w' : World) (test : TestCase) :
  onTestCaseReady h c test w = (Returns tt, w') ->
  onTestCaseReady h c test w' = (Returns tt, w')
  /\ count is_StartTest (emitted w w')
     = match tests (rep w) !! tc_id test with Some _ => 0 | None => 1 end.
Proof.
  unfold onTestCaseReady. intros E.
  apply bind_returns in E as (testUUID & w1 & E & R). injection R as <-.
  destruct (tests (rep w) !! tc_id test) as [known|] eqn:K.
  - rewrite (ensureTestStarted_known h c test known w K) in E. injection E as <- <-.
    rewrite (bind_eq _ _ _ _ _ (ensureTestStarted_known h c test known w K)).
    split; [reflexivity|]. unfold emitted. rewrite drop_all. reflexivity.
  - destruct (ensureTestStarted_unknown_count h c test testUUID w w1 K E) as [C Ts].
    rewrite (bind_eq _ _ _ _ _ (ensureTestStarted_known h c test testUUID w1 Ts)).
    split; [reflexivity | exact C].
Qed.

Lemma test_start_idempotent_witness :
  onTestCaseReady sample_host sample_client attachment_test test_started
  = (Returns tt, test_started)
  /\ count is_StartTest (trace test_started) = 1.
Proof.
  assert (E : onTestCaseReady sample_host sample_client attachment_test open_run
              = (Returns tt, test_started)) by (vm_compute; reflexivity).
  destruct (test_start_idempotent sample_host sample_client open_run test_started
              attachment_test E) as [Again _].
  split; [exact Again | vm_compute; reflexivity].
Defined.

Lemma report_error_logs h c test testUUID error :
  respects (fun e => is_Log e = true) testRunId (report_error h c test testUUID error).
Proof. unfold report_error. respects_auto. Qed.

(** X16.  The result callback is not idempotent.  It removes the test from
    the active map, so a second result event for the same test, when it
    goes through, starts the test remotely once more: it makes exactly one
    new test-creation call. *)
Theorem repeated_result_restarts_test (h : Host) (c : Client) (w w1 w2 : World)
    (test : TestCase) :
  onTestCaseResult h c test w = (Returns tt, w1) ->
  onTestCaseResult h c test w1 = (Returns tt, w2) ->
  count is_StartTest (emitted w1 w2) = 1.
Proof.
  intros E1 E2. pose proof (onTestCaseResult_forgets h c test w w1 E1) as K.
  unfold onTestCaseResult in E2.
  apply bind_returns in E2 as (testUUID & wa & Ea & E2).
  apply bind_returns in E2 as ([] & wb & Eb & E2).
  apply bind_returns in E2 as ([] & wc & Ec & E2).
  injection E2 as <-.
  destruct (ensureTestStarted_unknown_count h c test testUUID w1 wa K Ea) as [C _].
  destruct (ensureTestStarted_no_finish h c test _ _ _ Ea) as [_ (esa & Ta & _)].
  rewrite (emitted_app _ _ _ Ta) in C.
  assert (Cb : changes (fun e => is_Log e = true) testRunId wa wb).
  { destruct (tc_result test) as [res|]; [|injection Eb as <-; apply changes_refl].
    destruct (res_errors res) as [[|e es]|]; try (injection Eb as <-; apply changes_refl).
    revert Eb. apply respects_for_each. intros a. apply report_error_logs. }
  destruct Cb as [_ (esb & Tb & Ab)].
  assert (Cc : exists esc, trace wc = trace wb ++ esc /\ count is_StartTest esc = 0).
  { destruct (result_status (tc_result test)) as [status|].
    - rewrite (bind_eq this _ wb (rep wb) wb eq_refl) in Ec.
      injection Ec as _ <-. eexists. split; reflexivity.
    - injection Ec as <-. exists []. rewrite app_nil_r. split; reflexivity. }
  destruct Cc as (esc & Tc & Cc).
  assert (T : trace wc = trace w1 ++ esa ++ esb ++ esc).
  { rewrite Tc, Tb, Ta, <- !app_assoc. reflexivity. }
  simpl. rewrite (emitted_app w1 {| rep := _; trace := trace wc |} _ T).
  rewrite !count_app, C, Cc.
  rewrite (count_other is_StartTest is_Log esb); [reflexivity | | exact Ab].
  intros []; try discriminate; reflexivity.
Qed.

Lemma repeated_result_restarts_test_witness :
  count is_StartTest
    (emitted (after_result failed_test)
       (snd (onTestCaseResult sample_host sample_client failed_test
               (after_result failed_test)))) = 1.
Proof.
  apply (repeated_result_restarts_test sample_host sample_client open_run
           (after_result failed_test) _ failed_test); vm_compute; reflexivity.
Defined.

(** ** Uploads *)

Lemma last_segment_go_no_separator name : forall cur,
  no_separator name = true -> last_segment_go name cur = cur +:+ name.
Proof.
  induction name as [|a name IH]; intros cur N; simpl.
  - symmetry. apply append_nil_r.
  - unfold no_separator in N. simpl in N. apply andb_prop in N as [Na N].
    apply negb_true_iff in Na. rewrite Na. rewrite (IH _ N), append_assoc. reflexivity.
Qed.

Lemma last_segment_go_separator dir sep name : forall cur,
  is_separator sep = true ->
  last_segment_go (dir +:+ String sep name) cur = last_segment_go name EmptyString.
Proof.
  induction dir as [|a dir IH]; intros cur S; simpl.
  - rewrite S. reflexivity.
  - destruct (is_separator a); apply IH; exact S.
Qed.

(** X17.  An upload is sent under the base name of its file.  When the read
    of a pending upload succeeds, exactly one call is made, [sendAttachment],
    and the name it carries is what follows the last [/] or [\] of the
    path; the promise is then fulfilled if the client took the call and
    rejected with the client's error if it threw. *)
Theorem upload_sent_under_base_name (c : Client) (w : World) (i : nat) (u : Upload)
    (dir name : string) (sep : ascii) (content : list Byte.byte) :
  promises (rep w) !! i = Some u ->
  up_state u = Pending ->
  up_path u = dir +:+ String sep name ->
  is_separator sep = true ->
  no_separator name = true ->
  let w' := snd (resume_upload c i (Returns content) w) in
  let call := upload_call (testRunId (rep w)) u name content in
  emitted w w' = [call]
  /\ promises (rep w') !! i
     = Some (set_state match sendAttachment c (trace w ++ [call]) with
                       | Returns _ => Fulfilled
                       | Throws e => Rejected e
                       end u).
Proof.
  intros L P Pa S N. cbv zeta. unfold resume_upload.
  rewrite (bind_eq this _ w (rep w) w eq_refl). rewrite L, P.
  rewrite Pa, (last_segment_go_separator dir sep name EmptyString S : last_segment _ = _).
  rewrite (last_segment_go_no_separator name EmptyString N). cbn [String.append].
  unfold try_catchM, bind, client_call, settle, modify, upload_call. cbn.
  destruct (sendAttachment c _) as [[]|e]; cbn.
  all: split; [unfold emitted; cbn; rewrite drop_app_length; reflexivity|].
  all: rewrite list_lookup_alter_eq, L; reflexivity.
Qed.

Lemma upload_sent_under_base_name_witness :
  let w := snd (onTestCaseArtifactRecord sample_host sample_client attachment_test screenshot
                  test_started) in
  exists u content,
    promises (rep w) !! 0 = Some u
    /\ emitted w (snd (resume_upload sample_client 0 (Returns content) w))
       = [upload_call (testRunId (rep w)) u "screenshot.png" content].
Proof.
  cbv zeta. eexists _, [].
  split; [vm_compute; reflexivity|].
  refine (proj1 (upload_sent_under_base_name sample_client _ 0 _ "/work/artifacts" "screenshot.png" "/" []
                   _ _ _ _ _)); vm_compute; reflexivity.
Defined.

(** ** The end of the run *)

Lemma reportCoverageSummary_returns h c w :
  exists w', reportCoverageSummary h c w = (Returns tt, w').
Proof.
  destruct (truthy (coverage (rep w))) eqn:T.
  - destruct (formatCoverageMarkdownTable_returns h (coverage (rep w))) as [table F].
    destruct (reportCoverageSummary_present h c w table T F) as (es & suites' & R & _).
    eexists. exact R.
  - eexists. apply reportCoverageSummary_absent. exact T.
Qed.

Lemma finish_run_returns h c w :
  closes_runs c -> exists w', finish_run h c w = (Returns tt, w').
Proof.
  intros Cl. unfold finish_run.
  destruct (reportCoverageSummary_returns h c w) as [w1 R].
  rewrite (bind_eq _ _ _ _ _ R), (bind_eq this _ w1 (rep w1) w1 eq_refl).
  unfold client_call. rewrite Cl. eexists. reflexivity.
Qed.

Lemma promise_all_rejected ps e :
  promise_all ps = Rejected e -> In (Rejected e) ps.
Proof.
  unfold promise_all. destruct (omap rejection ps) as [|e' l] eqn:O.
  - destruct (forallb is_fulfilled ps); discriminate.
  - intros E. injection E as ->.
    assert (I : e ∈ omap rejection ps) by (rewrite O; left).
    apply list_elem_of_omap in I as (st & I & R). apply list_elem_of_In in I.
    destruct st; try discriminate R. injection R as ->. exact I.
Qed.

Lemma promise_all_unsettled ps :
  promise_all ps = Pending -> In Pending ps.
Proof.
  unfold promise_all. destruct (omap rejection ps) as [|e' l] eqn:O; [|discriminate].
  destruct (forallb is_fulfilled ps) eqn:F; [discriminate|]. intros _.
  induction ps as [|st ps IH]; [discriminate F|]. simpl in F, O.
  destruct st as [| |e]; simpl in *.
  - left. reflexivity.
  - right. apply IH; assumption.
  - discriminate O.
Qed.

Lemma In_map_lookup {A B} (f : A -> B) (l : list A) (b : B) :
  In b (map f l) -> exists i a, l !! i = Some a /\ f a = b.
Proof.
  intros I. apply in_map_iff in I as (a & E & I).
  apply list_elem_of_In, list_elem_of_lookup in I as [i L]. exists i, a. split; assumption.
Qed.

(** A successful read settles its own upload, if it was pending, as
    fulfilled, and leaves the other uploads as they were. *)
Lemma resume_upload_read c i content w j u1 :
  takes_uploads c ->
  promises (rep (snd (resume_upload c i (Returns content) w))) !! j = Some u1 ->
  exists u0, promises (rep w) !! j = Some u0
    /\ (up_state u1 = up_state u0 \/ up_state u0 = Pending /\ up_state u1 = Fulfilled)
    /\ (j = i -> up_state u1 <> Pending).
Proof.
  intros Tk. unfold resume_upload. rewrite (bind_eq this _ w (rep w) w eq_refl).
  destruct (promises (rep w) !! i) as [u|] eqn:L.
  - destruct (up_state u) eqn:P.
    + unfold try_catchM, bind, client_call, settle, modify. rewrite Tk. cbn.
      destruct (decide (i = j)) as [<-|N].
      * rewrite list_lookup_alter_eq, L. cbn. intros E. injection E as <-.
        exists u. split; [reflexivity|]. split; [right; split; [exact P | reflexivity]|].
        intros _. discriminate.
      * rewrite (list_lookup_alter_ne _ _ _ _ N). intros E. exists u1.
        split; [exact E|]. split; [left; reflexivity|]. intros ->. contradiction N. reflexivity.
    + cbn. intros E. exists u1. split; [exact E|]. split; [left; reflexivity|].
      intros ->. rewrite L in E. injection E as <-. rewrite P. discriminate.
    + cbn. intros E. exists u1. split; [exact E|]. split; [left; reflexivity|].
      intros ->. rewrite L in E. injection E as <-. rewrite P. discriminate.
  - cbn. intros E. exists u1. split; [exact E|]. split; [left; reflexivity|].
    intros ->. rewrite L in E. discriminate E.
Qed.

(** X18.  Safety of the run end.  Whenever [onTestRunEnd] resolves, every
    recorded upload is fulfilled, and the run was closed by exactly one
    call, which carries the identifier of the run and is the last thing the
    reporter did. *)
Theorem run_end_resolved_safely (h : Host) (c : Client)
    (settlements : list (nat * Outcome (list Byte.byte))) (w w' : World) :
  onTestRunEnd h c settlements w = (Resolved, w') ->
  Forall (fun u => up_state u = Fulfilled) (promises (rep w'))
  /\ count is_FinishTestRun (emitted w w') = 1
  /\ last (emitted w w') = Some (FinishTestRun (testRunId (rep w))).
Proof.
  intros E. destruct (onTestRunEnd_resolved_trace h c settlements w w' E)
    as [All (pre & T & C)].
  split; [exact All|]. rewrite (emitted_app _ _ _ T). split.
  - rewrite count_app, C. reflexivity.
  - apply last_snoc.
Qed.

Lemma run_end_resolved_safely_witness :
  exists w',
    onTestRunEnd sample_host sample_client [(0, Returns [])] one_upload = (Resolved, w')
    /\ count is_FinishTestRun (emitted one_upload w') = 1.
Proof.
  eexists. split; [vm_compute; reflexivity|].
  refine (proj1 (proj2 (run_end_resolved_safely sample_host sample_client [(0, Returns [])]
                          one_upload _ _))).
  vm_compute. reflexivity.
Defined.

(** X19.  Liveness of the run end.  When no upload has failed, the read of
    every pending upload succeeds while [onTestRunEnd] waits, and the client
    takes the uploads and the run-close call, then [onTestRunEnd] resolves:
    neither the coverage report nor reads of uploads that are already
    settled, or that were never recorded, can make it fail or hang. *)
Theorem run_end_resolves (h : Host) (c : Client)
    (settlements : list (nat * Outcome (list Byte.byte))) (w : World) :
  takes_uploads c ->
  closes_runs c ->
  reads_succeed settlements ->
  settled_by settlements (promises (rep w)) ->
  exists w', onTestRunEnd h c settlements w = (Resolved, w').
Proof.
  intros Tk Cl. revert w.
  induction settlements as [|[i bytes] rest IH]; intros w Rd St; simpl.
  all: destruct (promise_all (map up_state (promises (rep w)))) as [| |e] eqn:PA.
  all: try (destruct (finish_run_returns h c w Cl) as [w' F]; rewrite F; eexists; reflexivity).
  all: try (exfalso; apply promise_all_rejected, In_map_lookup in PA as (j & u & L & R);
            specialize (St j u L); rewrite R in St; exact St).
  - exfalso. apply promise_all_unsettled, In_map_lookup in PA as (j & u & L & R).
    specialize (St j u L). rewrite R in St. exact St.
  - apply Forall_cons in Rd as [[content B] Rd]. simpl in B. subst bytes.
    apply IH; [exact Rd|]. intros j u1 L.
    destruct (resume_upload_read c i content w j u1 Tk L) as (u0 & L0 & S & Ni).
    specialize (St j u0 L0). destruct (up_state u1) eqn:S1; [| exact I |].
    + destruct S as [S|[_ S]]; [|discriminate S]. rewrite <- S in St. simpl in St.
      destruct St as [<-|St]; [|exact St]. contradiction Ni; reflexivity.
    + destruct S as [S|[_ S]]; [|discriminate S]. rewrite <- S in St. exact St.
Qed.

Lemma sample_client_takes_uploads : takes_uploads sample_client.
Proof. intros tr. reflexivity. Qed.

Lemma sample_client_closes_runs : closes_runs sample_client.
Proof. intros tr. reflexivity. Qed.

Lemma run_end_resolves_witness :
  exists w',
    onTestRunEnd sample_host sample_client [(3, Returns []); (0, Returns [])] one_upload
    = (Resolved, w').
Proof.
  apply (run_end_resolves sample_host sample_client [(3, Returns []); (0, Returns [])]
           one_upload sample_client_takes_uploads sample_client_closes_runs).
  - repeat constructor; eexists; reflexivity.
  - intros [|i] u L; [|destruct i; discriminate L].
    vm_compute in L. injection L as <-. simpl. right. left. reflexivity.
Defined.

(** ** Reporting the errors of a result *)

Section LogsBetween.
Variable c : Client.
Hypothesis accepts : accepts_logs c.

Lemma logs_between_ret {A} (a : A) : logs_between 0 0 (ret a).
Proof.
  intros w. exists a, w, []. rewrite app_nil_r. repeat split; auto.
Qed.

Lemma logs_between_log f l m run u :
  logs_between 1 1 (client_call (Log f l m run u) (log c)).
Proof.
  intros w. unfold client_call. destruct (accepts (trace w ++ [Log f l m run u])) as [id E].
  rewrite E. eexists id, _, [_]. repeat split; auto.
Qed.

Lemma logs_between_bind {A B} lo1 hi1 lo2 hi2 (m : M A) (k : A -> M B) :
  logs_between lo1 hi1 m -> (forall a, logs_between lo2 hi2 (k a)) ->
  logs_between (lo1 + lo2) (hi1 + hi2) (bind m k).
Proof.
  intros Hm Hk w. destruct (Hm w) as (a & w1 & es1 & E1 & R1 & S1 & T1 & A1 & L1).
  destruct (Hk a w1) as (b & w2 & es2 & E2 & R2 & S2 & T2 & A2 & L2).
  exists b, w2, (es1 ++ es2). rewrite (bind_eq _ _ _ _ _ E1).
  split; [exact E2|]. split; [congruence|]. split; [congruence|].
  split; [rewrite T2, T1, <- app_assoc; reflexivity|].
  split; [apply Forall_app; split; assumption|]. rewrite length_app. lia.
Qed.

Lemma logs_between_weaken {A} lo hi lo' hi' (m : M A) :
  logs_between lo hi m -> lo' <= lo -> hi <= hi' -> logs_between lo' hi' m.
Proof.
  intros Hm Hl Hh w. destruct (Hm w) as (a & w1 & es & E & R & S & T & Al & L).
  exists a, w1, es. repeat split; auto; lia.
Qed.

Lemma logs_between_this_bind {B} lo hi (k : Reporter -> M B) :
  (forall r, logs_between lo hi (k r)) -> logs_between lo hi (bind this k).
Proof.
  intros Hk w. rewrite (bind_eq this _ w (rep w) w eq_refl). apply Hk.
Qed.

Lemma logs_between_for_each {A} lo hi (l : list A) body :
  (forall a, logs_between lo hi (body a)) ->
  logs_between (length l * lo) (length l * hi) (for_each l body).
Proof.
  intros Hb. induction l as [|a l IH]; simpl.
  - apply logs_between_ret.
  - apply logs_between_bind; [apply Hb | intros _; exact IH].
Qed.

Lemma logs_between_lift_bind {A B} lo hi (a : A) (k : A -> M B) :
  logs_between lo hi (k a) -> logs_between lo hi (bind (lift (Returns a)) k).
Proof. intros Hk w. exact (Hk w). Qed.

Lemma error_text_typed h error :
  typed_error error -> exists text, error_text h error = Returns text.
Proof.
  intros (props & -> & Hm & Hn & _). unfold error_text. cbn [get obind].
  destruct Hm as [->|[s ->]]; cbn [is_nullish obind].
  - destruct Hn as [->|[s ->]]; eexists; reflexivity.
  - eexists. reflexivity.
Qed.

Lemma report_error_returns h test testUUID error :
  typed_error error -> logs_between 1 3 (report_error h c test testUUID error).
Proof.
  intros Ty. destruct (error_text_typed h error Ty) as [text Et].
  destruct Ty as (props & -> & _ & _ & Hs).
  unfold report_error. rewrite Et. apply logs_between_lift_bind.
  apply logs_between_this_bind. intros r.
  change 3 with (1 + (1 + 1)). change 1 with (1 + (0 + 0)) at 1.
  apply logs_between_bind; [apply logs_between_log|]. intros _.
  cbn [get]. apply (logs_between_lift_bind (0 + 0) (1 + 1)).
  apply logs_between_bind.
  - destruct Hs as [->|[s ->]]; cbn [truthy].
    + apply (logs_between_weaken 0 0); [apply logs_between_ret|lia|lia].
    + destruct (truthy_string s).
      * cbn [removeAnsi_value]. apply (logs_between_lift_bind 0 1).
        apply (logs_between_weaken (1 + 0) (1 + 0)); [|lia|lia].
        apply logs_between_bind; [apply logs_between_log|]. intros _. apply logs_between_ret.
      * apply (logs_between_weaken 0 0); [apply logs_between_ret|lia|lia].
  - intros _. destruct (tc_location test) as [location|];
      [|apply (logs_between_weaken 0 0); [apply logs_between_ret|lia|lia]].
    destruct (loc_line location) as [line|];
      [|apply (logs_between_weaken 0 0); [apply logs_between_ret|lia|lia]].
    destruct (nullish_opt (loc_file location) (loc_fileName location)) as [file|];
      [|apply (logs_between_weaken 0 0); [intros w; apply (logs_between_ret tt w)|lia|lia]].
    destruct (truthy_string file);
      [|apply (logs_between_weaken 0 0); [intros w; apply (logs_between_ret tt w)|lia|lia]].
    destruct (getCodeSnippet h file line) as [snippet|e].
    + apply (logs_between_weaken (1 + 0) (1 + 0)); [|lia|lia]. intros w.
      destruct (accepts (trace w ++ [Log MARKDOWN INFO snippet (testRunId r) testUUID]))
        as [id E].
      unfold try_catchM, bind, lift, client_call, ret. rewrite E.
      eexists tt, _, [_]. repeat split; auto.
    + apply (logs_between_weaken 0 0); [|lia|lia]. intros w.
      exists tt, w, []. rewrite app_nil_r. repeat split; auto.
Qed.

Lemma logs_between_for_each_in {A} lo hi (l : list A) body :
  Forall (fun a => logs_between lo hi (body a)) l ->
  logs_between (length l * lo) (length l * hi) (for_each l body).
Proof.
  induction 1 as [|a l Ha _ IH]; simpl.
  - apply logs_between_ret.
  - apply logs_between_bind; [exact Ha | intros _; exact IH].
Qed.

End LogsBetween.

(** X20.  A result does not fail on well-typed errors.  For a test that is
    started, a client that takes logs and the finish call, and a result
    whose errors have the shape vitest declares (objects whose [message],
    [name] and [stack], where present, are strings), [onTestCaseResult]
    returns normally, whether or not the file a snippet is read from exists.
    It makes between one and three log calls per error, then the finish
    call if the state of the result yields a status, and nothing else. *)
Theorem result_reports_errors (h : Host) (c : Client) (w : World) (test : TestCase)
    (testUUID : UUID) :
  accepts_logs c ->
  finishes_tests c ->
  tests (rep w) !! tc_id test = Some testUUID ->
  Forall typed_error (errors_of test) ->
  exists w' logs,
    onTestCaseResult h c test w = (Returns tt, w')
    /\ emitted w w'
       = logs ++ finish_call testUUID (testRunId (rep w)) (result_status (tc_result test))
    /\ Forall (fun e => is_Log e = true) logs
    /\ length (errors_of test) <= length logs <= 3 * length (errors_of test).
Proof.
  intros Al Fi K Ty. unfold onTestCaseResult.
  rewrite (bind_eq _ _ _ _ _ (ensureTestStarted_known h c test testUUID w K)).
  assert (Er : logs_between (length (errors_of test) * 1) (length (errors_of test) * 3)
                 (match tc_result test with
                  | Some res =>
                      match res_errors res with
                      | Some (e :: es) => for_each (e :: es) (report_error h c test testUUID)
                      | _ => ret tt
                      end
                  | None => ret tt
                  end)).
  { unfold errors_of in *. destruct (tc_result test) as [res|]; [|apply logs_between_ret].
    destruct (res_errors res) as [[|e es]|]; try apply logs_between_ret.
    apply logs_between_for_each_in. eapply Forall_impl; [exact Ty|].
    intros a Ta. apply report_error_returns; assumption. }
  destruct (Er w) as ([] & w1 & logs & E1 & R1 & S1 & T1 & A1 & L1).
  rewrite (bind_eq _ _ _ _ _ E1).
  destruct (result_status (tc_result test)) as [status|].
  - unfold bind, this, client_call, modify. cbn [fst snd rep trace].
    rewrite Fi. eexists _, logs. split; [reflexivity|]. split.
    + apply emitted_app. cbn [rep trace finish_call]. rewrite T1, R1, <- app_assoc. reflexivity.
    + split; [exact A1 | lia].
  - unfold bind, ret, modify. eexists _, logs. split; [reflexivity|]. split.
    + apply emitted_app. cbn [rep trace finish_call]. rewrite T1, app_nil_r. reflexivity.
    + split; [exact A1 | lia].
Qed.

Lemma sample_client_finishes_tests : finishes_tests sample_client.
Proof. intros tr. reflexivity. Qed.

Lemma result_reports_errors_witness :
  let w := run_events sample_host sample_client
             [TestRunStart; TestCaseReady failed_with_location] new_world in
  getCodeSnippet sample_host "/work/gone.spec.ts" 7 = Throws "ENOENT"
  /\ exists w' logs,
       onTestCaseResult sample_host sample_client failed_with_location w = (Returns tt, w')
       /\ emitted w w' = logs ++ [FinishTest "test-uuid-4" (Some "run-uuid") (Mapped FAILED)]
       /\ Forall (fun e => is_Log e = true) logs
       /\ 1 <= length logs <= 3.
Proof.
  cbv zeta. split; [vm_compute; reflexivity|].
  refine (result_reports_errors sample_host sample_client
            (run_events sample_host sample_client
               [TestRunStart; TestCaseReady failed_with_location] new_world)
            failed_with_location "test-uuid-4"
            sample_client_accepts_logs sample_client_finishes_tests _ _).
  - vm_compute. reflexivity.
  - repeat constructor. eexists. split; [reflexivity|].
    repeat split; right; eexists; reflexivity.
Defined.

(** X25.  An error whose stack is not a string aborts the result.  The
    stack of an error is passed to [removeAnsi] as soon as it is truthy.
    When it is a number, a boolean, a big integer or an array, the call
    throws a [TypeError]: [onTestCaseResult] then ends with that error
    after the log of the message of this error, no finish call is made and
    the test stays in the map of started tests. *)
Theorem odd_stack_aborts_result (h : Host) (c : Client) (w : World) (test : TestCase)
    (testUUID : UUID) (res : TestResult) (error : Value) (others : list Value)
    (text : string) (stack : Value) :
  accepts_logs c ->
  tests (rep w) !! tc_id test = Some testUUID ->
  tc_result test = Some res ->
  res_errors res = Some (error :: others) ->
  error_text h error = Returns text ->
  get h error "stack" = Returns stack ->
  truthy stack = true ->
  no_split stack = true ->
  exists w',
    onTestCaseResult h c test w = (Throws "ansiString.split is not a function", w')
    /\ emitted w w'
       = [Log MARKDOWN ERROR (ansiToMarkdown (removeAnsi text)) (testRunId (rep w)) testUUID]
    /\ tests (rep w') !! tc_id test = Some testUUID.
Proof.
  intros Al K Re Er Et Gs Ts Ns. unfold onTestCaseResult.
  rewrite (bind_eq _ _ _ _ _ (ensureTestStarted_known h c test testUUID w K)).
  rewrite Re, Er. cbn [for_each]. unfold report_error. rewrite Et, Gs.
  assert (Rm : removeAnsi_value h stack = Throws "ansiString.split is not a function")
    by (destruct stack; try discriminate Ns; reflexivity).
  destruct (Al (trace w ++ [Log MARKDOWN ERROR (ansiToMarkdown (removeAnsi text))
                                (testRunId (rep w)) testUUID])) as [id L].
  unfold bind, lift, this, client_call. cbn [fst snd rep trace]. rewrite L, Ts, Rm.
  eexists. split; [reflexivity|]. split.
  - unfold emitted. cbn [trace]. rewrite drop_app_length. reflexivity.
  - exact K.
Qed.

Lemma odd_stack_aborts_result_witness :
  let w := run_events sample_host sample_client
             [TestRunStart; TestCaseReady failed_with_odd_stack] new_world in
  exists w',
    onTestCaseResult sample_host sample_client failed_with_odd_stack w
    = (Throws "ansiString.split is not a function", w')
    /\ emitted w w' = [Log MARKDOWN ERROR "boom" (Some "run-uuid") "test-uuid-4"]
    /\ tests (rep w') !! "t-9" = Some "test-uuid-4".
Proof.
  cbv zeta.
  refine (odd_stack_aborts_result sample_host sample_client
            (run_events sample_host sample_client
               [TestRunStart; TestCaseReady failed_with_odd_stack] new_world)
            failed_with_odd_stack "test-uuid-4" _ _ [] "boom" (VNum num_five)
            sample_client_accepts_logs _ eq_refl eq_refl _ eq_refl eq_refl eq_refl).
  - vm_compute. reflexivity.
  - vm_compute. reflexivity.
Defined.

(** ** The order of the suite path *)

Lemma suite_names_nest names : forall parent,
  Forall (fun s => trim s <> EmptyString) names ->
  match nest names parent with
  | Some s => suite_names s
  | None => []
  end = rev names ++ match parent with
                     | Some p => suite_names p
                     | None => []
                     end.
Proof.
  induction names as [|n inner IH]; intros parent N; [reflexivity|].
  apply Forall_cons in N as [Nn N]. simpl. rewrite (IH _ N). simpl.
  destruct n as [|a n]; [contradiction Nn; reflexivity|]. simpl.
  rewrite <- app_assoc. reflexivity.
Qed.

Lemma filter_non_blank (names : list string) :
  Forall (fun s => trim s <> EmptyString) names ->
  filter (fun s => truthy_string s && (0 <? String.length (trim s))%nat) names = names.
Proof.
  induction 1 as [|s names N _ IH]; [reflexivity|].
  rewrite filter_cons_True, IH; [reflexivity|].
  destruct s as [|a s]; [contradiction N; reflexivity|]. simpl truthy_string.
  destruct (trim (String a s)); [contradiction N; reflexivity|]. reflexivity.
Qed.

(** X21.  The suite path lists the enclosing suites from the innermost
    outwards.  For a test nested in suites with non-blank names, the path
    [buildSuitePath] returns is at most one segment for the module, then
    the names of the suites in the reverse of their nesting order; it is
    exactly that reverse when the test has no module. *)
Theorem suite_path_innermost_first (h : Host) (test : TestCase) (names : list string) :
  Forall (fun s => trim s <> EmptyString) names ->
  nullish_opt (tc_suite test) (tc_parent test) = enclosing names ->
  (tc_module test = None -> buildSuitePath h test = Returns (rev names))
  /\ forall path, buildSuitePath h test = Returns path ->
       exists top, path = top ++ rev names /\ length top <= 1.
Proof.
  intros N S. unfold buildSuitePath. rewrite S.
  pose proof (suite_names_nest names (Some (mkSuite None None)) N) as Sn.
  fold (enclosing names) in Sn. simpl in Sn. rewrite app_nil_r in Sn.
  assert (Rn : Forall (fun s => trim s <> EmptyString) (rev names)).
  { apply Forall_forall. intros s I. rewrite Forall_forall in N. apply N.
    apply list_elem_of_In. apply list_elem_of_In in I. apply in_rev. exact I. }
  split.
  - intros ->. simpl. destruct (enclosing names) as [s|]; rewrite Sn.
    all: rewrite (filter_non_blank _ Rn); reflexivity.
  - intros path E. apply obind_returns in E as (segments & Es & E). injection E as <-.
    assert (L : length segments <= 1).
    { destruct (tc_module test) as [module|]; [|injection Es as <-; simpl; lia].
      apply obind_returns in Es as (p & _ & Es). injection Es as <-. simpl. lia. }
    destruct (enclosing names) as [s|]; rewrite Sn, filter_app, (filter_non_blank _ Rn).
    all: eexists; split; [reflexivity|].
    all: etransitivity; [apply length_filter | exact L].
Qed.

Lemma suite_path_innermost_first_witness :
  buildSuitePath sample_host nested_test = Returns ["inner"; "outer"].
Proof.
  apply (suite_path_innermost_first sample_host nested_test ["outer"; "inner"]).
  - repeat constructor; discriminate.
  - reflexivity.
  - reflexivity.
Defined.

(** ** Memo keys are not injective *)

Lemma append_longer a b : a <> a +:+ "|" +:+ b.
Proof.
  intros E. apply (f_equal String.length) in E.
  rewrite string_length_append in E. simpl in E. lia.
Qed.

(** X22.  The memo key of a suite path does not determine the path.  The
    key joins the segments with [|], so a suite whose own name is [a|b] and
    the suite [b] nested under [a] share one key: once a test of the former
    is resolved, a test of the latter is given the very same remote suite,
    and the suite [b] under [a] is never created. *)
Theorem suite_keys_collide (h : Host) (c : Client) (w w1 : World) (t1 t2 : TestCase)
    (a b : string) (u1 : UUID) :
  creates_suites c ->
  buildSuitePath h t1 = Returns [a +:+ "|" +:+ b] ->
  buildSuitePath h t2 = Returns [a; b] ->
  getOrStartSuiteForTest h c t1 w = (Returns u1, w1) ->
  exists w2,
    getOrStartSuiteForTest h c t2 w1 = (Returns u1, w2)
    /\ Forall (fun e => exists run, e = StartSuite run None [a]) (emitted w1 w2).
Proof.
  intros Cr B1 B2 E1. set (ab := a +:+ "|" +:+ b) in *.
  assert (K : suites (rep w1) !! ab = Some u1).
  { unfold getOrStartSuiteForTest in E1.
    rewrite (bind_eq (lift _) _ w [ab] w) in E1; [|unfold lift; rewrite B1; reflexivity].
    apply bind_returns in E1 as (r & w' & R & E1).
    destruct r as [u|]; [|discriminate E1]. injection E1 as -> ->.
    cbn [resolve_segments app] in R. rewrite (bind_eq this _ w (rep w) w eq_refl) in R.
    change (join "|" [ab]) with ab in R.
    destruct (suites (rep w) !! ab) as [existing|] eqn:L.
    - injection R as -> <-. exact L.
    - unfold bind, client_call in R.
      destruct (Cr (trace w ++ [StartSuite (testRunId (rep w)) None [ab]]))
        as (first & others & A).
      rewrite A in R. cbn in R. injection R as -> <-. cbn. apply lookup_insert_eq. }
  assert (J : join "|" [a; b] = ab) by reflexivity.
  assert (R : exists w2,
             resolve_segments c [a; b] [] None w1 = (Returns (Some u1), w2)
             /\ Forall (fun e => exists run, e = StartSuite run None [a]) (emitted w1 w2)).
  { cbn [resolve_segments app]. rewrite (bind_eq this _ w1 (rep w1) w1 eq_refl).
    change (join "|" [a]) with a.
    destruct (suites (rep w1) !! a) as [ua|] eqn:L.
    - rewrite (bind_eq this _ w1 (rep w1) w1 eq_refl), J, K.
      exists w1. split; [reflexivity|]. unfold emitted. rewrite drop_all. constructor.
    - unfold bind at 1, client_call.
      destruct (Cr (trace w1 ++ [StartSuite (testRunId (rep w1)) None [a]]))
        as (first & others & A).
      rewrite A. cbn [fst snd]. rewrite bind_modify.
      rewrite (bind_eq this _ _ _ _ eq_refl). cbn [rep set_suites suites].
      rewrite J, lookup_insert_ne, K; [|apply append_longer].
      eexists. split; [reflexivity|]. unfold emitted. cbn [trace].
      rewrite drop_app_length. repeat constructor. eexists. reflexivity. }
  destruct R as (w2 & R & T). exists w2. split; [|exact T].
  apply (getOrStartSuiteForTest_resolved h c t2 [a; b] w1 w2 (Some u1) B2 R).
Qed.

Lemma suite_keys_collide_witness :
  exists u w1 w2,
    getOrStartSuiteForTest sample_host sample_client bar_test open_run = (Returns u, w1)
    /\ getOrStartSuiteForTest sample_host sample_client nested_bar_test w1 = (Returns u, w2).
Proof.
  eexists _, _.
  assert (E1 : getOrStartSuiteForTest sample_host sample_client bar_test open_run
               = (Returns "suite-uuid-2",
                  snd (getOrStartSuiteForTest sample_host sample_client bar_test open_run)))
    by (vm_compute; reflexivity).
  destruct (suite_keys_collide sample_host sample_client open_run _ bar_test nested_bar_test
              "users" "api" "suite-uuid-2" sample_client_creates_suites eq_refl eq_refl E1)
    as (w2 & E2 & _).
  exists w2. split; [exact E1 | exact E2].
Defined.

(** ** Console logs *)

(** X23.  Escape sequences are removed from a console log only when its
    text holds a markdown marker.  For a log whose content is one coloured
    string: if the text, once the sequences are left out, holds a code
    fence or an asterisk, the log is sent as markdown with the sequences
    removed; if not, it is sent as plain text with every escape sequence
    still in the message.  The level is ERROR for [stderr] and INFO
    otherwise. *)
Theorem console_log_escapes (h : Host) (entry : UserConsoleLog) (text : string)
    (spans : list Span) :
  plain text = true ->
  Forall well_formed_span spans ->
  content entry = VStr (coloured text spans) ->
  formatConsoleLog h entry
  = Returns (if has_markdown (stripped text spans)
             then {| fl_message := stripped text spans; fl_format := MARKDOWN;
                     fl_level := level_of entry |}
             else {| fl_message := coloured text spans; fl_format := PLAIN_TEXT;
                     fl_level := level_of entry |}).
Proof.
  intros T W C. unfold formatConsoleLog. rewrite C. cbn [ToString obind].
  rewrite (removeAnsi_spans spans text T W). fold (has_markdown (stripped text spans)).
  unfold level_of. destruct (has_markdown (stripped text spans)); reflexivity.
Qed.

Lemma console_log_escapes_witness :
  formatConsoleLog sample_host
    {| taskId := Some "t-2"; log_type := Some "stderr";
       content := VStr ("expected " +:+ red +:+ "1" +:+ default_colour +:+ " to be 2") |}
  = Returns {| fl_message := "expected " +:+ red +:+ "1" +:+ default_colour +:+ " to be 2";
               fl_format := PLAIN_TEXT; fl_level := ERROR |}.
Proof.
  refine (console_log_escapes sample_host
            {| taskId := Some "t-2"; log_type := Some "stderr";
               content := VStr ("expected " +:+ red +:+ "1" +:+ default_colour +:+ " to be 2") |}
            "expected " [("31", "m"%char, "1"); ("39", "m"%char, " to be 2")] _ _ _).
  - reflexivity.
  - repeat constructor.
  - reflexivity.
Defined.

(** ** A flush that fails *)

Lemma bind_throws_inv {A B} (m : M A) (k : A -> M B) w e w' :
  bind m k w = (Throws e, w') ->
  m w = (Throws e, w') \/ exists a w1, m w = (Returns a, w1) /\ k a w1 = (Throws e, w').
Proof.
  unfold bind. destruct (m w) as [[a|e1] w1]; intros E.
  - right. exists a, w1. split; [reflexivity | exact E].
  - left. injection E as -> ->. reflexivity.
Qed.

Lemma flushBufferedLogs_throws h c taskId testUUID w e w' :
  flushBufferedLogs h c taskId testUUID w = (Throws e, w') ->
  rep w' = rep w
  /\ exists buffered, buffered <> [] /\ bufferedLogs (rep w) !! taskId = Some buffered.
Proof.
  unfold flushBufferedLogs. rewrite (bind_eq this _ w (rep w) w eq_refl).
  destruct (bufferedLogs (rep w) !! taskId) as [[|entry buffered]|]; try discriminate.
  intros E. apply bind_throws_inv in E as [E|(a & w1 & _ & E)]; [|discriminate E].
  split; [|eexists; split; [|reflexivity]; discriminate].
  assert (R : respects (fun e => is_Log e = true) (fun r => r)
                (for_each (entry :: buffered) (fun entry => forward_log h c entry testUUID))).
  { apply respects_for_each. intros a. apply forward_log_respects. }
  apply (R _ _ _ E).
Qed.

(** X24.  A start that fails keeps the buffered logs, and a flush that
    fails strands them.  When [ensureTestStarted] throws for a test that
    was not known, the buffer of console logs is as before.  Either the
    test is still unknown; or it was registered before the flush of its
    buffered logs failed, and then its logs stay in the buffer although
    every later start of the test returns at once, without flushing. *)
Theorem failed_flush_strands_logs (h : Host) (c : Client) (w w' : World) (test : TestCase)
    (e : Exn) :
  tests (rep w) !! tc_id test = None ->
  ensureTestStarted h c test w = (Throws e, w') ->
  bufferedLogs (rep w') = bufferedLogs (rep w)
  /\ (tests (rep w') = tests (rep w)
      \/ exists testUUID buffered,
           tests (rep w') = <[tc_id test := testUUID]> (tests (rep w))
           /\ buffered <> []
           /\ bufferedLogs (rep w') !! tc_id test = Some buffered
           /\ ensureTestStarted h c test w' = (Returns testUUID, w')).
Proof.
  intros K E. unfold ensureTestStarted in E.
  rewrite (bind_eq this _ w (rep w) w eq_refl), K in E.
  apply bind_throws_inv in E as [E|(suiteUUID & w1 & E1 & E)].
  { destruct (getOrStartSuiteForTest_respects h c test _ _ _ E) as [F _].
    unfold but_suites in F. injection F as _ Ft _ Fb _. split; [exact Fb | left; exact Ft]. }
  destruct (getOrStartSuiteForTest_respects h c test _ _ _ E1) as [F _].
  unfold but_suites in F. injection F as _ Ft _ Fb _.
  rewrite (bind_eq this _ w1 (rep w1) w1 eq_refl) in E.
  apply bind_throws_inv in E as [E|(testUUID & w2 & E2 & E)].
  { unfold client_call in E. destruct (startTest c _); [discriminate E|].
    injection E as _ <-. split; [exact Fb | left; exact Ft]. }
  assert (R2 : rep w2 = rep w1).
  { unfold client_call in E2. destruct (startTest c _); [|discriminate E2].
    injection E2 as _ <-. reflexivity. }
  rewrite bind_modify in E.
  apply bind_throws_inv in E as [E|(a & w3 & _ & E)]; [|discriminate E].
  apply flushBufferedLogs_throws in E as [R (buffered & N & B)]. cbn [rep] in R, B.
  rewrite R2 in R, B. rewrite R. cbn [bufferedLogs tests set_tests] in *.
  split; [exact Fb|]. right. exists testUUID, buffered.
  split; [rewrite Ft; reflexivity|]. split; [exact N|]. split; [exact B|].
  apply ensureTestStarted_known. rewrite R. cbn [tests set_tests]. apply lookup_insert_eq.
Qed.

Lemma failed_flush_strands_logs_witness :
  exists w',
    ensureTestStarted sample_host sample_client console_test bigint_buffered
    = (Throws "Do not know how to serialize a BigInt", w')
    /\ bufferedLogs (rep w') !! "t-2" = Some [bigint_log]
    /\ onTestCaseReady sample_host sample_client console_test w' = (Returns tt, w').
Proof.
  eexists.
  assert (E : ensureTestStarted sample_host sample_client console_test bigint_buffered
              = (Throws "Do not know how to serialize a BigInt",
                 snd (ensureTestStarted sample_host sample_client console_test bigint_buffered)))
    by (vm_compute; reflexivity).
  split; [exact E|].
  destruct (failed_flush_strands_logs sample_host sample_client bigint_buffered _ console_test
              _ eq_refl E) as [B [T|(u & buffered & T & N & L & Again)]].
  - exfalso. vm_compute in T. discriminate T.
  - split; [vm_compute; reflexivity|].
    unfold onTestCaseReady. rewrite (bind_eq _ _ _ _ _ Again). reflexivity.
Defined.
